(** * Provisioner daemon: a shallow embedding of [provisionerd/provisionerd.go]

    The daemon polls a control plane for jobs ([acquireJob]), runs one job at a
    time ([runJob]): it unpacks the job's tar archive below the work directory,
    drives a provisioner and reports the outcome with [CompleteJob] or
    [CancelJob], and shuts down with [Close].

    Layout of the development:
    - [GoLib]: the functions of the Go standard library the daemon calls
      ([path/filepath], [strings], [archive/tar], [io]), transcribed from their
      documented behaviour on Unix;
    - [Proto]: the protobuf messages exchanged with the control plane and with
      the provisioner;
    - the fields of [provisionerDaemon], the monad [Go] in which the methods
      are written, and the methods themselves, one definition per source
      function ([Section Methods]);
    - [exec], which runs a method, and what a run leaves behind: its trace of
      calls and the goroutines it started;
    - [Scenario]: a daemon and surroundings like those of the package's
      tests, on which the code is run;
    - the properties: general theorems first, then the code on concrete jobs
      ([Runs]); after the theorems that settle the specification come those
      about the rest of the daemon (acquiring, the streams of a provisioner,
      unpacking, closing, interleavings), with more jobs for them ([Cases],
      [MoreRuns]); last, runs in which the goroutines of the daemon take
      turns operation by operation ([Interleaved], [Races]).

    A goroutine is run by [exec] from start to end, or until it blocks, without
    another goroutine in between; the theorems about whole jobs ([serve]) are
    about [acquireJob], the runner and its cleanup goroutine run in this
    order, each to its end.  They say what each call does by itself, not what
    happens when a poll or [Close] runs in between: [cancelActiveJob] reads
    [p.acquiredJob] without a lock after it has cancelled the context of the
    job, and by then another poll may have replaced the job.  [poolRun] runs
    goroutines side by side under a schedule, and the runs of [Races] are of
    that kind. *)

From Stdlib Require Import ZArith List String Ascii Bool Lia.
From stdpp Require Import base option gmap strings.

Import ListNotations.
Local Open Scope Z_scope.
Local Open Scope string_scope.

Set Implicit Arguments.

(* ===================================================================== *)
(** * The Go standard library, as far as the daemon uses it               *)
(* ===================================================================== *)

Module GoLib.

(** Go's [error] values.  The daemon tells [io.EOF] and [context.Canceled]
    from the rest ([errors.Is]); any other error is its message. *)
Inductive error : Type :=
| EOF                          (* io.EOF *)
| Canceled                     (* context.Canceled *)
| errorString (msg : string).  (* errors.New(msg) *)

(** [err.Error()], what the verb [%s] prints for an error. *)
Definition Error (err : error) : string :=
  match err with
  | EOF => "EOF"
  | Canceled => "context canceled"
  | errorString msg => msg
  end.

Definition isEOF (err : error) : bool :=
  match err with EOF => true | _ => false end.

(** ** [strings] *)

(** [strings.HasPrefix(s, prefix)]. *)
Definition HasPrefix (s prefix : string) : bool := String.prefix prefix s.

(** [strings.Split(s, "/")]: the maximal runs between separators. *)
Fixpoint Split (s : string) : list string :=
  match s with
  | EmptyString => [EmptyString]
  | String c s' =>
      if Ascii.eqb c "/" then EmptyString :: Split s'
      else match Split s' with
           | [] => [String c EmptyString]
           | e :: es => String c e :: es
           end
  end.

(** ** [path/filepath] (Unix: the separator is ["/"]) *)

Definition IsAbs (path : string) : bool :=
  match path with
  | String c _ => Ascii.eqb c "/"
  | EmptyString => false
  end.

(** The element stack of [Clean]: [out] holds the elements kept so far, last
    one first.  Rule 1 drops empty elements, rule 2 drops ["."], rule 3 lets
    [".."] remove the element before it, rule 4 drops a [".."] that would climb
    above the root; in a relative path leading [".."] elements stay. *)
Fixpoint cleanElems (rooted : bool) (out : list string) (elems : list string)
  : list string :=
  match elems with
  | [] => rev out
  | e :: rest =>
      if String.eqb e "" || String.eqb e "." then cleanElems rooted out rest
      else if String.eqb e ".." then
        match out with
        | top :: out' =>
            if String.eqb top ".." then cleanElems rooted (e :: out) rest
            else cleanElems rooted out' rest
        | [] =>
            if rooted then cleanElems rooted [] rest
            else cleanElems rooted [e] rest
        end
      else cleanElems rooted (e :: out) rest
  end.

(** The elements of the cleaned path. *)
Definition elements (path : string) : list string :=
  cleanElems (IsAbs path) [] (Split path).

(** [filepath.Clean(path)]: the shortest path equivalent to [path] by purely
    lexical processing; the empty result is ["."]. *)
Definition Clean (path : string) : string :=
  let body := String.concat "/" (elements path) in
  let out := if IsAbs path then "/" ++ body else body in
  if String.eqb out "" then "." else out.

(** [filepath.Join(a, b)]: the elements from the first non-empty one on are
    joined with the separator and the result is cleaned; when both are empty
    the result is the empty string. *)
Definition Join (a b : string) : string :=
  if negb (String.eqb a "") then Clean (a ++ "/" ++ b)
  else if negb (String.eqb b "") then Clean b
  else "".

(** ** [io/fs.FileMode] and [archive/tar] *)

(** [fs.FileMode] is a [uint32]: nine permission bits and the type bits. *)
Definition FileMode := Z.

Definition ModePerm : FileMode := 511.                 (* 0777 *)
Definition ModeDir : FileMode := Z.shiftl 1 31.
Definition ModeSymlink : FileMode := Z.shiftl 1 27.
Definition ModeDevice : FileMode := Z.shiftl 1 26.
Definition ModeNamedPipe : FileMode := Z.shiftl 1 25.
Definition ModeSocket : FileMode := Z.shiftl 1 24.
Definition ModeSetuid : FileMode := Z.shiftl 1 23.
Definition ModeSetgid : FileMode := Z.shiftl 1 22.
Definition ModeCharDevice : FileMode := Z.shiftl 1 21.
Definition ModeSticky : FileMode := Z.shiftl 1 20.

(** [m.Perm()]. *)
Definition Perm (m : FileMode) : FileMode := Z.land m ModePerm.

(** The mode field of a tar header: [c_ISUID] and the like. *)
Definition c_ISUID : Z := 2048.      (* 04000 *)
Definition c_ISGID : Z := 1024.      (* 02000 *)
Definition c_ISVTX : Z := 512.       (* 01000 *)
Definition c_ISDIR : Z := 16384.     (* 040000 *)
Definition c_ISFIFO : Z := 4096.     (* 010000 *)
Definition c_ISLNK : Z := 40960.     (* 0120000 *)
Definition c_ISBLK : Z := 24576.     (* 060000 *)
Definition c_ISCHR : Z := 8192.      (* 020000 *)
Definition c_ISSOCK : Z := 49152.    (* 0140000 *)

(** Type flags of a tar header (a byte, here its character code). *)
Definition TypeReg : Z := 48.        (* '0' *)
Definition TypeLink : Z := 49.       (* '1' *)
Definition TypeSymlink : Z := 50.    (* '2' *)
Definition TypeChar : Z := 51.       (* '3' *)
Definition TypeBlock : Z := 52.      (* '4' *)
Definition TypeDir : Z := 53.        (* '5' *)
Definition TypeFifo : Z := 54.       (* '6' *)

(** [tar.Header], the fields the daemon reads.  [Mode] is the recorded mode
    (an [int64]), [Size] the length of the entry's data. *)
Record Header : Type := mkHeader {
  Name : string;
  Mode : Z;
  Typeflag : Z;
  Size : Z;
}.

Definition orIf (c : bool) (bit : FileMode) (m : FileMode) : FileMode :=
  if c then Z.lor m bit else m.

(** [header.FileInfo().Mode()]: the permission bits of the recorded mode, the
    setuid, setgid and sticky bits, the type bits recorded in the mode field,
    and the type bits that follow from the type flag. *)
Definition FileInfoMode (h : Header) : FileMode :=
  let m32 := Mode h mod 2 ^ 32 in
  let mode := Perm m32 in
  let mode := orIf (negb (Z.eqb (Z.land (Mode h) c_ISUID) 0)) ModeSetuid mode in
  let mode := orIf (negb (Z.eqb (Z.land (Mode h) c_ISGID) 0)) ModeSetgid mode in
  let mode := orIf (negb (Z.eqb (Z.land (Mode h) c_ISVTX) 0)) ModeSticky mode in
  let m := Z.ldiff m32 4095 in                          (* &^ 07777 *)
  let mode := orIf (Z.eqb m c_ISDIR) ModeDir mode in
  let mode := orIf (Z.eqb m c_ISFIFO) ModeNamedPipe mode in
  let mode := orIf (Z.eqb m c_ISLNK) ModeSymlink mode in
  let mode := orIf (Z.eqb m c_ISBLK) ModeDevice mode in
  let mode := orIf (Z.eqb m c_ISCHR) (Z.lor ModeDevice ModeCharDevice) mode in
  let mode := orIf (Z.eqb m c_ISSOCK) ModeSocket mode in
  let mode := orIf (Z.eqb (Typeflag h) TypeSymlink) ModeSymlink mode in
  let mode := orIf (Z.eqb (Typeflag h) TypeChar) (Z.lor ModeDevice ModeCharDevice) mode in
  let mode := orIf (Z.eqb (Typeflag h) TypeBlock) ModeDevice mode in
  let mode := orIf (Z.eqb (Typeflag h) TypeDir) ModeDir mode in
  let mode := orIf (Z.eqb (Typeflag h) TypeFifo) ModeNamedPipe mode in
  mode.

(** What [tar.Reader] yields for one entry: the header returned by [Next] and
    the entry's data stream, [Size] bytes and then the error [DataErr]
    ([io.EOF] when the data is complete).  The bytes themselves are not
    modelled: the daemon copies them and never inspects them. *)
Record Entry : Type := mkEntry {
  Hdr : Header;
  DataErr : error;
}.

(** An archive as [tar.Reader] delivers it: the entries in order, and the error
    of the call of [Next] after the last of them ([io.EOF] at the end of a
    well-formed archive). *)
Record Archive : Type := mkArchive {
  Entries : list Entry;
  NextErr : error;
}.

(** ** [io] *)

(** The reader handed to [io.CopyN] is the data stream of entry [e]; the
    writer is a file, and [written] is what the writes returned: [None] when
    all the bytes offered were written, [Some (k, err)] when the write failed
    with [err] after [k] bytes.  [offered e n] is the number of bytes
    [io.LimitReader(reader, n)] delivers. *)
Definition offered (e : Entry) (n : Z) : Z := Z.min (Size (Hdr e)) n.

(** [io.CopyN(file, reader, n)], given the outcome of the writes: exactly [n]
    bytes copied is success; a source that ends before [n] bytes reports its
    own error, [io.EOF] when it simply ended. *)
Definition CopyN_result (e : Entry) (n : Z) (written : option (Z * error))
  : Z * option error :=
  match written with
  | Some (k, err) => if Z.eqb k n then (n, None) else (k, Some err)
  | None =>
      if Z.leb n (Size (Hdr e)) then (n, None)
      else (Size (Hdr e), Some (DataErr e))
  end.

End GoLib.

Import GoLib.

(* ===================================================================== *)
(** * The protobuf messages                                               *)
(* ===================================================================== *)

Module Proto.

(** Payloads the daemon forwards without looking inside. *)
Definition bytes := list Byte.byte.
Definition ParameterSchema := string.
Definition ParameterValue := string.
Definition Resource := string.
Definition LogLevel := Z.

(** [sdkproto.Log]. *)
Record sdkLog : Type := mkSdkLog {
  sdkLevel : LogLevel;
  sdkOutput : string;
}.

(** [sdkproto.Parse_Response.Type]: the dynamic type of the oneof; [nil] when
    it is unset, [Parse_Response_other] for a wrapper type the daemon does not
    know, given by the name [reflect.TypeOf] prints. *)
Inductive Parse_Response : Type :=
| Parse_Response_Log (Log : sdkLog)
| Parse_Response_Complete (ParameterSchemas : list ParameterSchema)
| Parse_Response_other (typeName : string)
| Parse_Response_nil.

(** [sdkproto.Provision_Response.Type]. *)
Inductive Provision_Response : Type :=
| Provision_Response_Log (Log : sdkLog)
| Provision_Response_Complete (State : bytes) (Resources : list Resource)
| Provision_Response_other (typeName : string)
| Provision_Response_nil.

(** A stream from the provisioner: the messages [Recv] returns, in order, and
    the error it returns after them ([io.EOF] when the provisioner closed the
    stream, the context's error when the job was cancelled). *)
Record Stream (M : Type) : Type := mkStream {
  Msgs : list M;
  RecvErr : error;
}.

(** [proto.AcquiredJob.Type]. *)
Inductive AcquiredJob_Type : Type :=
| AcquiredJob_ProjectImport_ (ProjectHistoryId : string)
| AcquiredJob_WorkspaceProvision_
    (WorkspaceHistoryId : string) (ParameterValues : list ParameterValue)
    (State : bytes)
| AcquiredJob_other (typeName : string)
| AcquiredJob_nil.

(** [proto.AcquiredJob]; the names of organization, project, workspace and
    user are only logged and left out.  [ProjectSourceArchive] is the byte
    slice as [tar.NewReader] reads it. *)
Record AcquiredJob : Type := mkAcquiredJob {
  JobId : string;
  Provisioner : string;
  ProjectSourceArchive : Archive;
  Type_ : AcquiredJob_Type;
}.

(** [&proto.AcquiredJob{}]: no job available. *)
Definition emptyJob : AcquiredJob :=
  {| JobId := EmptyString; Provisioner := EmptyString;
     ProjectSourceArchive := {| Entries := []; NextErr := EOF |};
     Type_ := AcquiredJob_nil |}.

(** [proto.Log]; the source is always [LogSource_PROVISIONER]. *)
Record Log : Type := mkLog {
  Level : LogLevel;
  CreatedAt : Z;
  Output : string;
}.

(** [proto.JobUpdate]. *)
Record JobUpdate : Type := mkJobUpdate {
  update_JobId : string;
  ProjectImportLogs : list Log;
  WorkspaceProvisionLogs : list Log;
}.

(** [proto.CancelledJob]. *)
Record CancelledJob : Type := mkCancelledJob {
  cancelled_JobId : string;
  cancelled_Error : string;
}.

(** [proto.CompletedJob.Type]. *)
Inductive CompletedJob_Type : Type :=
| CompletedJob_ProjectImport_ (ParameterSchemas : list ParameterSchema)
| CompletedJob_WorkspaceProvision_ (State : bytes) (Resources : list Resource).

(** [proto.CompletedJob]. *)
Record CompletedJob : Type := mkCompletedJob {
  completed_JobId : string;
  completed_Type : CompletedJob_Type;
}.

End Proto.

Import Proto.

(* ===================================================================== *)
(** * The daemon                                                          *)
(* ===================================================================== *)

(** A registered provisioner client ([sdkproto.DRPCProvisionerClient]). *)
Definition ProvisionerClient := nat.

(** [Options]: [Provisioners] maps a provisioner kind to its client.  The
    logger and the poll interval play no part below. *)
Record Options : Type := mkOptions {
  Provisioners : gmap string ProvisionerClient;
  WorkDirectory : string;
}.

(** The contexts the daemon passes to its calls: [closeContext], the context
    of the whole daemon, and the context of one job, made by
    [context.WithCancel] in [acquireJob] and named by its number. *)
Inductive Context : Type :=
| closeContext
| jobContext (n : nat).

(** The fields of [provisionerDaemon] that change.  A mutex is [true] while it
    is held.  [closed] says whether the channel [p.closed] has been closed.
    [acquiredJobCancel] is the cancel function of a job context and
    [acquiredJobDone] a channel, both named by number ([None] is [nil]);
    [contexts] and [channels] record, for every job context and channel made
    so far, whether it has been cancelled or closed. *)
Record provisionerDaemon : Type := mkDaemon {
  updateStream : bool;
  closeCancelled : bool;
  closed : bool;
  closeMutex : bool;
  closeError : option error;
  acquiredJob : option AcquiredJob;
  acquiredJobMutex : bool;
  acquiredJobCancel : option nat;
  acquiredJobCancelled : bool;
  acquiredJobRunning : bool;
  acquiredJobDone : option nat;
  contexts : list bool;
  channels : list bool;
}.

(** The daemon as [New] makes it; [connected] says whether [connect] has
    opened the update stream. *)
Definition New (connected : bool) : provisionerDaemon :=
  {| updateStream := connected; closeCancelled := false; closed := false;
     closeMutex := false; closeError := None; acquiredJob := None;
     acquiredJobMutex := false; acquiredJobCancel := None;
     acquiredJobCancelled := false; acquiredJobRunning := false;
     acquiredJobDone := None; contexts := []; channels := [] |}.

(** The job slot: the five fields an acquire sets. *)
Definition slot (p : provisionerDaemon)
  : option AcquiredJob * bool * bool * option nat * option nat :=
  (acquiredJob p, acquiredJobRunning p, acquiredJobCancelled p,
   acquiredJobCancel p, acquiredJobDone p).

(** [ctx.Done()] is closed: the job context was cancelled, or its parent, the
    daemon's context, was. *)
Definition contextDone (p : provisionerDaemon) (ctx : nat) : bool :=
  closeCancelled p || bool_decide (contexts p !! ctx = Some true).

Definition channelClosed (p : provisionerDaemon) (ch : nat) : bool :=
  bool_decide (channels p !! ch = Some true).

(** ** Calls that leave the daemon *)

Definition O_RDWR : Z := 2.
Definition O_CREATE : Z := 64.

(** The calls to the control plane, to a provisioner, to the file system and
    to the clock, each with the type of what it returns.  A file is named by
    the path it was opened at.  [FileWrite path n] stands for the writes by
    which [io.CopyN] stores [n] bytes; it returns [None] when all were written
    and [Some (k, err)] when the writes failed with [err] after [k] bytes. *)
Inductive ExtCall : Type -> Type :=
| AcquireJob (ctx : Context) : ExtCall (AcquiredJob + error)
| UpdateJob_Send (update : JobUpdate) : ExtCall (option error)
| CancelJob (ctx : Context) (job : CancelledJob) : ExtCall (option error)
| CompleteJob (ctx : Context) (job : CompletedJob) : ExtCall (option error)
| Parse (client : ProvisionerClient) (ctx : Context) (Directory : string)
    : ExtCall (Stream Parse_Response + error)
| Provision (client : ProvisionerClient) (ctx : Context) (Directory : string)
    (ParameterValues : list ParameterValue) (State : bytes)
    : ExtCall (Stream Provision_Response + error)
| StreamClose : ExtCall (option error)
| UnixMilli : ExtCall Z
| RemoveAll (path : string) : ExtCall (option error)
| MkdirAll (path : string) (perm : FileMode) : ExtCall (option error)
| OpenFile (path : string) (flag : Z) (perm : FileMode) : ExtCall (option error)
| FileWrite (path : string) (n : Z) : ExtCall (option (Z * error))
| FileClose (path : string) : ExtCall (option error)
| ConnClose : ExtCall (option error)
| UpdateStreamClose : ExtCall (option error).

(** The goroutines the daemon starts with [go]. *)
Inductive Task : Type :=
| Task_runJob (ctx : nat)
| Task_cleanup (ctx : nat).

(** ** The monad of daemon code

    A method is a tree of the operations through which it meets the rest of
    the program: [Step f] is one access to the daemon's fields ([f] returns
    [None] where the access blocks: a locked mutex, a receive on an open
    channel); [Call c] is a call that leaves the daemon; [Spawn t] is a [go]
    statement; [Panic] a run-time panic. *)
Inductive Go (A : Type) : Type :=
| Ret (a : A)
| Panic (msg : string)
| Step {R : Type} (f : provisionerDaemon -> option (R * provisionerDaemon))
    (k : R -> Go A)
| Call {R : Type} (c : ExtCall R) (k : R -> Go A)
| Spawn (t : Task) (k : Go A).

Arguments Ret {A} a.
Arguments Panic {A} msg.
Arguments Step {A R} f k.
Arguments Call {A R} c k.
Arguments Spawn {A} t k.

Fixpoint bind {A B : Type} (m : Go A) (f : A -> Go B) : Go B :=
  match m with
  | Ret a => f a
  | Panic msg => Panic msg
  | Step g k => Step g (fun r => bind (k r) f)
  | Call c k => Call c (fun r => bind (k r) f)
  | Spawn t k => Spawn t (bind k f)
  end.

#[export] Instance Go_ret : MRet Go := @Ret.
#[export] Instance Go_bind : MBind Go := fun A B f m => bind m f.

(** One read, one write of the fields; a call; a [go] statement. *)
Definition load {R : Type} (field : provisionerDaemon -> R) : Go R :=
  Step (fun p => Some (field p, p)) Ret.

Definition store (set : provisionerDaemon -> provisionerDaemon) : Go unit :=
  Step (fun p => Some (tt, set p)) Ret.

(** A receive or a [select] without default: blocks until [ready]. *)
Definition await (ready : provisionerDaemon -> bool) : Go unit :=
  Step (fun p => if ready p then Some (tt, p) else None) Ret.

Definition call {R : Type} (c : ExtCall R) : Go R := Call c Ret.

Definition go (t : Task) : Go unit := Spawn t (Ret tt).

(** ** Assignments to the fields *)

Definition set_closeCancelled (v : bool) (p : provisionerDaemon)
  : provisionerDaemon :=
  {| updateStream := updateStream p; closeCancelled := v; closed := closed p;
     closeMutex := closeMutex p; closeError := closeError p;
     acquiredJob := acquiredJob p; acquiredJobMutex := acquiredJobMutex p;
     acquiredJobCancel := acquiredJobCancel p;
     acquiredJobCancelled := acquiredJobCancelled p;
     acquiredJobRunning := acquiredJobRunning p;
     acquiredJobDone := acquiredJobDone p; contexts := contexts p;
     channels := channels p |}.

Definition set_closed (v : bool) (p : provisionerDaemon)
  : provisionerDaemon :=
  {| updateStream := updateStream p; closeCancelled := closeCancelled p;
     closed := v; closeMutex := closeMutex p; closeError := closeError p;
     acquiredJob := acquiredJob p; acquiredJobMutex := acquiredJobMutex p;
     acquiredJobCancel := acquiredJobCancel p;
     acquiredJobCancelled := acquiredJobCancelled p;
     acquiredJobRunning := acquiredJobRunning p;
     acquiredJobDone := acquiredJobDone p; contexts := contexts p;
     channels := channels p |}.

Definition set_closeMutex (v : bool) (p : provisionerDaemon)
  : provisionerDaemon :=
  {| updateStream := updateStream p; closeCancelled := closeCancelled p;
     closed := closed p; closeMutex := v; closeError := closeError p;
     acquiredJob := acquiredJob p; acquiredJobMutex := acquiredJobMutex p;
     acquiredJobCancel := acquiredJobCancel p;
     acquiredJobCancelled := acquiredJobCancelled p;
     acquiredJobRunning := acquiredJobRunning p;
     acquiredJobDone := acquiredJobDone p; contexts := contexts p;
     channels := channels p |}.

Definition set_closeError (v : option error) (p : provisionerDaemon)
  : provisionerDaemon :=
  {| updateStream := updateStream p; closeCancelled := closeCancelled p;
     closed := closed p; closeMutex := closeMutex p; closeError := v;
     acquiredJob := acquiredJob p; acquiredJobMutex := acquiredJobMutex p;
     acquiredJobCancel := acquiredJobCancel p;
     acquiredJobCancelled := acquiredJobCancelled p;
     acquiredJobRunning := acquiredJobRunning p;
     acquiredJobDone := acquiredJobDone p; contexts := contexts p;
     channels := channels p |}.

Definition set_acquiredJob (v : option AcquiredJob) (p : provisionerDaemon)
  : provisionerDaemon :=
  {| updateStream := updateStream p; closeCancelled := closeCancelled p;
     closed := closed p; closeMutex := closeMutex p;
     closeError := closeError p; acquiredJob := v;
     acquiredJobMutex := acquiredJobMutex p;
     acquiredJobCancel := acquiredJobCancel p;
     acquiredJobCancelled := acquiredJobCancelled p;
     acquiredJobRunning := acquiredJobRunning p;
     acquiredJobDone := acquiredJobDone p; contexts := contexts p;
     channels := channels p |}.

Definition set_acquiredJobMutex (v : bool) (p : provisionerDaemon)
  : provisionerDaemon :=
  {| updateStream := updateStream p; closeCancelled := closeCancelled p;
     closed := closed p; closeMutex := closeMutex p;
     closeError := closeError p; acquiredJob := acquiredJob p;
     acquiredJobMutex := v; acquiredJobCancel := acquiredJobCancel p;
     acquiredJobCancelled := acquiredJobCancelled p;
     acquiredJobRunning := acquiredJobRunning p;
     acquiredJobDone := acquiredJobDone p; contexts := contexts p;
     channels := channels p |}.

Definition set_acquiredJobCancel (v : option nat) (p : provisionerDaemon)
  : provisionerDaemon :=
  {| updateStream := updateStream p; closeCancelled := closeCancelled p;
     closed := closed p; closeMutex := closeMutex p;
     closeError := closeError p; acquiredJob := acquiredJob p;
     acquiredJobMutex := acquiredJobMutex p; acquiredJobCancel := v;
     acquiredJobCancelled := acquiredJobCancelled p;
     acquiredJobRunning := acquiredJobRunning p;
     acquiredJobDone := acquiredJobDone p; contexts := contexts p;
     channels := channels p |}.

Definition set_acquiredJobCancelled (v : bool) (p : provisionerDaemon)
  : provisionerDaemon :=
  {| updateStream := updateStream p; closeCancelled := closeCancelled p;
     closed := closed p; closeMutex := closeMutex p;
     closeError := closeError p; acquiredJob := acquiredJob p;
     acquiredJobMutex := acquiredJobMutex p;
     acquiredJobCancel := acquiredJobCancel p; acquiredJobCancelled := v;
     acquiredJobRunning := acquiredJobRunning p;
     acquiredJobDone := acquiredJobDone p; contexts := contexts p;
     channels := channels p |}.

Definition set_acquiredJobRunning (v : bool) (p : provisionerDaemon)
  : provisionerDaemon :=
  {| updateStream := updateStream p; closeCancelled := closeCancelled p;
     closed := closed p; closeMutex := closeMutex p;
     closeError := closeError p; acquiredJob := acquiredJob p;
     acquiredJobMutex := acquiredJobMutex p;
     acquiredJobCancel := acquiredJobCancel p;
     acquiredJobCancelled := acquiredJobCancelled p; acquiredJobRunning := v;
     acquiredJobDone := acquiredJobDone p; contexts := contexts p;
     channels := channels p |}.

Definition set_acquiredJobDone (v : option nat) (p : provisionerDaemon)
  : provisionerDaemon :=
  {| updateStream := updateStream p; closeCancelled := closeCancelled p;
     closed := closed p; closeMutex := closeMutex p;
     closeError := closeError p; acquiredJob := acquiredJob p;
     acquiredJobMutex := acquiredJobMutex p;
     acquiredJobCancel := acquiredJobCancel p;
     acquiredJobCancelled := acquiredJobCancelled p;
     acquiredJobRunning := acquiredJobRunning p; acquiredJobDone := v;
     contexts := contexts p; channels := channels p |}.

Definition set_contexts (v : list bool) (p : provisionerDaemon)
  : provisionerDaemon :=
  {| updateStream := updateStream p; closeCancelled := closeCancelled p;
     closed := closed p; closeMutex := closeMutex p;
     closeError := closeError p; acquiredJob := acquiredJob p;
     acquiredJobMutex := acquiredJobMutex p;
     acquiredJobCancel := acquiredJobCancel p;
     acquiredJobCancelled := acquiredJobCancelled p;
     acquiredJobRunning := acquiredJobRunning p;
     acquiredJobDone := acquiredJobDone p; contexts := v;
     channels := channels p |}.

Definition set_channels (v : list bool) (p : provisionerDaemon)
  : provisionerDaemon :=
  {| updateStream := updateStream p; closeCancelled := closeCancelled p;
     closed := closed p; closeMutex := closeMutex p;
     closeError := closeError p; acquiredJob := acquiredJob p;
     acquiredJobMutex := acquiredJobMutex p;
     acquiredJobCancel := acquiredJobCancel p;
     acquiredJobCancelled := acquiredJobCancelled p;
     acquiredJobRunning := acquiredJobRunning p;
     acquiredJobDone := acquiredJobDone p; contexts := contexts p;
     channels := v |}.
(** [context.WithCancel]: a fresh job context, not yet cancelled. *)
Definition WithCancel (p : provisionerDaemon) : nat * provisionerDaemon :=
  (length (contexts p), set_contexts (contexts p ++ [false]) p).

(** Calling the cancel function of job context [ctx]. *)
Definition cancelContext (ctx : nat) (p : provisionerDaemon) : provisionerDaemon :=
  set_contexts (<[ctx := true]> (contexts p)) p.

(** [make(chan struct{})]: a fresh open channel. *)
Definition makeChan (p : provisionerDaemon) : nat * provisionerDaemon :=
  (length (channels p), set_channels (channels p ++ [false]) p).

Definition closeChan (ch : nat) (p : provisionerDaemon) : provisionerDaemon :=
  set_channels (<[ch := true]> (channels p)) p.

(** The cap of [io.CopyN] in [runJob], [(1<<20)*10]: "Max file size of 10MB". *)
Definition maxFileSize : Z := Z.shiftl 1 20 * 10.

(** ** The methods of [provisionerDaemon] *)

Section Methods.

(** [strconv.Quote], which the verb [%q] applies to a string. *)
Variable Quote : string -> string.

(** [p.opts]. *)
Variable opts : Options.

Definition Lock_acquiredJobMutex : Go unit :=
  Step (fun p => if acquiredJobMutex p then None
                 else Some (tt, set_acquiredJobMutex true p)) Ret.

Definition Unlock_acquiredJobMutex : Go unit :=
  store (set_acquiredJobMutex false).

Definition Lock_closeMutex : Go unit :=
  Step (fun p => if closeMutex p then None
                 else Some (tt, set_closeMutex true p)) Ret.

Definition Unlock_closeMutex : Go unit := store (set_closeMutex false).

(** [func (p *provisionerDaemon) isRunningJob() bool]. *)
Definition isRunningJob : Go bool := load acquiredJobRunning.

(** [func (p *provisionerDaemon) isClosed() bool]: a [select] on [p.closed]
    with a default case. *)
Definition isClosed : Go bool := load closed.

(** A read of [p.acquiredJob] followed by a field selection; on [nil] the
    selection panics. *)
Definition getAcquiredJob : Go AcquiredJob :=
  job ← load acquiredJob;
  match job with
  | Some job => Ret job
  | None => Panic "invalid memory address or nil pointer dereference"
  end.

(** [p.acquiredJobCancel()]. *)
Definition callAcquiredJobCancel : Go unit :=
  cancel ← load acquiredJobCancel;
  match cancel with
  | Some ctx => store (cancelContext ctx)
  | None => Panic "invalid memory address or nil pointer dereference"
  end.

(** [close(p.acquiredJobDone)]. *)
Definition closeAcquiredJobDone : Go unit :=
  r ← Step (fun p =>
         match acquiredJobDone p with
         | None => Some (Some "close of nil channel", p)
         | Some ch =>
             if channelClosed p ch then Some (Some "close of closed channel", p)
             else Some (None, closeChan ch p)
         end) Ret;
  match r with
  | Some msg => Panic msg
  | None => Ret tt
  end.

(** [<-p.acquiredJobDone]; a receive from a [nil] channel blocks for ever. *)
Definition recvAcquiredJobDone : Go unit :=
  await (fun p => match acquiredJobDone p with
                  | Some ch => channelClosed p ch
                  | None => false
                  end).

(** [func (p *provisionerDaemon) cancelActiveJob(errMsg string)]. *)
Definition cancelActiveJob (errMsg : string) : Go unit :=
  running ← isRunningJob;
  if negb running then Ret tt
  else
    cancelled ← load acquiredJobCancelled;
    if cancelled : bool then Ret tt
    else
      store (set_acquiredJobCancelled true);;
      callAcquiredJobCancel;;
      job ← getAcquiredJob;
      _ ← call (CancelJob closeContext
                  {| cancelled_JobId := JobId job;
                     cancelled_Error := "provisioner daemon: " ++ errMsg |});
      Ret tt.

(** [func (p *provisionerDaemon) acquireJob(ctx context.Context)], called by
    the ticker of [connect] with the daemon's context.  The deferred unlock
    runs at every return. *)
Definition acquireJob : Go unit :=
  Lock_acquiredJobMutex;;
  running ← isRunningJob;
  if running : bool then Unlock_acquiredJobMutex
  else
    r ← call (AcquireJob closeContext);
    match r with
    | inr err =>
        store (set_acquiredJob None);;
        Unlock_acquiredJobMutex
    | inl job =>
        store (set_acquiredJob (Some job));;
        closed ← isClosed;
        if closed : bool then Unlock_acquiredJobMutex
        else if String.eqb (JobId job) EmptyString then Unlock_acquiredJobMutex
        else
          ctx ← Step (fun p => let '(ctx, p) := WithCancel p in
                               Some (ctx, set_acquiredJobCancel (Some ctx) p)) Ret;
          store (set_acquiredJobCancelled false);;
          store (set_acquiredJobRunning true);;
          store (fun p => let '(ch, p) := makeChan p in
                          set_acquiredJobDone (Some ch) p);;
          go (Task_runJob ctx);;
          Unlock_acquiredJobMutex
    end.

(** The body of the loop of [runJob] for a regular file, after [os.OpenFile]
    succeeded: [io.CopyN] with the cap [maxFileSize], then [file.Close].  The
    result is the message of the failure, if any.  Nothing is written when
    the reader has nothing to offer. *)
Definition copyFile (path : string) (e : Entry) : Go (option string) :=
  written ← (if Z.leb (offered e maxFileSize) 0 then Ret None
             else call (FileWrite path (offered e maxFileSize)));
  let '(size, err) := CopyN_result e maxFileSize written in
  let err := match err with
             | Some err => if isEOF err then None else Some err
             | None => None
             end in
  match err with
  | Some err => Ret (Some ("copy file " ++ Quote path ++ ": " ++ Error err))
  | None =>
      err ← call (FileClose path);
      match err with
      | Some err => Ret (Some ("close file " ++ Quote path ++ ": " ++ Error err))
      | None => Ret None
      end
  end.

(** The loop of [runJob] over the entries of the archive.  Where the source
    calls [p.cancelActiveJob(msg)] and returns from [runJob], [unpack] returns
    [Some msg] (and [runJob] below makes the call); [None] is the [break] at
    [io.EOF]. *)
Fixpoint unpack (entries : list Entry) (nextErr : error) : Go (option string) :=
  match entries with
  | [] =>
      if isEOF nextErr then Ret None
      else Ret (Some ("read project source archive: " ++ Error nextErr))
  | e :: rest =>
      let header := Hdr e in
      let path := Join (WorkDirectory opts) (Name header) in
      if negb (HasPrefix path (Clean (WorkDirectory opts))) then
        Ret (Some "tar attempts to target relative upper directory")
      else
        let mode := FileInfoMode header in
        let mode := if Z.eqb mode 0 then 384 (* 0600 *) else mode in
        if Z.eqb (Typeflag header) TypeDir then
          err ← call (MkdirAll path mode);
          match err with
          | Some err => Ret (Some ("mkdir " ++ Quote path ++ ": " ++ Error err))
          | None => unpack rest nextErr
          end
        else if Z.eqb (Typeflag header) TypeReg then
          err ← call (OpenFile path (Z.lor O_CREATE O_RDWR) mode);
          match err with
          | Some err =>
              Ret (Some ("create file " ++ Quote path ++ ": " ++ Error err))
          | None =>
              r ← copyFile path e;
              match r with
              | Some msg => Ret (Some msg)
              | None => unpack rest nextErr
              end
          end
        else unpack rest nextErr
  end.

(** The message loop of [runProjectImport] over what [stream.Recv] returns. *)
Fixpoint parseLoop (ctx : nat) (msgs : list Parse_Response) (recvErr : error)
  : Go unit :=
  match msgs with
  | [] => cancelActiveJob ("recv parse source: " ++ Error recvErr)
  | msg :: rest =>
      match msg with
      | Parse_Response_Log log =>
          job ← getAcquiredJob;
          now ← call UnixMilli;
          err ← call (UpdateJob_Send
                        {| update_JobId := JobId job;
                           ProjectImportLogs :=
                             [{| Level := sdkLevel log; CreatedAt := now;
                                 Output := sdkOutput log |}];
                           WorkspaceProvisionLogs := [] |});
          match err with
          | Some err => cancelActiveJob ("update job: " ++ Error err)
          | None => parseLoop ctx rest recvErr
          end
      | Parse_Response_Complete schemas =>
          job ← getAcquiredJob;
          err ← call (CompleteJob (jobContext ctx)
                        {| completed_JobId := JobId job;
                           completed_Type := CompletedJob_ProjectImport_ schemas |});
          match err with
          | Some err => cancelActiveJob ("complete job: " ++ Error err)
          | None => Ret tt
          end
      | Parse_Response_other typeName =>
          cancelActiveJob ("invalid message type " ++ Quote typeName
                           ++ " received from provisioner")
      | Parse_Response_nil =>
          (* reflect.TypeOf(nil) is nil, and its String method panics *)
          Panic "invalid memory address or nil pointer dereference"
      end
  end.

(** [func (p *provisionerDaemon) runProjectImport(ctx, provisioner, job)]. *)
Definition runProjectImport (ctx : nat) (provisioner : ProvisionerClient)
  : Go unit :=
  r ← call (Parse provisioner (jobContext ctx) (WorkDirectory opts));
  match r with
  | inr err => cancelActiveJob ("parse source: " ++ Error err)
  | inl stream =>
      parseLoop ctx (Msgs stream) (RecvErr stream);;
      _ ← call StreamClose;
      Ret tt
  end.

(** The message loop of [runWorkspaceProvision]. *)
Fixpoint provisionLoop (ctx : nat) (msgs : list Provision_Response)
  (recvErr : error) : Go unit :=
  match msgs with
  | [] => cancelActiveJob ("recv workspace provision: " ++ Error recvErr)
  | msg :: rest =>
      match msg with
      | Provision_Response_Log log =>
          job ← getAcquiredJob;
          now ← call UnixMilli;
          err ← call (UpdateJob_Send
                        {| update_JobId := JobId job;
                           ProjectImportLogs := [];
                           WorkspaceProvisionLogs :=
                             [{| Level := sdkLevel log; CreatedAt := now;
                                 Output := sdkOutput log |}] |});
          match err with
          | Some err => cancelActiveJob ("send job update: " ++ Error err)
          | None => provisionLoop ctx rest recvErr
          end
      | Provision_Response_Complete state resources =>
          job ← getAcquiredJob;
          err ← call (CompleteJob (jobContext ctx)
                        {| completed_JobId := JobId job;
                           completed_Type :=
                             CompletedJob_WorkspaceProvision_ state resources |});
          match err with
          | Some err => cancelActiveJob ("complete job: " ++ Error err)
          | None => Ret tt
          end
      | Provision_Response_other typeName =>
          cancelActiveJob ("invalid message type " ++ Quote typeName
                           ++ " received from provisioner")
      | Provision_Response_nil =>
          Panic "invalid memory address or nil pointer dereference"
      end
  end.

(** [func (p *provisionerDaemon) runWorkspaceProvision(ctx, provisioner, job)]. *)
Definition runWorkspaceProvision (ctx : nat) (provisioner : ProvisionerClient)
  (ParameterValues : list ParameterValue) (State : bytes) : Go unit :=
  r ← call (Provision provisioner (jobContext ctx) (WorkDirectory opts)
              ParameterValues State);
  match r with
  | inr err => cancelActiveJob ("provision: " ++ Error err)
  | inl stream =>
      provisionLoop ctx (Msgs stream) (RecvErr stream);;
      _ ← call StreamClose;
      Ret tt
  end.

(** The goroutine [runJob] starts first: it waits for the daemon to close or
    for the job's context to end, then cleans up the work directory. *)
Definition cleanup (ctx : nat) : Go unit :=
  await (fun p => closed p || contextDone p ctx);;
  err ← call (RemoveAll (WorkDirectory opts));
  match err with
  | Some err =>
      cancelActiveJob ("remove all from " ++ Quote (WorkDirectory opts)
                       ++ " directory: " ++ Error err)
  | None =>
      Lock_acquiredJobMutex;;
      store (set_acquiredJobRunning false);;
      closeAcquiredJobDone;;
      Unlock_acquiredJobMutex
  end.

(** [func (p *provisionerDaemon) runJob(ctx context.Context)]. *)
Definition runJob (ctx : nat) : Go unit :=
  go (Task_cleanup ctx);;
  job ← getAcquiredJob;
  match Provisioners opts !! Provisioner job with
  | None =>
      cancelActiveJob ("provisioner " ++ Quote (Provisioner job)
                       ++ " not registered")
  | Some provisioner =>
      err ← call (MkdirAll (WorkDirectory opts) 384 (* 0600 *));
      match err with
      | Some err =>
          cancelActiveJob ("create work directory " ++ Quote (WorkDirectory opts)
                           ++ ": " ++ Error err)
      | None =>
          job ← getAcquiredJob;
          r ← unpack (Entries (ProjectSourceArchive job))
                     (NextErr (ProjectSourceArchive job));
          match r with
          | Some msg => cancelActiveJob msg
          | None =>
              job ← getAcquiredJob;
              match Type_ job with
              | AcquiredJob_ProjectImport_ _ =>
                  runProjectImport ctx provisioner;;
                  callAcquiredJobCancel
              | AcquiredJob_WorkspaceProvision_ _ values state =>
                  runWorkspaceProvision ctx provisioner values state;;
                  callAcquiredJobCancel
              | AcquiredJob_other typeName =>
                  cancelActiveJob
                    ("unknown job type " ++ Quote typeName
                     ++ "; ensure your provisioner daemon is up-to-date")
              | AcquiredJob_nil =>
                  Panic "invalid memory address or nil pointer dereference"
              end
          end
      end
  end.

(** [func (p *provisionerDaemon) closeWithError(err error) error]. *)
Definition closeWithError (err : option error) : Go (option error) :=
  Lock_closeMutex;;
  closed ← isClosed;
  if closed : bool then
    closeError ← load closeError;
    Unlock_closeMutex;;
    Ret closeError
  else
    running ← isRunningJob;
    (if running : bool then
       let errMsg := match err with
                     | Some err => Error err
                     | None => "provisioner daemon was shutdown gracefully"
                     end in
       cancelled ← load acquiredJobCancelled;
       (if cancelled : bool then Ret tt else cancelActiveJob errMsg);;
       recvAcquiredJobDone
     else Ret tt);;
    store (set_closeError err);;
    store (set_closed true);;
    store (set_closeCancelled true);;
    hasStream ← load updateStream;
    (if hasStream : bool then
       _ ← call ConnClose;
       _ ← call UpdateStreamClose;
       Ret tt
     else Ret tt);;
    Unlock_closeMutex;;
    Ret err.

(** [func (p *provisionerDaemon) Close() error]. *)
Definition Close : Go (option error) := closeWithError None.

(** The code a [go] statement starts. *)
Definition goroutine (t : Task) : Go unit :=
  match t with
  | Task_runJob ctx => runJob ctx
  | Task_cleanup ctx => cleanup ctx
  end.

End Methods.

(* ===================================================================== *)
(** * Running daemon code                                                 *)
(* ===================================================================== *)

(** A call that left the daemon, with what it returned. *)
Inductive Event : Type :=
| Called {R : Type} (c : ExtCall R) (r : R).

(** The daemon together with the record of a run: the fields, the number of
    calls made so far, the calls in the order they were made, and the
    goroutines started and not yet run. *)
Record World : Type := mkWorld {
  daemon : provisionerDaemon;
  clock : nat;
  trace : list Event;
  spawned : list Task;
}.

(** The world outside the daemon: what the [n]-th call returns. *)
Definition Env := nat -> forall R : Type, ExtCall R -> R.

Inductive Outcome (A : Type) : Type :=
| Done (a : A) (w : World)
| Blocked (rest : Go A) (w : World)
| Panicked (msg : string) (w : World).

Arguments Done {A} a w.
Arguments Blocked {A} rest w.
Arguments Panicked {A} msg w.

(** [exec env m w] runs [m] from [w] without interruption by another
    goroutine, until it returns, blocks or panics. *)
Fixpoint exec {A : Type} (env : Env) (m : Go A) (w : World) : Outcome A :=
  match m with
  | Ret a => Done a w
  | Panic msg => Panicked msg w
  | Step f k =>
      match f (daemon w) with
      | Some (r, p) =>
          exec env (k r)
            {| daemon := p; clock := clock w; trace := trace w;
               spawned := spawned w |}
      | None => Blocked m w
      end
  | Call c k =>
      let r := env (clock w) _ c in
      exec env (k r)
        {| daemon := daemon w; clock := S (clock w);
           trace := trace w ++ [Called c r]; spawned := spawned w |}
  | Spawn t k =>
      exec env k
        {| daemon := daemon w; clock := clock w; trace := trace w;
           spawned := spawned w ++ [t] |}
  end.

(** The goroutines started so far run one after the other, oldest first, each
    to its end and followed by those it started; [None] when one of them
    blocks or panics, or when [fuel] goroutines did not suffice. *)
Fixpoint drain (Quote : string -> string) (opts : Options) (fuel : nat)
  (env : Env) (w : World) : option World :=
  match spawned w with
  | [] => Some w
  | t :: ts =>
      match fuel with
      | O => None
      | S fuel =>
          match exec env (goroutine Quote opts t)
                  {| daemon := daemon w; clock := clock w; trace := trace w;
                     spawned := ts |} with
          | Done _ w' => drain Quote opts fuel env w'
          | _ => None
          end
      end
  end.

(** One job from acquire to cleanup, with no other goroutine of the daemon in
    between: [acquireJob], then the runner and the cleanup goroutine it
    starts. *)
Definition serve (Quote : string -> string) (opts : Options) (env : Env)
  (w : World) : option World :=
  match exec env acquireJob w with
  | Done _ w' => drain Quote opts 2 env w'
  | _ => None
  end.

(** ** What a trace says about the end of jobs *)

(** The terminal calls: [CompleteJob] with whether it succeeded, and
    [CancelJob], each for the job named in its message. *)
Inductive Terminal : Type :=
| T_Complete (jobId : string) (ok : bool)
| T_Cancel (jobId : string) (message : string).

Definition isNil {E : Type} (err : option E) : bool :=
  match err with None => true | Some _ => false end.

Definition terminal (ev : Event) : option Terminal :=
  match ev with
  | Called c r =>
      match c in ExtCall R return R -> option Terminal with
      | CompleteJob _ job => fun r => Some (T_Complete (completed_JobId job) (isNil r))
      | CancelJob _ job =>
          fun _ => Some (T_Cancel (cancelled_JobId job) (cancelled_Error job))
      | _ => fun _ => None
      end r
  end.

Definition terminals (tr : list Event) : list Terminal := omap terminal tr.

(** What a call creates in the file system: the path and the mode passed. *)
Definition createdWith (ev : Event) : option (string * FileMode) :=
  match ev with
  | Called c _ =>
      match c with
      | MkdirAll path perm => Some (path, perm)
      | OpenFile path _ perm => Some (path, perm)
      | _ => None
      end
  end.

(** The paths at which a trace creates a file or a directory. *)
Definition createdPaths (tr : list Event) : list string :=
  map fst (omap createdWith tr).

(** The number of bytes a call asks the file system to write. *)
Definition bytesWritten (ev : Event) : option Z :=
  match ev with
  | Called c _ =>
      match c with
      | FileWrite _ n => Some n
      | _ => None
      end
  end.

(** The calls by which the rest of the program enters the daemon: the ticker
    of [connect] calls [acquireJob], the owner of the daemon calls [Close]. *)
Inductive EntryPoint : Type :=
| Tick
| Closing.

Definition enter (c : EntryPoint) : Go unit :=
  match c with
  | Tick => acquireJob
  | Closing => _ ← Close; Ret tt
  end.

(** The calls run one after the other, each to its end. *)
Fixpoint execAll (env : Env) (calls : list EntryPoint) (w : World)
  : option World :=
  match calls with
  | [] => Some w
  | c :: rest =>
      match exec env (enter c) w with
      | Done _ w' => execAll env rest w'
      | _ => None
      end
  end.


(** Whether a call is [AcquireJob]. *)
Definition isAcquireJob (ev : Event) : bool :=
  match ev with
  | Called c _ => match c with AcquireJob _ => true | _ => false end
  end.

(** Whether a run stopped at a blocking operation. *)
Definition isBlocked {A : Type} (o : Outcome A) : bool :=
  match o with Blocked _ _ => true | _ => false end.

(** The world in which a run stopped. *)
Definition worldOf {A : Type} (o : Outcome A) : World :=
  match o with
  | Done _ w => w
  | Blocked _ w => w
  | Panicked _ w => w
  end.

(** Whether a [CancelJob] is among the terminal calls. *)
Definition cancelSent (T : list Terminal) : bool :=
  existsb (fun t => match t with T_Cancel _ _ => true | _ => false end) T.

(** ** Goroutines side by side *)

(** One operation of [m]: what remains of [m] and the world after the
    operation; [None] when [m] has ended or cannot move. *)
Definition step1 {A : Type} (env : Env) (m : Go A) (w : World)
  : option (Go A * World) :=
  match m with
  | Ret _ => None
  | Panic _ => None
  | Step f k =>
      match f (daemon w) with
      | Some (r, p) => Some (k r, mkWorld p (clock w) (trace w) (spawned w))
      | None => None
      end
  | Call c k =>
      let r := env (clock w) _ c in
      Some (k r, mkWorld (daemon w) (S (clock w)) (trace w ++ [Called c r])
                   (spawned w))
  | Spawn t k =>
      Some (k, mkWorld (daemon w) (clock w) (trace w) (spawned w ++ [t]))
  end.

(** [Keeps I m]: every access of [m] to the fields of the daemon, whenever it
    is made, takes fields [p] to fields [p'] with [I p p']. *)
Inductive Keeps (I : provisionerDaemon -> provisionerDaemon -> Prop)
  {A : Type} : Go A -> Prop :=
| Keeps_Ret (a : A) : Keeps I (Ret a)
| Keeps_Panic (msg : string) : Keeps I (Panic msg)
| Keeps_Step (R : Type) (f : provisionerDaemon -> option (R * provisionerDaemon))
    (k : R -> Go A) :
    (forall p r p', f p = Some (r, p') -> I p p') ->
    (forall r, Keeps I (k r)) ->
    Keeps I (Step f k)
| Keeps_Call (R : Type) (c : ExtCall R) (k : R -> Go A) :
    (forall r, Keeps I (k r)) ->
    Keeps I (Call c k)
| Keeps_Spawn (t : Task) (k : Go A) :
    Keeps I k ->
    Keeps I (Spawn t k).

(** The fields of [Close]: whether the daemon is closed, the recorded error
    and the mutex of [Close]. *)
Definition sameClosing (p p' : provisionerDaemon) : Prop :=
  closed p' = closed p /\ closeError p' = closeError p /\
  closeMutex p' = closeMutex p.

(** A closed daemon stays closed. *)
Definition staysClosed (p p' : provisionerDaemon) : Prop :=
  closed p = true -> closed p' = true.

(** ** States of the job slot *)

(** The daemon is idle: no job is running, nobody holds the job mutex and
    [Close] has not been called. *)
Record Idle (p : provisionerDaemon) : Prop := {
  idle_running : acquiredJobRunning p = false;
  idle_mutex : acquiredJobMutex p = false;
  idle_closed : closed p = false;
}.

(** The state in which [acquireJob] leaves the daemon for the runner of [job]:
    the job is in the slot and marked running, not cancelled; [ctx] is its
    context and its done channel is open. *)
Record Running (p : provisionerDaemon) (ctx : nat) (job : AcquiredJob)
  : Prop := {
  running_job : acquiredJob p = Some job;
  running_flag : acquiredJobRunning p = true;
  running_cancelled : acquiredJobCancelled p = false;
  running_cancel : acquiredJobCancel p = Some ctx;
  running_mutex : acquiredJobMutex p = false;
  running_done :
    exists ch, acquiredJobDone p = Some ch /\ channelClosed p ch = false /\
               (ch < length (channels p))%nat;
  running_ctx : (ctx < length (contexts p))%nat;
}.

(** The fields the runner of [job] leaves to its cleanup goroutine, compared
    with the fields [p] it started from: the job is still marked running, its
    context has ended, and [acquiredJobCancelled] tells whether [CancelJob]
    was sent. *)
Record Ended (p : provisionerDaemon) (ctx : nat) (job : AcquiredJob)
  (cancelled : bool) (p' : provisionerDaemon) : Prop := {
  ended_job : acquiredJob p' = Some job;
  ended_running : acquiredJobRunning p' = true;
  ended_cancelled : acquiredJobCancelled p' = cancelled;
  ended_cancel : acquiredJobCancel p' = Some ctx;
  ended_mutex : acquiredJobMutex p' = false;
  ended_done : acquiredJobDone p' = acquiredJobDone p;
  ended_channels : channels p' = channels p;
  ended_closed : closed p' = closed p;
  ended_context : contextDone p' ctx = true;
}.

(** How the runner of job [jobId] with context [ctx] can end, from the fields
    [p]: the terminal calls it made and the fields after the last of them. *)
Inductive JobEnd (jobId : string) (ctx : nat) (p : provisionerDaemon)
  : list Terminal -> provisionerDaemon -> Prop :=
| End_cancelled (msg : string) :
    JobEnd jobId ctx p [T_Cancel jobId ("provisioner daemon: " ++ msg)]
      (cancelContext ctx (set_acquiredJobCancelled true p))
| End_completed :
    JobEnd jobId ctx p [T_Complete jobId true] p
| End_complete_failed (err : error) :
    JobEnd jobId ctx p
      [T_Complete jobId false;
       T_Cancel jobId ("provisioner daemon: complete job: " ++ Error err)]
      (cancelContext ctx (set_acquiredJobCancelled true p)).

Section Observations.

Variable Quote : string -> string.
Variable opts : Options.

(** The path at which [unpack] creates entry [e], the mode it passes, and
    the check of [runJob] on the path. *)
Definition entryPath (e : Entry) : string :=
  Join (WorkDirectory opts) (Name (Hdr e)).

Definition entryMode (e : Entry) : FileMode :=
  if Z.eqb (FileInfoMode (Hdr e)) 0 then 384 else FileInfoMode (Hdr e).

Definition inWorkDirectory (e : Entry) : bool :=
  HasPrefix (entryPath e) (Clean (WorkDirectory opts)).

(** The calls [unpack] makes for entry [e]. *)
Inductive unpackEvent (e : Entry) : Event -> Prop :=
| unpack_mkdir (r : option error) :
    Typeflag (Hdr e) = TypeDir ->
    unpackEvent e (Called (MkdirAll (entryPath e) (entryMode e)) r)
| unpack_open (r : option error) :
    Typeflag (Hdr e) = TypeReg ->
    unpackEvent e
      (Called (OpenFile (entryPath e) (Z.lor O_CREATE O_RDWR) (entryMode e)) r)
| unpack_write (r : option (Z * error)) :
    Typeflag (Hdr e) = TypeReg ->
    0 < offered e maxFileSize ->
    unpackEvent e (Called (FileWrite (entryPath e) (offered e maxFileSize)) r)
| unpack_close (r : option error) :
    Typeflag (Hdr e) = TypeReg ->
    unpackEvent e (Called (FileClose (entryPath e)) r).

(** The calls [unpack] makes for the entries of an archive: each belongs to
    an entry that passed the check of its path. *)
Definition unpackEvents (entries : list Entry) (evs : list Event) : Prop :=
  Forall (fun ev => exists e, In e entries /\ inWorkDirectory e = true /\
                              unpackEvent e ev) evs.

(** The message with which the cleanup goroutine cancels the job when the
    work directory cannot be removed. *)
Definition removeFailed (err : error) : string :=
  "remove all from " ++ Quote (WorkDirectory opts) ++ " directory: "
  ++ Error err.


(** The terminal calls of one job, from acquire to cleanup. *)
Inductive JobOutcome (jobId : string) : list Terminal -> Prop :=
| Outcome_cancelled (msg : string) :
    JobOutcome jobId [T_Cancel jobId msg]
| Outcome_completed :
    JobOutcome jobId [T_Complete jobId true]
| Outcome_complete_failed (err : error) :
    JobOutcome jobId
      [T_Complete jobId false;
       T_Cancel jobId ("provisioner daemon: complete job: " ++ Error err)]
| Outcome_remove_failed (err : error) :
    JobOutcome jobId
      [T_Complete jobId true;
       T_Cancel jobId ("provisioner daemon: " ++ removeFailed err)].

End Observations.

(** ** Lying under a directory *)

(** [dropPrefix l1 l2] is what remains of [l2] after [l1], when [l2] starts
    with [l1]. *)
Fixpoint dropPrefix (l1 l2 : list string) : option (list string) :=
  match l1, l2 with
  | [], _ => Some l2
  | x :: l1', y :: l2' => if String.eqb x y then dropPrefix l1' l2' else None
  | _ :: _, [] => None
  end.

(** The specification's "lies under the work directory": the cleaned [path]
    names [root] or a file or directory below it; element by element it starts
    with the elements of [root] and goes on without [".."]. *)
Definition liesUnder (root path : string) : bool :=
  Bool.eqb (IsAbs root) (IsAbs path) &&
  match dropPrefix (elements root) (elements path) with
  | Some rest => negb (existsb (String.eqb "..") rest)
  | None => false
  end.

(* ===================================================================== *)
(** * More to observe                                                     *)
(* ===================================================================== *)

(** ** Acquiring and closing *)


(** The job for which [acquireJob] starts a runner, given the fields before
    the call and what [AcquireJob] returned. *)
Definition started (p : provisionerDaemon) (r : AcquiredJob + error)
  : option AcquiredJob :=
  match r with
  | inl job =>
      if closed p || String.eqb (JobId job) EmptyString then None else Some job
  | inr _ => None
  end.


(** ** The streams of a provisioner *)

(** The update a call sends on the update stream, and the completion a call
    reports. *)
Definition updateSent (ev : Event) : option JobUpdate :=
  match ev with
  | Called c _ =>
      match c with
      | UpdateJob_Send update => Some update
      | _ => None
      end
  end.

Definition completedWith (ev : Event) : option CompletedJob :=
  match ev with
  | Called c _ =>
      match c with
      | CompleteJob _ job => Some job
      | _ => None
      end
  end.

(** An update that forwards the one log line [log] of job [jobId]: as a log
    of a project import, or of a workspace provision. *)
Definition importLogOf (jobId : string) (log : sdkLog) (update : JobUpdate) : Prop :=
  update_JobId update = jobId /\
  WorkspaceProvisionLogs update = [] /\
  exists now, ProjectImportLogs update
              = [{| Level := sdkLevel log; CreatedAt := now;
                    Output := sdkOutput log |}].

Definition provisionLogOf (jobId : string) (log : sdkLog) (update : JobUpdate)
  : Prop :=
  update_JobId update = jobId /\
  ProjectImportLogs update = [] /\
  exists now, WorkspaceProvisionLogs update
              = [{| Level := sdkLevel log; CreatedAt := now;
                    Output := sdkOutput log |}].

(** Whether the oneof of a message is set. *)
Definition parseTyped (msg : Parse_Response) : bool :=
  match msg with Parse_Response_nil => false | _ => true end.

Definition provisionTyped (msg : Provision_Response) : bool :=
  match msg with Provision_Response_nil => false | _ => true end.

Definition jobTyped (job : AcquiredJob) : bool :=
  match Type_ job with AcquiredJob_nil => false | _ => true end.

(** Surroundings in which every message of a provisioner has its oneof set. *)
Definition typedStreams (env : Env) : Prop :=
  (forall n client ctx dir stream,
      env n _ (Parse client ctx dir) = inl stream ->
      forallb parseTyped (Msgs stream) = true) /\
  (forall n client ctx dir values state stream,
      env n _ (Provision client ctx dir values state) = inl stream ->
      forallb provisionTyped (Msgs stream) = true).

(** [k] jobs served one after the other. *)
Fixpoint serveAll (Quote : string -> string) (opts : Options) (k : nat)
  (env : Env) (w : World) : option World :=
  match k with
  | O => Some w
  | S k =>
      match serve Quote opts env w with
      | Some w' => serveAll Quote opts k env w'
      | None => None
      end
  end.

(** A terminal call for job [jobId]; a [CancelJob] among them carries a
    message of the daemon. *)
Definition namesJob (jobId : string) (t : Terminal) : bool :=
  match t with
  | T_Complete id _ => String.eqb id jobId
  | T_Cancel id message =>
      String.eqb id jobId && HasPrefix message "provisioner daemon: "
  end.

(** ** The file system *)

(** The path a call to the file system works on. *)
Definition fsPath (ev : Event) : option string :=
  match ev with
  | Called c _ =>
      match c with
      | RemoveAll path => Some path
      | MkdirAll path _ => Some path
      | OpenFile path _ _ => Some path
      | FileWrite path _ => Some path
      | FileClose path => Some path
      | _ => None
      end
  end.

(** A file system on which every call of [unpack] succeeds. *)
Definition fsWorks (env : Env) : Prop :=
  forall n : nat,
    (forall path perm, env n _ (MkdirAll path perm) = None) /\
    (forall path flag perm, env n _ (OpenFile path flag perm) = None) /\
    (forall path k, env n _ (FileWrite path k) = None) /\
    (forall path, env n _ (FileClose path) = None).

(** The entries for which [unpack] creates something: directories and
    regular files. *)
Definition isCreated (e : Entry) : bool :=
  Z.eqb (Typeflag (Hdr e)) TypeDir || Z.eqb (Typeflag (Hdr e)) TypeReg.

(** ** Names of entries *)

(** An entry name none of whose elements is [".."]. *)
Definition noDotDot (name : string) : bool :=
  forallb (fun e => negb (String.eqb e "..")) (Split name).

(** The elements of a path that [Clean] keeps when no [".."] is among them. *)
Definition kept (e : string) : bool :=
  negb (String.eqb e EmptyString || String.eqb e ".").

(** The elements [Clean] leaves in a rooted path: none is empty, ["."] or
    [".."]. *)
Definition plain (e : string) : bool :=
  kept e && negb (String.eqb e "..").

(** ** Interleavings *)

(** Goroutines side by side: the pool holds what remains of each.  In one
    step of the pool goroutine [i] makes one operation, and the goroutines
    started so far join the pool; [None] when goroutine [i] has ended or
    cannot move. *)
Definition poolStep (Quote : string -> string) (opts : Options) (env : Env)
  (i : nat) (pool : list (Go unit)) (w : World)
  : option (list (Go unit) * World) :=
  match pool !! i with
  | Some m =>
      match step1 env m w with
      | Some (m', w') =>
          Some ((<[i := m']> pool ++ map (goroutine Quote opts) (spawned w'))%list,
                mkWorld (daemon w') (clock w') (trace w') [])
      | None => None
      end
  | None => None
  end.

(** The pool under a schedule: the goroutines to move, in order. *)
Fixpoint poolRun (Quote : string -> string) (opts : Options) (env : Env)
  (schedule : list nat) (pool : list (Go unit)) (w : World)
  : option (list (Go unit) * World) :=
  match schedule with
  | [] => Some (pool, w)
  | i :: schedule =>
      match poolStep Quote opts env i pool w with
      | Some (pool', w') => poolRun Quote opts env schedule pool' w'
      | None => None
      end
  end.

(** The code that runs in the daemon: a tick of the poller, a call of
    [Close], or one of the goroutines of a job. *)
Definition daemonCode (Quote : string -> string) (opts : Options) (m : Go unit)
  : Prop :=
  (exists c, m = enter c) \/ (exists t, m = goroutine Quote opts t).

(** The same without [Close]. *)
Definition jobCode (Quote : string -> string) (opts : Options) (m : Go unit)
  : Prop :=
  m = enter Tick \/ (exists t, m = goroutine Quote opts t).

(* ===================================================================== *)
(** * A daemon and its surroundings, for running the code                  *)
(* ===================================================================== *)

Module Scenario.

(** [strconv.Quote] on printable ASCII without quotes and backslashes. *)
Definition goQuote (s : string) : string :=
  String "034" (s ++ String "034" EmptyString).

(** A daemon with one provisioner, as in the tests of the package. *)
Definition optsAt (dir : string) : Options :=
  {| Provisioners := {[ "someprovisioner" := 0%nat ]}; WorkDirectory := dir |}.

Definition opts : Options := optsAt "/tmp/work".

(** Entries as [createTar] of the tests writes them (mode 0), and a
    directory. *)
Definition file (name : string) (size : Z) : Entry :=
  {| Hdr := {| Name := name; Mode := 0; Typeflag := TypeReg; Size := size |};
     DataErr := EOF |}.

Definition dir (name : string) (mode : Z) : Entry :=
  {| Hdr := {| Name := name; Mode := mode; Typeflag := TypeDir; Size := 0 |};
     DataErr := EOF |}.

(** A project import job. *)
Definition importJob (entries : list Entry) : AcquiredJob :=
  {| JobId := "test"; Provisioner := "someprovisioner";
     ProjectSourceArchive := {| Entries := entries; NextErr := EOF |};
     Type_ := AcquiredJob_ProjectImport_ EmptyString |}.

(** The provisioner of the test [ProjectImport]: one log line, then the
    completion. *)
Definition parseStream : Stream Parse_Response :=
  {| Msgs := [Parse_Response_Log {| sdkLevel := 2; sdkOutput := "hello" |};
              Parse_Response_Complete []];
     RecvErr := EOF |}.

(** Surroundings that hand out [job] at every acquire and let every call
    succeed, except that [CompleteJob] returns [complete] and [os.RemoveAll]
    returns [remove]. *)
Definition scripted (job : AcquiredJob) (complete remove : option error) : Env :=
  fun _ R c =>
    match c in ExtCall R return R with
    | AcquireJob _ => inl job
    | UpdateJob_Send _ => None
    | CancelJob _ _ => None
    | CompleteJob _ _ => complete
    | Parse _ _ _ => inl parseStream
    | Provision _ _ _ _ _ => inl {| Msgs := []; RecvErr := EOF |}
    | StreamClose => None
    | UnixMilli => 0
    | RemoveAll _ => remove
    | MkdirAll _ _ => None
    | OpenFile _ _ _ => None
    | FileWrite _ _ => None
    | FileClose _ => None
    | ConnClose => None
    | UpdateStreamClose => None
    end.

Definition calm (job : AcquiredJob) : Env := scripted job None None.

(** The daemon right after [New] and [connect]. *)
Definition fresh : World :=
  {| daemon := New true; clock := 0; trace := []; spawned := [] |}.

(** The world after serving one job, or the world as it was when the job
    could not be served to its end. *)
Definition served (opts : Options) (env : Env) (w : World) : World :=
  default w (serve goQuote opts env w).

(** The world in which the runner of [job] starts. *)
Definition acquiredBy (env : Env) : World :=
  match exec env acquireJob fresh with
  | Done _ w => w
  | _ => fresh
  end.

(** The world in which the entries [pre] have been unpacked. *)
Definition unpackedIn (env : Env) (pre : list Entry) (w : World) : World :=
  match exec env (unpack goQuote opts pre EOF) w with
  | Done _ w' => w'
  | _ => w
  end.

(** The daemon after [Close]. *)
Definition closedWorld : World :=
  match exec (calm emptyJob) Close fresh with
  | Done _ w => w
  | _ => fresh
  end.

End Scenario.

(** More jobs and surroundings. *)

Module Cases.

Import Scenario.

(** A workspace provision job. *)
Definition provisionJob (entries : list Entry) : AcquiredJob :=
  {| JobId := "test"; Provisioner := "someprovisioner";
     ProjectSourceArchive := {| Entries := entries; NextErr := EOF |};
     Type_ := AcquiredJob_WorkspaceProvision_ EmptyString ["region=eu"] [] |}.

(** A job whose [Type] is not set. *)
Definition untypedJob (entries : list Entry) : AcquiredJob :=
  {| JobId := "test"; Provisioner := "someprovisioner";
     ProjectSourceArchive := {| Entries := entries; NextErr := EOF |};
     Type_ := AcquiredJob_nil |}.

(** The provisioner of the test [WorkspaceProvision]: one log line, then the
    completion. *)
Definition provisionStream : Stream Provision_Response :=
  {| Msgs := [Provision_Response_Log {| sdkLevel := 1; sdkOutput := "wow" |};
              Provision_Response_Complete [] ["instance"]];
     RecvErr := EOF |}.

(** Surroundings that hand out [job] at every acquire, answer [os.MkdirAll]
    with [mkdir], [Parse] with [parse] and [Provision] with [provision], and
    let every other call succeed. *)
Definition answering (job : AcquiredJob) (mkdir : option error)
  (parse : Stream Parse_Response + error)
  (provision : Stream Provision_Response + error) : Env :=
  fun _ R c =>
    match c in ExtCall R return R with
    | AcquireJob _ => inl job
    | UpdateJob_Send _ => None
    | CancelJob _ _ => None
    | CompleteJob _ _ => None
    | Parse _ _ _ => parse
    | Provision _ _ _ _ _ => provision
    | StreamClose => None
    | UnixMilli => 1650000000000
    | RemoveAll _ => None
    | MkdirAll _ _ => mkdir
    | OpenFile _ _ _ => None
    | FileWrite _ _ => None
    | FileClose _ => None
    | ConnClose => None
    | UpdateStreamClose => None
    end.

(** An archive with a directory, two files and a symbolic link. *)
Definition sources : list Entry :=
  [dir "modules" 493; file "modules/main.tf" 120; file "/variables.tf" 40;
   {| Hdr := {| Name := "latest"; Mode := 511; Typeflag := TypeSymlink; Size := 0 |};
      DataErr := EOF |}].

(** The poller and a caller of [Close], side by side. *)
Definition pollerAndClose : list (Go unit) := [enter Tick; enter Closing].

End Cases.

(** Whether a goroutine has returned. *)
Definition returned (m : Go unit) : bool :=
  match m with Ret _ => true | _ => false end.

(** Jobs and surroundings for goroutines that run side by side. *)

Module Interleaved.

Import Scenario Cases.

(** Job [first] is handed out at the first call of the control plane, job
    [next] at every later acquire; every other call succeeds, and the
    provisioner answers [Parse] with [parse]. *)
Definition handing (first next : AcquiredJob)
  (parse : Stream Parse_Response + error) : Env :=
  fun n R c =>
    match c in ExtCall R return R with
    | AcquireJob _ => inl (if Nat.eqb n 0 then first else next)
    | UpdateJob_Send _ => None
    | CancelJob _ _ => None
    | CompleteJob _ _ => None
    | Parse _ _ _ => parse
    | Provision _ _ _ _ _ => inl provisionStream
    | StreamClose => None
    | UnixMilli => 1650000000000
    | RemoveAll _ => None
    | MkdirAll _ _ => None
    | OpenFile _ _ _ => None
    | FileWrite _ _ => None
    | FileClose _ => None
    | ConnClose => None
    | UpdateStreamClose => None
    end.

(** A project import job with the id [id] for the provisioner [kind]. *)
Definition job (id kind : string) (entries : list Entry) : AcquiredJob :=
  {| JobId := id; Provisioner := kind;
     ProjectSourceArchive := {| Entries := entries; NextErr := EOF |};
     Type_ := AcquiredJob_ProjectImport_ EmptyString |}.

(** Job "first" with an archive whose second entry leaves the work
    directory. *)
Definition escaping : AcquiredJob :=
  job "first" "someprovisioner"
    [file "a.txt" 3; file "../../../etc/passwd" 7; file "b.txt" 5].

(** Job "first" for a provisioner that is not registered. *)
Definition unregistered : AcquiredJob := job "first" "terraform" [].

(** Job "first" with nothing wrong. *)
Definition completing : AcquiredJob :=
  job "first" "someprovisioner" [file "test.txt" 7].

(** Job "second", with nothing wrong. *)
Definition second : AcquiredJob :=
  job "second" "someprovisioner" [file "test.txt" 7].

(** Two polls side by side; two polls and a caller of [Close]. *)
Definition twoPolls : list (Go unit) := [enter Tick; enter Tick].

Definition twoPollsAndClose : list (Go unit) :=
  [enter Tick; enter Tick; enter Closing].

End Interleaved.

(* ===================================================================== *)
(** * Properties                                                          *)
(* ===================================================================== *)

Local Open Scope list_scope.
Unset Implicit Arguments.

(** ** [Clean] and [Join] on the paths of the tests *)

Example Clean_dotdot : Clean "/tmp/work/../work-evil/x" = "/tmp/work-evil/x".
Proof. reflexivity. Qed.

Example Clean_empty : Clean "" = ".".
Proof. reflexivity. Qed.

Example Clean_rooted_dotdot : Clean "/../a//b/./c/.." = "/a/b".
Proof. reflexivity. Qed.

Example Clean_relative_dotdot : Clean "a/../../b/" = "../b".
Proof. reflexivity. Qed.

Example Join_passwd : Join "/tmp/work" "../../../etc/passwd" = "/etc/passwd".
Proof. reflexivity. Qed.

Example Join_sibling : Join "/tmp/work" "../work-evil" = "/tmp/work-evil".
Proof. reflexivity. Qed.

Example Join_empty_name : Join "/tmp/work" "" = "/tmp/work".
Proof. reflexivity. Qed.

(** [Clean] on the cases of the standard library's own test table. *)
Example Clean_table :
  forallb (fun io => String.eqb (Clean (fst io)) (snd io))
    [("abc", "abc"); ("abc/def", "abc/def"); ("a/b/c", "a/b/c"); (".", ".");
     ("..", ".."); ("../..", "../.."); ("../../abc", "../../abc");
     ("/abc", "/abc"); ("/", "/"); ("", "."); ("abc/", "abc");
     ("abc/def/", "abc/def"); ("a/b/c/", "a/b/c"); ("./", "."); ("../", "..");
     ("../../", "../.."); ("/abc/", "/abc"); ("abc//def//ghi", "abc/def/ghi");
     ("//abc", "/abc"); ("///abc", "/abc"); ("//abc//", "/abc");
     ("abc//", "abc"); ("abc/./def", "abc/def"); ("/./abc/def", "/abc/def");
     ("abc/.", "abc"); ("abc/def/ghi/../jkl", "abc/def/jkl");
     ("abc/def/../ghi/../jkl", "abc/jkl"); ("abc/def/..", "abc");
     ("abc/def/../..", "."); ("/abc/def/../..", "/");
     ("abc/def/../../..", ".."); ("/abc/def/../../..", "/");
     ("abc/def/../../../ghi/jkl/../../../mno", "../../mno");
     ("/../abc", "/abc"); ("abc/./../def", "def"); ("abc//./../def", "def");
     ("abc/../../././../def", "../../def")]
  = true.
Proof. vm_compute. reflexivity. Qed.

(** [FileInfoMode] on a file with mode 0644, on the entries [createTar] of the
    tests writes, and on directories. *)
Example FileInfoMode_file_0644 :
  FileInfoMode (mkHeader "main.tf" 420 TypeReg 12) = 420.
Proof. reflexivity. Qed.

Example FileInfoMode_file_zero :
  FileInfoMode (mkHeader "test.txt" 0 TypeReg 7) = 0.
Proof. reflexivity. Qed.

Example FileInfoMode_dir_0755 :
  FileInfoMode (mkHeader "modules/" 493 TypeDir 0) = Z.lor ModeDir 493.
Proof. reflexivity. Qed.

Example FileInfoMode_dir_zero :
  FileInfoMode (mkHeader "modules/" 0 TypeDir 0) = ModeDir.
Proof. reflexivity. Qed.

(* ===================================================================== *)
(** * Laws of [exec]                                                      *)
(* ===================================================================== *)

Lemma exec_bind {A B : Type} (env : Env) (m : Go A) (f : A -> Go B) (w : World) :
  exec env (bind m f) w =
  match exec env m w with
  | Done a w' => exec env (f a) w'
  | Blocked rest w' => Blocked (bind rest f) w'
  | Panicked msg w' => Panicked msg w'
  end.
Proof.
  revert w.
  induction m as [a | msg | R g k IH | R c k IH | t k IH]; intros w; cbn.
  - reflexivity.
  - reflexivity.
  - destruct (g (daemon w)) as [[r p] | ]; [apply IH | reflexivity].
  - apply IH.
  - apply IH.
Qed.

Lemma exec_mbind {A B : Type} (env : Env) (m : Go A) (f : A -> Go B) (w : World) :
  exec env (m ≫= f) w =
  match exec env m w with
  | Done a w' => exec env (f a) w'
  | Blocked rest w' => Blocked (rest ≫= f) w'
  | Panicked msg w' => Panicked msg w'
  end.
Proof. apply exec_bind. Qed.

Lemma lookup_snoc_length {A : Type} (l : list A) (x : A) :
  (l ++ [x]) !! length l = Some x.
Proof. rewrite lookup_app_r by lia. rewrite Nat.sub_diag. reflexivity. Qed.

Lemma exec_acquireJob_job (env : Env) (w : World) (job : AcquiredJob) :
  Idle (daemon w) ->
  env (clock w) _ (AcquireJob closeContext) = inl job ->
  JobId job <> EmptyString ->
  exists w1 ctx,
    exec env acquireJob w = Done tt w1 /\
    Running (daemon w1) ctx job /\
    closed (daemon w1) = false /\
    clock w1 = S (clock w) /\
    trace w1 = trace w ++ [Called (AcquireJob closeContext) (inl job)] /\
    spawned w1 = spawned w ++ [Task_runJob ctx].
Proof.
  intros [Hrun Hmu Hcl] Henv Hid.
  destruct w as [p n tr sp]; simpl in *.
  unfold acquireJob. cbn. rewrite Hmu. cbn. rewrite Hrun. cbn.
  rewrite Henv. cbn. rewrite Hcl. cbn.
  destruct (String.eqb_spec (JobId job) EmptyString) as [E | _]; [contradiction | ].
  cbn. eexists _, _. split; [reflexivity | ]. cbn.
  repeat split; try reflexivity.
  - exists (length (channels p)). cbn. split; [reflexivity | ].
    unfold channelClosed. cbn. rewrite lookup_snoc_length.
    split; [reflexivity | ]. rewrite length_app. cbn. lia.
  - cbn. rewrite length_app. cbn. lia.
  - exact Hcl.
Qed.

(** The methods stay folded under [cbn]; each is unfolded where its code is
    followed. *)
Arguments cancelActiveJob : simpl never.
Arguments callAcquiredJobCancel : simpl never.
Arguments acquireJob : simpl never.
Arguments copyFile : simpl never.
Arguments runProjectImport : simpl never.
Arguments runWorkspaceProvision : simpl never.
Arguments cleanup : simpl never.
Arguments runJob : simpl never.
Arguments closeWithError : simpl never.
Arguments CopyN_result : simpl never.
Arguments offered : simpl never.
Arguments Join : simpl never.
Arguments Clean : simpl never.
Arguments HasPrefix : simpl never.
Arguments FileInfoMode : simpl never.

Section Properties.

Variable Quote : string -> string.
Variable opts : Options.

Local Abbreviation entryPath := (entryPath opts).
Local Abbreviation inWorkDirectory := (inWorkDirectory opts).
Local Abbreviation unpackEvent := (unpackEvent opts).
Local Abbreviation unpackEvents := (unpackEvents opts).
Local Abbreviation removeFailed := (removeFailed Quote opts).
Local Abbreviation JobOutcome := (JobOutcome Quote opts).


Lemma exec_cancelActiveJob_running (env : Env) (msg : string) (p : provisionerDaemon)
  (n : nat) (tr : list Event) (sp : list Task) (ctx : nat) (job : AcquiredJob) :
  acquiredJobRunning p = true ->
  acquiredJobCancelled p = false ->
  acquiredJobCancel p = Some ctx ->
  acquiredJob p = Some job ->
  exec env (cancelActiveJob msg) (mkWorld p n tr sp) =
  Done tt
    (mkWorld (cancelContext ctx (set_acquiredJobCancelled true p)) (S n)
       (tr ++ [Called (CancelJob closeContext
                         (mkCancelledJob (JobId job) ("provisioner daemon: " +:+ msg)))
                 (env n _ (CancelJob closeContext
                         (mkCancelledJob (JobId job) ("provisioner daemon: " +:+ msg))))])
       sp).
Proof.
  intros Hr Hc Hk Hj. unfold cancelActiveJob, callAcquiredJobCancel. cbn.
  rewrite Hr. cbn. rewrite Hc. cbn. rewrite Hk. cbn. rewrite Hj. reflexivity.
Qed.

Lemma exec_cancelActiveJob_skip (env : Env) (msg : string) (w : World) :
  acquiredJobRunning (daemon w) = false \/ acquiredJobCancelled (daemon w) = true ->
  exec env (cancelActiveJob msg) w = Done tt w.
Proof.
  intros H. destruct w as [p n tr sp]; simpl in *. unfold cancelActiveJob. cbn.
  destruct (acquiredJobRunning p) eqn:Hr; cbn; [ | reflexivity].
  destruct H as [H | H]; [discriminate | ]. rewrite H. reflexivity.
Qed.

Lemma terminals_app (l1 l2 : list Event) :
  terminals (l1 ++ l2) = terminals l1 ++ terminals l2.
Proof. apply omap_app. Qed.

Lemma cancel_ends (env : Env) (msg : string) (p : provisionerDaemon) (n : nat)
  (tr : list Event) (sp : list Task) (ctx : nat) (job : AcquiredJob)
  (pre : list Event) (w' : World) :
  Running p ctx job ->
  terminals pre = [] ->
  exec env (cancelActiveJob msg) (mkWorld p n (tr ++ pre) sp) = Done tt w' ->
  exists evs T,
    trace w' = tr ++ evs /\ spawned w' = sp /\ terminals evs = T /\
    JobEnd (JobId job) ctx p T (daemon w') /\ cancelSent T = true.
Proof.
  intros R Hpre H.
  rewrite (exec_cancelActiveJob_running env msg p n (tr ++ pre) sp ctx job
             (running_flag R) (running_cancelled R) (running_cancel R)
             (running_job R)) in H.
  injection H as <-. cbn. eexists _, _.
  split; [rewrite <- app_assoc; reflexivity | ].
  split; [reflexivity | ]. split; [reflexivity | ].
  rewrite terminals_app, Hpre. cbn. split; [constructor | reflexivity].
Qed.

(** A branch that ends in [cancelActiveJob]: [H] is the run of the call from a
    trace [tr ++ x] in which [x] has no terminal call yet. *)
Ltac cancel_branch H R Hpre :=
  rewrite <- ?app_assoc in H;
  lazymatch type of H with
  | exec ?env _ (mkWorld ?p _ (?tr ++ ?x) ?sp) = Done _ ?w' =>
      let Hp := fresh "Hp" in
      assert (Hp : terminals x = [])
        by (rewrite ?terminals_app, ?Hpre; reflexivity);
      destruct (cancel_ends env _ p _ tr sp _ _ x w' R Hp H)
        as (?evs & ?T & ? & ? & ? & ? & ?)
  end.

Lemma parseLoop_ends (env : Env) (ctx : nat) (job : AcquiredJob)
  (msgs : list Parse_Response) (recvErr : error) (p : provisionerDaemon) :
  Running p ctx job ->
  forall (n : nat) (tr pre : list Event) (sp : list Task) (w' : World),
    terminals pre = [] ->
    exec env (parseLoop Quote ctx msgs recvErr) (mkWorld p n (tr ++ pre) sp) = Done tt w' ->
    exists evs T,
      trace w' = tr ++ evs /\ spawned w' = sp /\ terminals evs = T /\
      JobEnd (JobId job) ctx p T (daemon w').
Proof.
  intros R. induction msgs as [ | msg rest IH]; intros n tr pre sp w' Hpre H.
  - cbn in H. cancel_branch H R Hpre. eauto 6.
  - destruct msg as [log | schemas | typeName | ]; cbn in H.
    + rewrite (running_job R) in H. cbn in H.
      match type of H with context [env ?a ?b (UpdateJob_Send ?u)] =>
        destruct (env a b (UpdateJob_Send u)) as [err | ] eqn:Es end.
      * cancel_branch H R Hpre. eauto 6.
      * rewrite <- !app_assoc in H. refine (IH _ tr _ sp w' _ H).
        rewrite !terminals_app, Hpre. reflexivity.
    + rewrite (running_job R) in H. cbn in H.
      match type of H with context [env ?a ?b (CompleteJob ?c ?j)] =>
        destruct (env a b (CompleteJob c j)) as [err | ] eqn:Es end.
      * rewrite (exec_cancelActiveJob_running env _ p _ _ sp ctx job
             (running_flag R) (running_cancelled R) (running_cancel R)
             (running_job R)) in H.
        injection H as <-. cbn. eexists _, _.
        split; [rewrite <- !app_assoc; reflexivity | ].
        split; [reflexivity | ]. split; [reflexivity | ].
        rewrite !terminals_app, Hpre. cbn. constructor.
      * injection H as <-. cbn. eexists _, _.
        split; [rewrite <- !app_assoc; reflexivity | ].
        split; [reflexivity | ]. split; [reflexivity | ].
        rewrite !terminals_app, Hpre. cbn. constructor.
    + cancel_branch H R Hpre. eauto 6.
    + discriminate.
Qed.

Lemma provisionLoop_ends (env : Env) (ctx : nat) (job : AcquiredJob)
  (msgs : list Provision_Response) (recvErr : error) (p : provisionerDaemon) :
  Running p ctx job ->
  forall (n : nat) (tr pre : list Event) (sp : list Task) (w' : World),
    terminals pre = [] ->
    exec env (provisionLoop Quote ctx msgs recvErr) (mkWorld p n (tr ++ pre) sp)
    = Done tt w' ->
    exists evs T,
      trace w' = tr ++ evs /\ spawned w' = sp /\ terminals evs = T /\
      JobEnd (JobId job) ctx p T (daemon w').
Proof.
  intros R. induction msgs as [ | msg rest IH]; intros n tr pre sp w' Hpre H.
  - cbn in H. cancel_branch H R Hpre. eauto 6.
  - destruct msg as [log | state resources | typeName | ]; cbn in H.
    + rewrite (running_job R) in H. cbn in H.
      match type of H with context [env ?a ?b (UpdateJob_Send ?u)] =>
        destruct (env a b (UpdateJob_Send u)) as [err | ] eqn:Es end.
      * cancel_branch H R Hpre. eauto 6.
      * rewrite <- !app_assoc in H. refine (IH _ tr _ sp w' _ H).
        rewrite !terminals_app, Hpre. reflexivity.
    + rewrite (running_job R) in H. cbn in H.
      match type of H with context [env ?a ?b (CompleteJob ?c ?j)] =>
        destruct (env a b (CompleteJob c j)) as [err | ] eqn:Es end.
      * rewrite (exec_cancelActiveJob_running env _ p _ _ sp ctx job
             (running_flag R) (running_cancelled R)
             (running_cancel R) (running_job R)) in H.
        injection H as <-. cbn. eexists _, _.
        split; [rewrite <- !app_assoc; reflexivity | ].
        split; [reflexivity | ]. split; [reflexivity | ].
        rewrite !terminals_app, Hpre. cbn. constructor.
      * injection H as <-. cbn. eexists _, _.
        split; [rewrite <- !app_assoc; reflexivity | ].
        split; [reflexivity | ]. split; [reflexivity | ].
        rewrite !terminals_app, Hpre. cbn. constructor.
    + cancel_branch H R Hpre. eauto 6.
    + discriminate.
Qed.

Lemma exec_callAcquiredJobCancel (env : Env) (p : provisionerDaemon) (n : nat)
  (tr : list Event) (sp : list Task) (ctx : nat) :
  acquiredJobCancel p = Some ctx ->
  exec env callAcquiredJobCancel (mkWorld p n tr sp)
  = Done tt (mkWorld (cancelContext ctx p) n tr sp).
Proof. intros H. unfold callAcquiredJobCancel. cbn. rewrite H. reflexivity. Qed.

Lemma JobEnd_cancel (jobId : string) (ctx ctx' : nat) (p p' : provisionerDaemon)
  (T : list Terminal) :
  JobEnd jobId ctx p T p' -> acquiredJobCancel p = Some ctx' ->
  acquiredJobCancel p' = Some ctx'.
Proof. intros [msg | | err] H; destruct p; exact H. Qed.

Lemma runProjectImport_ends (env : Env) (ctx : nat) (job : AcquiredJob)
  (provisioner : ProvisionerClient) (p : provisionerDaemon) :
  Running p ctx job ->
  forall (n : nat) (tr pre : list Event) (sp : list Task) (w' : World),
    terminals pre = [] ->
    exec env (runProjectImport Quote opts ctx provisioner)
      (mkWorld p n (tr ++ pre) sp) = Done tt w' ->
    exists evs T,
      trace w' = tr ++ evs /\ spawned w' = sp /\ terminals evs = T /\
      JobEnd (JobId job) ctx p T (daemon w').
Proof.
  intros R n tr pre sp w' Hpre H. unfold runProjectImport in H. cbn in H.
  match type of H with context [env ?a ?b (Parse ?c ?d ?e)] =>
    destruct (env a b (Parse c d e)) as [stream | err] eqn:Es end.
  - rewrite exec_mbind in H.
    destruct (exec env (parseLoop Quote ctx (Msgs stream) (RecvErr stream)) _)
      as [[] w1 | | ] eqn:E1; try discriminate.
    rewrite <- app_assoc in E1.
    match type of E1 with context [tr ++ ?x] =>
      assert (Hpre' : terminals x = [])
        by (rewrite terminals_app, Hpre; reflexivity) end.
    destruct (parseLoop_ends env ctx job _ _ p R _ tr _ sp w1 Hpre' E1)
      as (evs & T & Htr & Hsp & HT & HE).
    destruct w1 as [p1 n1 tr1 sp1]; cbn in *. injection H as <-. cbn.
    subst tr1 sp1. exists (evs ++ [Called StreamClose (env n1 _ StreamClose)]), T.
    split; [rewrite app_assoc; reflexivity | ]. split; [reflexivity | ].
    split; [ | exact HE]. rewrite terminals_app, HT. cbn. apply app_nil_r.
  - cancel_branch H R Hpre. eauto 6.
Qed.

Lemma runWorkspaceProvision_ends (env : Env) (ctx : nat) (job : AcquiredJob)
  (provisioner : ProvisionerClient) (values : list ParameterValue)
  (state : bytes) (p : provisionerDaemon) :
  Running p ctx job ->
  forall (n : nat) (tr pre : list Event) (sp : list Task) (w' : World),
    terminals pre = [] ->
    exec env (runWorkspaceProvision Quote opts ctx provisioner values state)
      (mkWorld p n (tr ++ pre) sp) = Done tt w' ->
    exists evs T,
      trace w' = tr ++ evs /\ spawned w' = sp /\ terminals evs = T /\
      JobEnd (JobId job) ctx p T (daemon w').
Proof.
  intros R n tr pre sp w' Hpre H. unfold runWorkspaceProvision in H. cbn in H.
  match type of H with context [env ?a ?b (Provision ?c ?d ?e ?f ?g)] =>
    destruct (env a b (Provision c d e f g)) as [stream | err] eqn:Es end.
  - rewrite exec_mbind in H.
    destruct (exec env (provisionLoop Quote ctx (Msgs stream) (RecvErr stream)) _)
      as [[] w1 | | ] eqn:E1; try discriminate.
    rewrite <- app_assoc in E1.
    match type of E1 with context [tr ++ ?x] =>
      assert (Hpre' : terminals x = [])
        by (rewrite terminals_app, Hpre; reflexivity) end.
    destruct (provisionLoop_ends env ctx job _ _ p R _ tr _ sp w1 Hpre' E1)
      as (evs & T & Htr & Hsp & HT & HE).
    destruct w1 as [p1 n1 tr1 sp1]; cbn in *. injection H as <-. cbn.
    subst tr1 sp1. exists (evs ++ [Called StreamClose (env n1 _ StreamClose)]), T.
    split; [rewrite app_assoc; reflexivity | ]. split; [reflexivity | ].
    split; [ | exact HE]. rewrite terminals_app, HT. cbn. apply app_nil_r.
  - cancel_branch H R Hpre. eauto 6.
Qed.

(** ** Unpacking *)

(** [copyFile] returns, and calls only [FileWrite] and [FileClose]. *)
Lemma copyFile_runs (env : Env) (e : Entry) (p : provisionerDaemon) (n : nat)
  (tr : list Event) (sp : list Task) :
  Typeflag (Hdr e) = TypeReg ->
  exists r evs,
    exec env (copyFile Quote (entryPath e) e) (mkWorld p n tr sp)
    = Done r (mkWorld p (length evs + n) (tr ++ evs) sp) /\
    Forall (unpackEvent e) evs.
Proof.
  intros Hreg. unfold copyFile. fold maxFileSize.
  destruct (Z.leb (offered e maxFileSize) 0) eqn:Hoff; cbn.
  - destruct (CopyN_result e maxFileSize None) as [size [err | ]]; cbn;
      [destruct (isEOF err); cbn | ].
    + destruct (env n _ (FileClose (entryPath e)));
        eexists _, [_]; (split; [reflexivity | repeat constructor; assumption]).
    + eexists _, []. rewrite app_nil_r. split; [reflexivity | constructor].
    + destruct (env n _ (FileClose (entryPath e)));
        eexists _, [_]; (split; [reflexivity | repeat constructor; assumption]).
  - apply Z.leb_gt in Hoff.
    destruct (CopyN_result e maxFileSize _) as [size [err | ]]; cbn;
      [destruct (isEOF err); cbn | ].
    + destruct (env (S n) _ (FileClose (entryPath e)));
        eexists _, [_; _]; rewrite <- app_assoc;
        (split; [reflexivity | repeat constructor; assumption]).
    + eexists _, [_]. split; [reflexivity | repeat constructor; assumption].
    + destruct (env (S n) _ (FileClose (entryPath e)));
        eexists _, [_; _]; rewrite <- app_assoc;
        (split; [reflexivity | repeat constructor; assumption]).
Qed.

(** The loop of [unpack], one entry at a time. *)
Lemma unpack_cons (e : Entry) (rest : list Entry) (nextErr : error) :
  unpack Quote opts (e :: rest) nextErr =
  if negb (inWorkDirectory e) then
    Ret (Some "tar attempts to target relative upper directory")
  else if Z.eqb (Typeflag (Hdr e)) TypeDir then
    Call (MkdirAll (entryPath e) (entryMode e)) (fun err =>
      match err with
      | Some err =>
          Ret (Some ("mkdir " +:+ Quote (entryPath e) +:+ ": " +:+ Error err))
      | None => unpack Quote opts rest nextErr
      end)
  else if Z.eqb (Typeflag (Hdr e)) TypeReg then
    Call (OpenFile (entryPath e) (Z.lor O_CREATE O_RDWR) (entryMode e)) (fun err =>
      match err with
      | Some err =>
          Ret (Some ("create file " +:+ Quote (entryPath e) +:+ ": " +:+ Error err))
      | None =>
          bind (copyFile Quote (entryPath e) e) (fun r =>
            match r with
            | Some msg => Ret (Some msg)
            | None => unpack Quote opts rest nextErr
            end)
      end)
  else unpack Quote opts rest nextErr.
Proof. reflexivity. Qed.

Lemma unpackEvents_cons (e : Entry) (entries : list Entry) (evs : list Event) :
  unpackEvents entries evs -> unpackEvents (e :: entries) evs.
Proof.
  apply List.Forall_impl. intros ev (e' & Hin & Hok & Hev).
  exists e'. split; [right; exact Hin | split; assumption].
Qed.

Lemma unpackEvents_here (e : Entry) (entries : list Entry) (evs : list Event) :
  inWorkDirectory e = true -> Forall (unpackEvent e) evs ->
  unpackEvents (e :: entries) evs.
Proof.
  intros Hok. apply List.Forall_impl. intros ev Hev.
  exists e. split; [left; reflexivity | split; assumption].
Qed.

(** [unpack] returns; it leaves the fields of the daemon alone and starts no
    goroutine. *)
Lemma unpack_runs (env : Env) (entries : list Entry) (nextErr : error)
  (p : provisionerDaemon) (sp : list Task) :
  forall (n : nat) (tr : list Event),
  exists r evs,
    exec env (unpack Quote opts entries nextErr) (mkWorld p n tr sp)
    = Done r (mkWorld p (length evs + n) (tr ++ evs) sp) /\
    unpackEvents entries evs.
Proof.
  induction entries as [ | e rest IH]; intros n tr.
  - cbn. destruct (isEOF nextErr); eexists _, []; rewrite app_nil_r;
      (split; [reflexivity | constructor]).
  - rewrite unpack_cons.
    destruct (inWorkDirectory e) eqn:Hok; cbn.
    2:{ eexists _, []. rewrite app_nil_r. split; [reflexivity | constructor]. }
    destruct (Z.eqb_spec (Typeflag (Hdr e)) TypeDir) as [Hdir | _];
      [ | destruct (Z.eqb_spec (Typeflag (Hdr e)) TypeReg) as [Hreg | _]].
    + cbn. destruct (env n _ (MkdirAll (entryPath e) (entryMode e))) as [err | ] eqn:Em.
      * eexists _, [_]. split; [reflexivity | ].
        apply unpackEvents_here; [exact Hok | ]. repeat constructor. exact Hdir.
      * destruct (IH (S n) (tr ++ [Called (MkdirAll (entryPath e) (entryMode e)) None]))
          as (r & evs & Hex & Hevs).
        exists r, (Called (MkdirAll (entryPath e) (entryMode e)) None :: evs).
        rewrite Hex. cbn. rewrite <- app_assoc, Nat.add_succ_r.
        split; [reflexivity | ]. constructor.
        -- exists e. split; [left; reflexivity | ]. split; [exact Hok | ].
           constructor. exact Hdir.
        -- apply unpackEvents_cons. exact Hevs.
    + cbn.
      destruct (env n _ (OpenFile (entryPath e) (Z.lor O_CREATE O_RDWR) (entryMode e)))
        as [err | ] eqn:Eo.
      * eexists _, [_]. split; [reflexivity | ].
        apply unpackEvents_here; [exact Hok | ]. repeat constructor. exact Hreg.
      * rewrite exec_bind.
        destruct (copyFile_runs env e p (S n)
                    (tr ++ [Called (OpenFile (entryPath e) (Z.lor O_CREATE O_RDWR)
                                      (entryMode e)) None]) sp Hreg)
          as (r1 & evs1 & Hex1 & Hevs1).
        rewrite Hex1. destruct r1 as [msg | ].
        -- exists (Some msg), (Called (OpenFile (entryPath e) (Z.lor O_CREATE O_RDWR)
                                         (entryMode e)) None :: evs1).
           cbn. rewrite <- app_assoc, Nat.add_succ_r.
           split; [reflexivity | ].
           apply unpackEvents_here; [exact Hok | ]. constructor; [ | exact Hevs1].
           constructor. exact Hreg.
        -- destruct (IH (length evs1 + S n)%nat
                       ((tr ++ [Called (OpenFile (entryPath e) (Z.lor O_CREATE O_RDWR)
                                          (entryMode e)) None]) ++ evs1))
             as (r & evs & Hex & Hevs).
           exists r, (Called (OpenFile (entryPath e) (Z.lor O_CREATE O_RDWR)
                                (entryMode e)) None :: evs1 ++ evs).
           rewrite Hex. cbn. rewrite <- !app_assoc. cbn.
           rewrite length_app.
           replace (length evs + (length evs1 + S n))%nat
             with (S (length evs1 + length evs + n)) by lia.
           split; [reflexivity | ]. constructor.
           ++ exists e. split; [left; reflexivity | ]. split; [exact Hok | ].
              constructor. exact Hreg.
           ++ apply Forall_app. split.
              ** apply unpackEvents_here; assumption.
              ** apply unpackEvents_cons. exact Hevs.
    + destruct (IH n tr) as (r & evs & Hex & Hevs).
      exists r, evs. split; [exact Hex | ]. apply unpackEvents_cons. exact Hevs.
Qed.

Lemma unpackEvent_terminal (e : Entry) (ev : Event) :
  unpackEvent e ev -> terminal ev = None.
Proof. intros []; reflexivity. Qed.

Lemma unpackEvents_terminals (entries : list Entry) (evs : list Event) :
  unpackEvents entries evs -> terminals evs = [].
Proof.
  induction 1 as [ | ev evs (e & _ & _ & Hev) _ IH]; [reflexivity | ].
  unfold terminals in *. cbn. rewrite (unpackEvent_terminal e ev Hev). exact IH.
Qed.

(** The runner of a job: when it returns it has ended the job in one of the
    three ways of [JobEnd], and its cleanup goroutine is pending. *)

Lemma runJob_ends (env : Env) (ctx : nat) (job : AcquiredJob)
  (p : provisionerDaemon) (n : nat) (tr : list Event) (sp : list Task)
  (w' : World) :
  Running p ctx job ->
  exec env (runJob Quote opts ctx) (mkWorld p n tr sp) = Done tt w' ->
  exists evs T d,
    trace w' = tr ++ evs /\ spawned w' = sp ++ [Task_cleanup ctx] /\
    terminals evs = T /\ JobEnd (JobId job) ctx p T d /\
    (daemon w' = cancelContext ctx d \/ daemon w' = d /\ cancelSent T = true).
Proof.
  intros R H. unfold runJob in H. cbn in H.
  rewrite (running_job R) in H. cbn in H.
  assert (Hnil : forall l : list Event, l = l ++ []) by (intros; symmetry; apply app_nil_r).
  destruct (Provisioners opts !! Provisioner job) as [provisioner | ].
  - cbn in H.
    destruct (env n _ (MkdirAll (WorkDirectory opts) 384)) as [err | ] eqn:Em.
    + destruct (cancel_ends env _ p _ tr _ ctx job
                  [Called (MkdirAll (WorkDirectory opts) 384) (Some err)] w' R
                  eq_refl H) as (evs & T & ? & ? & ? & ? & ?).
      exists evs, T, (daemon w'). repeat split; try assumption. right; split; [reflexivity | assumption].
    + cbn in H. rewrite (running_job R) in H. cbn in H. rewrite exec_mbind in H.
      destruct (unpack_runs env (Entries (ProjectSourceArchive job))
                  (NextErr (ProjectSourceArchive job)) p (sp ++ [Task_cleanup ctx])
                  (S n) (tr ++ [Called (MkdirAll (WorkDirectory opts) 384) None]))
        as (r & evs0 & Hex & Hevs).
      rewrite Hex in H. clear Hex.
      apply unpackEvents_terminals in Hevs.
      rewrite <- app_assoc in H.
      assert (Hpre : terminals ([Called (MkdirAll (WorkDirectory opts) 384) None]
                                ++ evs0) = []).
      { rewrite terminals_app, Hevs. reflexivity. }
      destruct r as [msg | ].
      * destruct (cancel_ends env _ p _ tr _ ctx job _ w' R Hpre H)
          as (evs & T & ? & ? & ? & ? & ?).
        exists evs, T, (daemon w'). repeat split; try assumption. right; split; [reflexivity | assumption].
      * cbn in H. rewrite (running_job R) in H. cbn in H.
        destruct (Type_ job) as [hid | hid values state | typeName | ].
        -- rewrite exec_mbind in H.
           destruct (exec env (runProjectImport Quote opts ctx provisioner) _)
             as [[] w1 | | ] eqn:E1; try discriminate.
           destruct (runProjectImport_ends env ctx job provisioner p R _ tr _ _ w1
                       Hpre E1) as (evs & T & Htr & Hsp & HT & HE).
           destruct w1 as [p1 n1 tr1 sp1]; cbn in *.
           rewrite (exec_callAcquiredJobCancel env p1 n1 tr1 sp1 ctx) in H
             by (eapply JobEnd_cancel; [exact HE | exact (running_cancel R)]).
           injection H as <-. cbn. exists evs, T, p1.
           repeat split; try assumption. left; reflexivity.
        -- rewrite exec_mbind in H.
           destruct (exec env (runWorkspaceProvision Quote opts ctx provisioner _ _) _)
             as [[] w1 | | ] eqn:E1; try discriminate.
           destruct (runWorkspaceProvision_ends env ctx job provisioner _ _ p R
                       _ tr _ _ w1 Hpre E1) as (evs & T & Htr & Hsp & HT & HE).
           destruct w1 as [p1 n1 tr1 sp1]; cbn in *.
           rewrite (exec_callAcquiredJobCancel env p1 n1 tr1 sp1 ctx) in H
             by (eapply JobEnd_cancel; [exact HE | exact (running_cancel R)]).
           injection H as <-. cbn. exists evs, T, p1.
           repeat split; try assumption. left; reflexivity.
        -- destruct (cancel_ends env _ p _ tr _ ctx job _ w' R Hpre H)
             as (evs & T & ? & ? & ? & ? & ?).
           exists evs, T, (daemon w'). repeat split; try assumption. right; split; [reflexivity | assumption].
        -- discriminate.
  - rewrite (Hnil tr) in H.
    destruct (cancel_ends env _ p _ tr _ ctx job [] w' R eq_refl H)
      as (evs & T & ? & ? & ? & ? & ?).
    exists evs, T, (daemon w'). repeat split; try assumption. right; split; [reflexivity | assumption].
Qed.

(** ** After the runner *)

Lemma contextDone_cancelContext (ctx : nat) (p : provisionerDaemon) :
  (ctx < length (contexts p))%nat -> contextDone (cancelContext ctx p) ctx = true.
Proof.
  intros H. unfold contextDone, cancelContext. destruct p; cbn in *.
  rewrite list_lookup_insert_eq by exact H.
  rewrite bool_decide_eq_true_2 by reflexivity. apply orb_true_r.
Qed.

Lemma Ended_cancelled (p : provisionerDaemon) (ctx : nat) (job : AcquiredJob) :
  Running p ctx job ->
  Ended p ctx job true (cancelContext ctx (set_acquiredJobCancelled true p)).
Proof.
  intros R. pose proof (running_ctx R) as Hctx.
  split; try (destruct R, p; cbn in *; assumption || reflexivity).
  apply contextDone_cancelContext. destruct p; exact Hctx.
Qed.

Lemma Ended_again (p : provisionerDaemon) (ctx : nat) (job : AcquiredJob)
  (cancelled : bool) (p' : provisionerDaemon) :
  Ended p ctx job cancelled p' ->
  Ended p ctx job cancelled (cancelContext ctx p').
Proof.
  intros E. split; try (destruct E, p'; cbn in *; assumption).
  destruct E as [_ _ _ _ _ _ _ _ Hc]. unfold contextDone in *. destruct p'; cbn in *.
  apply orb_true_iff in Hc as [Hc | Hc]; [rewrite Hc; reflexivity | ].
  apply bool_decide_eq_true_1 in Hc.
  rewrite list_lookup_insert_eq by (eapply lookup_lt_Some; exact Hc).
  rewrite bool_decide_eq_true_2 by reflexivity. apply orb_true_r.
Qed.

Lemma Ended_completed (p : provisionerDaemon) (ctx : nat) (job : AcquiredJob) :
  Running p ctx job -> Ended p ctx job false (cancelContext ctx p).
Proof.
  intros R. pose proof (running_ctx R) as Hctx.
  split; try (destruct R, p; cbn in *; assumption || reflexivity).
  apply contextDone_cancelContext. exact Hctx.
Qed.

(** From [JobEnd] to the fields: a runner that ended the job by cancelling
    leaves them [Ended] whether or not it went on to cancel the context
    again; a runner that completed the job has cancelled the context. *)
Lemma JobEnd_Ended (p : provisionerDaemon) (ctx : nat) (job : AcquiredJob)
  (T : list Terminal) (d d' : provisionerDaemon) :
  Running p ctx job ->
  JobEnd (JobId job) ctx p T d ->
  d' = cancelContext ctx d \/ (d' = d /\ cancelSent T = true) ->
  Ended p ctx job (cancelSent T) d'.
Proof.
  intros R [msg | | err] [-> | [-> Hc]]; cbn in *; try discriminate;
    first [ apply Ended_cancelled; exact R
          | apply Ended_again, Ended_cancelled; exact R
          | apply Ended_completed; exact R ].
Qed.

(** The runner, summed up for its cleanup goroutine. *)
Lemma runJob_Ended (env : Env) (ctx : nat) (job : AcquiredJob)
  (p : provisionerDaemon) (n : nat) (tr : list Event) (sp : list Task)
  (w' : World) :
  Running p ctx job ->
  exec env (runJob Quote opts ctx) (mkWorld p n tr sp) = Done tt w' ->
  exists evs T d,
    trace w' = tr ++ evs /\ spawned w' = sp ++ [Task_cleanup ctx] /\
    terminals evs = T /\ JobEnd (JobId job) ctx p T d /\
    Ended p ctx job (cancelSent T) (daemon w').
Proof.
  intros R H.
  destruct (runJob_ends env ctx job p n tr sp w' R H)
    as (evs & T & d & Htr & Hsp & HT & HE & Hd).
  exists evs, T, d. repeat split; try assumption.
  - eapply ended_job, JobEnd_Ended; eassumption.
  - eapply ended_running, JobEnd_Ended; eassumption.
  - eapply ended_cancelled, JobEnd_Ended; eassumption.
  - eapply ended_cancel, JobEnd_Ended; eassumption.
  - eapply ended_mutex, JobEnd_Ended; eassumption.
  - eapply ended_done, JobEnd_Ended; eassumption.
  - eapply ended_channels, JobEnd_Ended; eassumption.
  - eapply ended_closed, JobEnd_Ended; eassumption.
  - eapply ended_context, JobEnd_Ended; eassumption.
Qed.

(** The cleanup goroutine after the runner: it removes the work directory and
    then either clears the running flag and closes the done channel, or, when
    the removal failed, cancels the job unless it is cancelled already. *)
Lemma cleanup_ends (env : Env) (ctx : nat) (job : AcquiredJob)
  (p p' : provisionerDaemon) (cancelled : bool) (n : nat) (tr : list Event)
  (sp : list Task) :
  Running p ctx job ->
  Ended p ctx job cancelled p' ->
  exists w' r resp,
    exec env (cleanup Quote opts ctx) (mkWorld p' n tr sp) = Done tt w' /\
    trace w' = tr ++ Called (RemoveAll (WorkDirectory opts)) r
                       :: match r with
                          | Some err =>
                              if cancelled then []
                              else [Called (CancelJob closeContext
                                      (mkCancelledJob (JobId job)
                                         ("provisioner daemon: " +:+ removeFailed err)))
                                      resp]
                          | None => []
                          end /\
    spawned w' = sp /\
    acquiredJobRunning (daemon w') = negb (isNil r).
Proof.
  intros R E. unfold cleanup. cbn.
  rewrite (ended_context E), orb_true_r. cbn.
  destruct (env n _ (RemoveAll (WorkDirectory opts))) as [err | ] eqn:Er.
  - destruct cancelled.
    + rewrite exec_cancelActiveJob_skip
        by (right; exact (ended_cancelled E)).
      eexists _, (Some err), None. cbn. repeat split.
      exact (ended_running E).
    + fold (removeFailed err).
      rewrite (exec_cancelActiveJob_running env _ p' _ _ sp ctx job
                 (ended_running E) (ended_cancelled E)
                 (ended_cancel E) (ended_job E)).
      eexists _, (Some err), _. cbn. rewrite <- app_assoc. repeat split.
      destruct E, p'; cbn in *; assumption.
  - cbn. rewrite (ended_mutex E). cbn.
    destruct (running_done R) as (ch & Hch & Hopen & Hlt).
    rewrite <- (ended_done E) in Hch.
    unfold channelClosed in *. rewrite <- (ended_channels E) in Hopen.
    destruct p'; cbn in *. rewrite Hch. cbn. unfold channelClosed. cbn.
    rewrite Hopen. cbn.
    eexists _, None, None. cbn. repeat split.
Qed.

(** When the work directory is removed, the cleanup goroutine takes the job
    mutex, clears the running flag, closes the done channel of the job, which
    was open, and releases the mutex: these four accesses, in this order, and
    no call but [os.RemoveAll]. *)
Lemma cleanup_releases_slot (env : Env) (ctx : nat) (job : AcquiredJob)
  (p p' : provisionerDaemon) (cancelled : bool) (n : nat) (tr : list Event)
  (sp : list Task) :
  Running p ctx job ->
  Ended p ctx job cancelled p' ->
  env n _ (RemoveAll (WorkDirectory opts)) = None ->
  exists ch,
    acquiredJobDone p' = Some ch /\ channelClosed p' ch = false /\
    exec env (cleanup Quote opts ctx) (mkWorld p' n tr sp) =
    Done tt
      (mkWorld
         (set_acquiredJobMutex false
            (closeChan ch
               (set_acquiredJobRunning false (set_acquiredJobMutex true p'))))
         (S n) (tr ++ [Called (RemoveAll (WorkDirectory opts)) None]) sp).
Proof.
  intros R E Hrm. destruct (running_done R) as (ch & Hch & Hopen & Hlt).
  rewrite <- (ended_done E) in Hch.
  unfold channelClosed in Hopen. rewrite <- (ended_channels E) in Hopen.
  exists ch. split; [exact Hch | ]. split; [exact Hopen | ].
  unfold cleanup. cbn. rewrite (ended_context E), orb_true_r. cbn.
  rewrite Hrm. cbn. rewrite (ended_mutex E). cbn.
  destruct p'; cbn in *. rewrite Hch. cbn. unfold channelClosed. cbn.
  rewrite Hopen. reflexivity.
Qed.

(** X20.  A job served in turn ([serve]: [acquireJob] on an idle daemon,
    then the runner, then the cleanup goroutine, each run to its end with no
    other goroutine of the daemon in between).  Its terminal calls are one
    of: [CancelJob] alone; [CompleteJob] alone, which succeeded; a failed
    [CompleteJob] followed by the [CancelJob] that reports the failure; a
    successful [CompleteJob] followed by the [CancelJob] that reports that the
    work directory could not be removed.  So in such a run each of the two is
    sent at most once and at least one of them is sent, with the id of the
    acquired job.  With [Close] in between, this fails
    (module [Races]). *)
Theorem job_terminal_calls (env : Env) (w w' : World) (job : AcquiredJob) :
  Idle (daemon w) ->
  spawned w = [] ->
  env (clock w) _ (AcquireJob closeContext) = inl job ->
  JobId job <> EmptyString ->
  serve Quote opts env w = Some w' ->
  exists evs,
    trace w' = trace w ++ evs /\ JobOutcome (JobId job) (terminals evs).
Proof.
  intros HI Hsp Henv Hid Hserve. unfold serve in Hserve.
  destruct (exec_acquireJob_job env w job HI Henv Hid)
    as (w1 & ctx & Hex & R & Hcl & Hclock & Htr1 & Hsp1).
  rewrite Hex in Hserve. rewrite Hsp in Hsp1. cbn in Hsp1, Hserve.
  rewrite Hsp1 in Hserve. cbn in Hserve.
  destruct w1 as [p1 n1 tr1 sp1]; cbn in *.
  destruct (exec env (runJob Quote opts ctx) _) as [[] w2 | | ] eqn:E2;
    try discriminate.
  destruct (runJob_Ended env ctx job p1 n1 tr1 [] w2 R E2)
    as (evs2 & T & d & Htr2 & Hsp2 & HT & HE & HEnd).
  destruct w2 as [p2 n2 tr2 sp2]; cbn in *. subst sp2. cbn in Hserve.
  destruct (cleanup_ends env ctx job p1 p2 (cancelSent T) n2 tr2 [] R HEnd)
    as (w3 & r & resp & E3 & Htr3 & Hsp3 & _).
  rewrite E3 in Hserve. destruct w3 as [p3 n3 tr3 sp3]; cbn in *. subst sp3.
  injection Hserve as <-. cbn. subst tr3 tr2 tr1.
  eexists. split; [rewrite <- !app_assoc; reflexivity | ].
  rewrite !terminals_app. cbn. rewrite HT.
  destruct HE as [msg | | err]; cbn.
  - destruct r; constructor.
  - destruct r as [err | ]; cbn; constructor.
  - destruct r; constructor.
Qed.

(** ** An entry that leaves the work directory *)


(** When the entries before [e] unpack without failure and the path of [e]
    fails the check, [unpack] stops at [e]: it returns the message of the
    check in the world the entries before [e] left. *)
Lemma unpack_escape (env : Env) (pre : list Entry) (e : Entry)
  (post : list Entry) (nextErr : error) :
  inWorkDirectory e = false ->
  forall w w1 : World,
    exec env (unpack Quote opts pre EOF) w = Done None w1 ->
    exec env (unpack Quote opts (pre ++ e :: post) nextErr) w
    = Done (Some "tar attempts to target relative upper directory") w1.
Proof.
  intros Hout. induction pre as [ | e0 pre IH]; intros w w1 H.
  - cbn in H. injection H as <-. cbn [app]. rewrite unpack_cons, Hout. reflexivity.
  - cbn [app]. rewrite unpack_cons in *.
    destruct (negb (inWorkDirectory e0)); [discriminate | ].
    destruct (Z.eqb (Typeflag (Hdr e0)) TypeDir).
    { cbn in *. destruct (env (clock w) _ (MkdirAll _ _)); [discriminate | ].
      apply IH. exact H. }
    destruct (Z.eqb (Typeflag (Hdr e0)) TypeReg); [ | apply IH; exact H].
    cbn in *. destruct (env (clock w) _ (OpenFile _ _ _)); [discriminate | ].
    rewrite exec_bind in *.
    destruct (exec env (copyFile Quote (entryPath e0) e0) _) as [[msg | ] w2 | | ];
      try discriminate.
    apply IH. exact H.
Qed.

(** X21.  One call of [runJob], run to its end with no other goroutine in
    between ([exec]), for the running job in [p.acquiredJob], whose archive
    holds, after entries that unpack without failure, an entry [e] whose
    path, the join of the work directory and the entry's name, does not have
    the cleaned work directory as a prefix: the runner stops at [e], sets the
    cancelled flag, cancels the context of the job, sends one [CancelJob]
    with the id of that job and the message "tar attempts to target relative
    upper directory", and makes no call for [e] or for an entry after it.
    When a poll runs in between, the [CancelJob] can carry another id
    (module [Races]). *)
Theorem tar_escape_cancels_job (env : Env) (w w1 : World) (ctx : nat)
  (job : AcquiredJob) (provisioner : ProvisionerClient)
  (pre post : list Entry) (e : Entry) :
  Running (daemon w) ctx job ->
  Provisioners opts !! Provisioner job = Some provisioner ->
  Entries (ProjectSourceArchive job) = pre ++ e :: post ->
  HasPrefix (Join (WorkDirectory opts) (Name (Hdr e)))
    (Clean (WorkDirectory opts)) = false ->
  env (clock w) _ (MkdirAll (WorkDirectory opts) 384) = None ->
  exec env (unpack Quote opts pre EOF)
    (mkWorld (daemon w) (S (clock w))
       (trace w ++ [Called (MkdirAll (WorkDirectory opts) 384) None])
       (spawned w ++ [Task_cleanup ctx])) = Done None w1 ->
  exists r,
    exec env (runJob Quote opts ctx) w =
    Done tt
      (mkWorld (cancelContext ctx (set_acquiredJobCancelled true (daemon w)))
         (S (clock w1))
         (trace w1 ++
          [Called (CancelJob closeContext
                     (mkCancelledJob (JobId job)
                        "provisioner daemon: tar attempts to target relative upper directory"))
             r])
         (spawned w ++ [Task_cleanup ctx])).
Proof.
  intros R Hprov Hentries Hout Hmk Hpre.
  destruct w as [p n tr sp]; cbn in *.
  pose proof (unpack_escape env pre e post (NextErr (ProjectSourceArchive job))
                Hout _ _ Hpre) as Hex.
  destruct (unpack_runs env pre EOF p (sp ++ [Task_cleanup ctx]) (S n)
              (tr ++ [Called (MkdirAll (WorkDirectory opts) 384) None]))
    as (r0 & evs & Hruns & _).
  rewrite Hruns in Hpre. injection Hpre as _ <-.
  eexists. unfold runJob. cbn. rewrite (running_job R). cbn. rewrite Hprov. cbn.
  rewrite Hmk. cbn. rewrite (running_job R). cbn. rewrite exec_mbind.
  rewrite Hentries, Hex.
  rewrite (exec_cancelActiveJob_running env _ p _ _ _ ctx job
             (running_flag R) (running_cancelled R) (running_cancel R)
             (running_job R)).
  reflexivity.
Qed.

(** ** A provisioner that is not registered *)

(** X22.  A job whose provisioner kind is not in the registry, served in
    turn ([serve]: [acquireJob] on an idle daemon, the runner, the cleanup
    goroutine, with no other goroutine of the daemon in between): from
    acquire to cleanup the daemon calls [AcquireJob], [CancelJob] with the id
    of the job and the message "provisioner %q not registered", and
    [os.RemoveAll] on the work directory, and nothing else: no provisioner
    stream is opened and [CompleteJob] is not sent.  When a poll runs in
    between, the [CancelJob] can carry another id
    (module [Races]). *)
Theorem unregistered_provisioner_cancels_job (env : Env) (w : World)
  (job : AcquiredJob) :
  Idle (daemon w) ->
  spawned w = [] ->
  env (clock w) _ (AcquireJob closeContext) = inl job ->
  JobId job <> EmptyString ->
  Provisioners opts !! Provisioner job = None ->
  exists w' r r',
    serve Quote opts env w = Some w' /\
    trace w' =
      trace w ++
      [Called (AcquireJob closeContext) (inl job);
       Called (CancelJob closeContext
                 (mkCancelledJob (JobId job)
                    ("provisioner daemon: "
                     +:+ ("provisioner " +:+ Quote (Provisioner job)
                          +:+ " not registered"))))
         r;
       Called (RemoveAll (WorkDirectory opts)) r'].
Proof.
  intros HI Hsp Henv Hid Hprov.
  destruct (exec_acquireJob_job env w job HI Henv Hid)
    as (w1 & ctx & Hex & R & Hcl & Hclock & Htr1 & Hsp1).
  rewrite Hsp in Hsp1. cbn in Hsp1.
  destruct w1 as [p1 n1 tr1 sp1]; cbn in *. subst sp1 tr1.
  pose proof (exec_cancelActiveJob_running env
                ("provisioner " +:+ Quote (Provisioner job) +:+ " not registered")
                p1 n1 (trace w ++ [Called (AcquireJob closeContext) (inl job)])
                [Task_cleanup ctx] ctx job
                (running_flag R) (running_cancelled R) (running_cancel R)
                (running_job R)) as E2.
  match type of E2 with _ = Done tt (mkWorld ?p2 ?n2 ?tr2 _) =>
    destruct (cleanup_ends env ctx job p1 p2 true n2 tr2 [] R
                (Ended_cancelled _ _ _ R))
      as (w3 & r' & resp & E3 & Htr3 & Hsp3 & _)
  end.
  exists w3, (env n1 _ (CancelJob closeContext
                 (mkCancelledJob (JobId job)
                    ("provisioner daemon: "
                     +:+ ("provisioner " +:+ Quote (Provisioner job)
                          +:+ " not registered"))))), r'.
  split.
  - unfold serve. rewrite Hex. cbn. unfold runJob. cbn.
    rewrite (running_job R). cbn. rewrite Hprov, E2. cbn. rewrite E3, Hsp3.
    reflexivity.
  - rewrite Htr3. destruct r'; cbn; rewrite <- !app_assoc; reflexivity.
Qed.

(** ** The cap on the size of a file *)


Lemma unpackEvent_bytesWritten (e : Entry) (ev : Event) (n : Z) :
  unpackEvent e ev -> bytesWritten ev = Some n ->
  0 < n /\ n <= maxFileSize /\ n <= Size (Hdr e).
Proof.
  intros [r Hd | r Hr | r Hr Hpos | r Hr]; cbn; try discriminate.
  intros [= <-]. unfold offered in *. lia.
Qed.

Lemma unpackEvents_writes (entries : list Entry) (evs : list Event) :
  unpackEvents entries evs ->
  Forall (fun n => 0 < n <= maxFileSize) (omap bytesWritten evs).
Proof.
  induction 1 as [ | ev evs (e & _ & _ & Hev) _ IH]; cbn; [constructor | ].
  destruct (bytesWritten ev) as [k | ] eqn:Hk; [ | exact IH].
  constructor; [ | exact IH].
  destruct (unpackEvent_bytesWritten e ev k Hev Hk) as (? & ? & _). lia.
Qed.

(** Every write of [unpack] stays within the cap. *)
Lemma unpack_writes_capped (env : Env) (entries : list Entry) (nextErr : error)
  (w : World) :
  exists r w' evs,
    exec env (unpack Quote opts entries nextErr) w = Done r w' /\
    trace w' = trace w ++ evs /\
    Forall (fun n => 0 < n <= maxFileSize) (omap bytesWritten evs).
Proof.
  destruct w as [p n tr sp].
  destruct (unpack_runs env entries nextErr p sp n tr) as (r & evs & Hex & Hevs).
  eexists r, _, evs. split; [exact Hex | ]. split; [reflexivity | ].
  apply (unpackEvents_writes entries). exact Hevs.
Qed.

(** ** What the check of a path ensures *)

Lemma unpackEvent_createdWith (e : Entry) (ev : Event) (path : string)
  (mode : FileMode) :
  unpackEvent e ev -> createdWith ev = Some (path, mode) ->
  path = entryPath e /\ mode = entryMode e.
Proof.
  intros [r Hd | r Hr | r Hr Hpos | r Hr]; cbn; try discriminate;
    intros [= <- <-]; split; reflexivity.
Qed.

(** Every path at which [unpack] creates a file or a directory starts, as a
    string, with the cleaned work directory. *)
Lemma unpack_creates_with_prefix (env : Env) (entries : list Entry)
  (nextErr : error) (w : World) :
  exists r w' evs,
    exec env (unpack Quote opts entries nextErr) w = Done r w' /\
    trace w' = trace w ++ evs /\
    Forall (fun path => HasPrefix path (Clean (WorkDirectory opts)) = true)
      (createdPaths evs).
Proof.
  destruct w as [p n tr sp].
  destruct (unpack_runs env entries nextErr p sp n tr) as (r & evs & Hex & Hevs).
  eexists r, _, evs. split; [exact Hex | ]. split; [reflexivity | ].
  clear Hex. unfold createdPaths.
  induction Hevs as [ | ev evs (e & _ & Hok & Hev) _ IH]; cbn; [constructor | ].
  destruct (createdWith ev) as [[path mode] | ] eqn:Hc; [ | exact IH].
  cbn. constructor; [ | exact IH].
  destruct (unpackEvent_createdWith e ev path mode Hev Hc) as [-> _]. exact Hok.
Qed.


(** ** The mode of an entry *)







End Properties.

(** ** Acquiring nothing *)

(** An acquire that finds no job, or finds the daemon closed, stores the
    response in [p.acquiredJob] and changes nothing else. *)
Lemma exec_acquireJob_nothing (env : Env) (w : World) (job : AcquiredJob) :
  acquiredJobMutex (daemon w) = false ->
  acquiredJobRunning (daemon w) = false ->
  env (clock w) _ (AcquireJob closeContext) = inl job ->
  closed (daemon w) = true \/ JobId job = EmptyString ->
  exec env acquireJob w =
  Done tt (mkWorld (set_acquiredJob (Some job) (daemon w)) (S (clock w))
             (trace w ++ [Called (AcquireJob closeContext) (inl job)])
             (spawned w)).
Proof.
  intros Hmu Hrun Henv Hno. destruct w as [p n tr sp]; cbn in *.
  unfold acquireJob. cbn. rewrite Hmu. cbn. rewrite Hrun. cbn. rewrite Henv. cbn.
  destruct p as [us cc cl cm ce aj am ak ac ar ad cs chs]; cbn in *. subst.
  destruct cl; cbn; [reflexivity | ].
  destruct Hno as [H | ->]; [discriminate | reflexivity].
Qed.

(** C8, amended.  However often [AcquireJob] returns a job with an empty
    [JobId] to an idle daemon, the daemon calls nothing but [AcquireJob],
    starts no goroutine, and keeps every field except [p.acquiredJob]: the
    running flag, the cancelled flag, the cancel handle and the done channel
    are as before, and [p.acquiredJob] holds the last empty response. *)
Theorem empty_acquire_keeps_slot (env : Env) (k : nat) :
  (forall n, exists job,
      env n _ (AcquireJob closeContext) = inl job /\ JobId job = EmptyString) ->
  forall w : World,
    acquiredJobMutex (daemon w) = false ->
    acquiredJobRunning (daemon w) = false ->
    exists w' evs,
      execAll env (repeat Tick k) w = Some w' /\
      daemon w' = set_acquiredJob (acquiredJob (daemon w')) (daemon w) /\
      (k = 0%nat \/
       exists job, acquiredJob (daemon w') = Some job /\ JobId job = EmptyString) /\
      spawned w' = spawned w /\
      trace w' = trace w ++ evs /\
      length evs = k /\ forallb isAcquireJob evs = true.
Proof.
  intros Henv. induction k as [ | k IH]; intros w Hmu Hrun.
  - exists w, []. cbn. rewrite app_nil_r. repeat split; auto.
    destruct w as [[] n tr sp]; reflexivity.
  - destruct (Henv (clock w)) as (job & Hjob & Hid).
    cbn [repeat execAll enter].
    rewrite (exec_acquireJob_nothing env w job Hmu Hrun Hjob (or_intror Hid)).
    match goal with |- context [execAll env _ ?w1] =>
      destruct (IH w1) as (w' & evs & Hex & Hd & Hj & Hsp & Htr & Hlen & Hall)
    end.
    { destruct w as [[] n tr sp]; cbn in *. exact Hmu. }
    { destruct w as [[] n tr sp]; cbn in *. exact Hrun. }
    exists w', (Called (AcquireJob closeContext) (inl job) :: evs).
    split; [exact Hex | ]. cbn in *.
    split; [rewrite Hd; destruct w as [[] n tr sp]; reflexivity | ].
    split.
    { right. destruct Hj as [-> | Hj]; [ | exact Hj].
      cbn in Hex. injection Hex as <-. exists job. split; [ | exact Hid].
      destruct w as [[] n tr sp]; reflexivity. }
    split; [exact Hsp | ]. split; [rewrite Htr, <- app_assoc; reflexivity | ].
    split; [rewrite Hlen; reflexivity | exact Hall].
Qed.

(** ** What the goroutines leave alone *)

Lemma Keeps_bind (I : provisionerDaemon -> provisionerDaemon -> Prop)
  {A B : Type} (m : Go A) (f : A -> Go B) :
  Keeps I m -> (forall a, Keeps I (f a)) -> Keeps I (bind m f).
Proof.
  intros Hm Hf. induction Hm; cbn; try (constructor; auto). apply Hf.
Qed.

(** One operation of a goroutine that keeps [I] keeps it, and so does the
    rest of the goroutine: the property holds however goroutines interleave. *)
Lemma Keeps_step1 (I : provisionerDaemon -> provisionerDaemon -> Prop)
  {A : Type} (env : Env) (m m' : Go A) (w w' : World) :
  (forall p, I p p) ->
  Keeps I m -> step1 env m w = Some (m', w') ->
  I (daemon w) (daemon w') /\ Keeps I m'.
Proof.
  intros Hrefl Hm H. destruct Hm as [a | msg | R f k Hf Hk | R c k Hk | t k Hk];
    cbn in H; try discriminate.
  - destruct (f (daemon w)) as [[r p] | ] eqn:E; [ | discriminate].
    injection H as <- <-. split; [exact (Hf _ _ _ E) | apply Hk].
  - injection H as <- <-. split; [apply Hrefl | apply Hk].
  - injection H as <- <-. split; [apply Hrefl | exact Hk].
Qed.

(** A run of a goroutine that keeps [I], to its end or to where it blocks or
    panics. *)
Lemma Keeps_exec (I : provisionerDaemon -> provisionerDaemon -> Prop)
  {A : Type} (env : Env) (m : Go A) :
  (forall p, I p p) ->
  (forall p1 p2 p3, I p1 p2 -> I p2 p3 -> I p1 p3) ->
  Keeps I m ->
  forall w, I (daemon w) (daemon (worldOf (exec env m w))).
Proof.
  intros Hrefl Htrans Hm.
  induction Hm as [a | msg | R f k Hf Hk IH | R c k Hk IH | t k Hk IH];
    intros w; cbn.
  - apply Hrefl.
  - apply Hrefl.
  - destruct (f (daemon w)) as [[r p] | ] eqn:E; [ | apply Hrefl].
    eapply Htrans; [exact (Hf _ _ _ E) | ]. apply (IH r (mkWorld p _ _ _)).
  - apply (IH _ (mkWorld _ _ _ _)).
  - apply (IH (mkWorld _ _ _ _)).
Qed.

(** A field access that is one of the loads, stores and locks of the
    methods. *)
Ltac access :=
  let p := fresh "p" in let r := fresh "r" in let p' := fresh "p'" in
  let H := fresh "H" in
  intros p r p' H; destruct p; cbn in H;
  repeat match type of H with
         | context [if ?b then _ else _] => destruct b
         | context [match ?x with _ => _ end] => destruct x
         end;
  try discriminate; injection H as <- <-;
  first [ repeat split; reflexivity | intros ?; assumption || reflexivity ].

(** The tree of a method, node by node. *)
Ltac keeps :=
  repeat match goal with
         | |- Keeps _ (Ret _) => apply Keeps_Ret
         | |- Keeps _ (Panic _) => apply Keeps_Panic
         | |- Keeps _ (Step _ _) => apply Keeps_Step; [access | intros ?]
         | |- Keeps _ (Call _ _) => apply Keeps_Call; intros ?
         | |- Keeps _ (Spawn _ _) => apply Keeps_Spawn
         | |- Keeps _ (bind _ _) => apply Keeps_bind; [ | intros ?]
         | |- Keeps _ (mbind _ _) => apply Keeps_bind; [ | intros ?]
         | |- Keeps _ (match ?x with _ => _ end) => destruct x
         | |- Keeps _ (let '(_, _) := ?x in _) => destruct x
         | H : _ |- Keeps _ _ => solve [apply H]
         end.

Section Frame.

Variable Quote : string -> string.
Variable opts : Options.

Lemma Keeps_cancelActiveJob (msg : string) :
  Keeps sameClosing (cancelActiveJob msg).
Proof.
  unfold cancelActiveJob, callAcquiredJobCancel, getAcquiredJob, isRunningJob,
    load, store, call. cbn. keeps.
Qed.

Lemma Keeps_unpack (entries : list Entry) (nextErr : error) :
  Keeps sameClosing (unpack Quote opts entries nextErr).
Proof.
  induction entries as [ | e rest IH]; [cbn; keeps | ].
  rewrite unpack_cons. unfold copyFile, call. cbn. keeps.
Qed.

Lemma Keeps_parseLoop (ctx : nat) (msgs : list Parse_Response) (recvErr : error) :
  Keeps sameClosing (parseLoop Quote ctx msgs recvErr).
Proof.
  pose proof Keeps_cancelActiveJob as Hc.
  induction msgs as [ | msg rest IH]; cbn; [apply Hc | ].
  destruct msg; unfold getAcquiredJob, load, call; cbn; keeps.
Qed.

Lemma Keeps_provisionLoop (ctx : nat) (msgs : list Provision_Response)
  (recvErr : error) :
  Keeps sameClosing (provisionLoop Quote ctx msgs recvErr).
Proof.
  pose proof Keeps_cancelActiveJob as Hc.
  induction msgs as [ | msg rest IH]; cbn; [apply Hc | ].
  destruct msg; unfold getAcquiredJob, load, call; cbn; keeps.
Qed.

Lemma Keeps_acquireJob : Keeps sameClosing acquireJob.
Proof.
  unfold acquireJob, Lock_acquiredJobMutex, Unlock_acquiredJobMutex,
    isRunningJob, isClosed, load, store, call, go. cbn. keeps.
Qed.

Lemma Keeps_cleanup (ctx : nat) : Keeps sameClosing (cleanup Quote opts ctx).
Proof.
  pose proof Keeps_cancelActiveJob as Hc.
  unfold cleanup, closeAcquiredJobDone, Lock_acquiredJobMutex,
    Unlock_acquiredJobMutex, await, load, store, call. cbn. keeps.
Qed.

Lemma Keeps_runJob (ctx : nat) : Keeps sameClosing (runJob Quote opts ctx).
Proof.
  pose proof Keeps_cancelActiveJob as Hc.
  pose proof Keeps_unpack as Hu.
  pose proof (Keeps_parseLoop ctx) as Hp.
  pose proof (Keeps_provisionLoop ctx) as Hv.
  unfold runJob, runProjectImport, runWorkspaceProvision, callAcquiredJobCancel,
    getAcquiredJob, load, store, call, go. cbn. keeps.
Qed.

(** No goroutine the daemon starts, and no acquire, touches the fields of
    [Close]. *)
Lemma Keeps_goroutine (t : Task) : Keeps sameClosing (goroutine Quote opts t).
Proof. destruct t; [apply Keeps_runJob | apply Keeps_cleanup]. Qed.

End Frame.

(** Nothing in the daemon reopens it. *)
Lemma Keeps_weaken (I J : provisionerDaemon -> provisionerDaemon -> Prop)
  {A : Type} (m : Go A) :
  (forall p p', I p p' -> J p p') -> Keeps I m -> Keeps J m.
Proof.
  intros HIJ Hm.
  induction Hm as [a | msg | R f k Hf Hk IH | R c k Hk IH | t k Hk IH];
    constructor; auto.
  intros p r p' E. apply HIJ. exact (Hf _ _ _ E).
Qed.

Lemma sameClosing_staysClosed (p p' : provisionerDaemon) :
  sameClosing p p' -> staysClosed p p'.
Proof. intros (H & _ & _) Hc. congruence. Qed.

Lemma Keeps_closeWithError (err : option error) :
  Keeps staysClosed (closeWithError err).
Proof.
  pose proof (fun msg => Keeps_weaken sameClosing staysClosed _
                           sameClosing_staysClosed (Keeps_cancelActiveJob msg))
    as Hc.
  unfold closeWithError, recvAcquiredJobDone, Lock_closeMutex, Unlock_closeMutex,
    isRunningJob, isClosed, await, load, store, call. cbn. keeps.
Qed.

(** ** Closing twice *)

(** Once closed, [closeWithError] returns the recorded error and changes
    nothing. *)
Lemma exec_closeWithError_closed (env : Env) (err : option error) (w : World) :
  closed (daemon w) = true ->
  closeMutex (daemon w) = false ->
  exec env (closeWithError err) w = Done (closeError (daemon w)) w.
Proof.
  intros Hcl Hmu. destruct w as [[] n tr sp]; cbn in *. subst.
  reflexivity.
Qed.

(** A call of [closeWithError] that returns leaves the daemon closed, with
    the returned error recorded and the mutex released. *)
Lemma closeWithError_returns (env : Env) (err r : option error) (w w' : World) :
  exec env (closeWithError err) w = Done r w' ->
  closed (daemon w') = true /\ closeError (daemon w') = r /\
  closeMutex (daemon w') = false.
Proof.
  intros H. destruct w as [p n tr sp]. unfold closeWithError in H. cbn in H.
  destruct (closeMutex p) eqn:Hmu; [discriminate | ]. cbn in H.
  destruct p as [us cc cl cm ce aj am ak ac ar ad cs chs]; cbn in *.
  destruct cl; cbn in H.
  - injection H as <- <-. auto.
  - rewrite exec_mbind in H.
    match type of H with
    | match exec env ?m ?w0 with _ => _ end = _ =>
        destruct (exec env m w0) as [[] [p1 n1 tr1 sp1] | | ]; try discriminate
    end.
    cbn in H.
    destruct p1 as [us1 cc1 cl1 cm1 ce1 aj1 am1 ak1 ac1 ar1 ad1 cs1 chs1]; cbn in H.
    destruct us1; cbn in H; injection H as <- <-; auto.
Qed.

(** C9.  A second call of [Close] (of [closeWithError], whatever its
    argument) returns what the first call returned; it changes no field of
    the daemon, makes no call, so sends no [CancelJob], and starts no
    goroutine.  This holds in any world that agrees with the one the first
    call left on the fields of [Close], so whatever [acquireJob] and the
    goroutines of the daemon did in between ([Keeps_acquireJob],
    [Keeps_goroutine]). *)
Theorem close_twice (env env' : Env) (err err' r : option error)
  (w w' w'' : World) :
  exec env (closeWithError err) w = Done r w' ->
  sameClosing (daemon w') (daemon w'') ->
  exec env' (closeWithError err') w'' = Done r w''.
Proof.
  intros H (Hcl' & Herr' & Hmu').
  destruct (closeWithError_returns env err r w w' H) as (Hcl & Herr & Hmu).
  rewrite (exec_closeWithError_closed env' err' w'') by congruence.
  congruence.
Qed.

(** ** Acquiring after the daemon was closed *)

(** A closed daemon that runs no job stays so under [acquireJob] and
    [Close]; neither sends a terminal call or starts a goroutine. *)
Lemma closed_daemon_stays (env : Env) (calls : list EntryPoint) :
  forall w : World,
    closed (daemon w) = true ->
    acquiredJobRunning (daemon w) = false ->
    acquiredJobMutex (daemon w) = false ->
    closeMutex (daemon w) = false ->
    exists w' evs,
      execAll env calls w = Some w' /\
      acquiredJobRunning (daemon w') = false /\
      spawned w' = spawned w /\
      trace w' = trace w ++ evs /\ terminals evs = [].
Proof.
  induction calls as [ | c calls IH]; intros w Hcl Hrun Hmu Hcmu.
  - exists w, []. cbn. rewrite app_nil_r. auto.
  - cbn [execAll]. destruct c; cbn [enter].
    + assert (Hstep : exists w1 r,
                exec env acquireJob w = Done tt w1 /\
                closed (daemon w1) = true /\
                acquiredJobRunning (daemon w1) = false /\
                acquiredJobMutex (daemon w1) = false /\
                closeMutex (daemon w1) = false /\
                spawned w1 = spawned w /\
                trace w1 = trace w ++ [Called (AcquireJob closeContext) r]).
      { destruct (env (clock w) _ (AcquireJob closeContext)) as [job | e] eqn:Er.
        - rewrite (exec_acquireJob_nothing env w job Hmu Hrun Er (or_introl Hcl)).
          eexists _, _. split; [reflexivity | ].
          destruct w as [[] n tr sp]; cbn in *. auto 10.
        - destruct w as [[] n tr sp]; cbn in *. subst.
          unfold acquireJob. cbn. rewrite Er. cbn.
          eexists _, _. split; [reflexivity | ]. cbn. auto 10. }
      destruct Hstep as (w1 & r & Hex & Hcl1 & Hrun1 & Hmu1 & Hcmu1 & Hsp1 & Htr1).
      rewrite Hex.
      destruct (IH w1 Hcl1 Hrun1 Hmu1 Hcmu1) as (w' & evs & Hall & ? & Hsp & Htr & HT).
      exists w', (Called (AcquireJob closeContext) r :: evs).
      split; [exact Hall | ]. split; [assumption | ].
      split; [congruence | ].
      split; [rewrite Htr, Htr1, <- app_assoc; reflexivity | exact HT].
    + unfold Close. change (exec env (_ ← closeWithError None; Ret tt) w)
        with (exec env (bind (closeWithError None) (fun _ => Ret tt)) w).
      rewrite exec_bind, (exec_closeWithError_closed env None w Hcl Hcmu).
      cbn. apply IH; assumption.
Qed.

(** X23.  When [AcquireJob] returns a job with a non-empty [JobId] to a
    daemon that has been closed, [acquireJob] stores the job in
    [p.acquiredJob] and returns: the running flag stays false and no runner
    is started.  Whatever calls of [acquireJob] and [Close] follow, each run
    to its end before the next, the flag stays false, no goroutine is
    started, and these calls send neither [CompleteJob] nor [CancelJob].
    This is about the calls that enter the daemon after it closed, not about
    a goroutine that an earlier job left behind
    (module [Races]). *)
Theorem closed_daemon_discards_job (env : Env) (w : World) (job : AcquiredJob)
  (calls : list EntryPoint) :
  closed (daemon w) = true ->
  acquiredJobRunning (daemon w) = false ->
  acquiredJobMutex (daemon w) = false ->
  closeMutex (daemon w) = false ->
  env (clock w) _ (AcquireJob closeContext) = inl job ->
  JobId job <> EmptyString ->
  exists w1 w2 evs,
    exec env acquireJob w = Done tt w1 /\
    daemon w1 = set_acquiredJob (Some job) (daemon w) /\
    spawned w1 = spawned w /\
    trace w1 = trace w ++ [Called (AcquireJob closeContext) (inl job)] /\
    execAll env calls w1 = Some w2 /\
    acquiredJobRunning (daemon w2) = false /\
    spawned w2 = spawned w /\
    trace w2 = trace w1 ++ evs /\ terminals evs = [].
Proof.
  intros Hcl Hrun Hmu Hcmu Henv _.
  pose proof (exec_acquireJob_nothing env w job Hmu Hrun Henv (or_introl Hcl)) as Hex.
  match type of Hex with _ = Done tt ?w1 =>
    destruct (closed_daemon_stays env calls w1) as (w2 & evs & Hall & ? & ? & ? & ?)
  end; try (destruct w as [[] n tr sp]; cbn in *; assumption).
  eexists _, w2, evs. split; [exact Hex | ]. cbn. auto 10.
Qed.

(* ===================================================================== *)
(** * More of the daemon                                                  *)
(* ===================================================================== *)

(** ** Acquiring a job *)

(** X1.  A call of [acquireJob] that finds the job mutex free returns.  While
    a job is running it changes nothing and calls nothing.  Otherwise it
    calls [AcquireJob] once, and starts a runner exactly when the call
    returned a job with a non-empty [JobId] and the daemon is not closed:
    then the job is in the slot, marked running and not cancelled, with its
    cancel function and an open done channel; in every other case no
    goroutine is started and only [p.acquiredJob] is written. *)
Theorem acquireJob_starts (env : Env) (w : World) :
  acquiredJobMutex (daemon w) = false ->
  exists w',
    exec env acquireJob w = Done tt w' /\
    if acquiredJobRunning (daemon w) then w' = w
    else
      let r := env (clock w) _ (AcquireJob closeContext) in
      trace w' = trace w ++ [Called (AcquireJob closeContext) r] /\
      match started (daemon w) r with
      | Some job =>
          exists ctx,
            Running (daemon w') ctx job /\
            spawned w' = spawned w ++ [Task_runJob ctx]
      | None =>
          spawned w' = spawned w /\
          daemon w' = set_acquiredJob (acquiredJob (daemon w')) (daemon w)
      end.
Proof.
  intros Hmu. destruct w as [p n tr sp]; cbn in *.
  destruct (acquiredJobRunning p) eqn:Hrun.
  - exists (mkWorld p n tr sp). split; [ | reflexivity].
    unfold acquireJob. cbn. rewrite Hmu. cbn. rewrite Hrun. cbn.
    destruct p; cbn in *. subst. reflexivity.
  - unfold started.
    destruct (env n _ (AcquireJob closeContext)) as [job | err] eqn:Er.
    + destruct (closed p) eqn:Hcl; cbn [orb].
      * rewrite (exec_acquireJob_nothing env (mkWorld p n tr sp) job Hmu Hrun Er
                   (or_introl Hcl)).
        eexists. split; [reflexivity | ]. cbn. repeat split.
      * destruct (String.eqb_spec (JobId job) EmptyString) as [Hid | Hid].
        -- rewrite (exec_acquireJob_nothing env (mkWorld p n tr sp) job Hmu Hrun Er
                      (or_intror Hid)).
           eexists. split; [reflexivity | ]. cbn. repeat split.
        -- destruct (exec_acquireJob_job env (mkWorld p n tr sp) job
                       (Build_Idle p Hrun Hmu Hcl) Er Hid)
             as (w1 & ctx & Hex & R & _ & _ & Htr & Hsp).
           exists w1. split; [exact Hex | ]. split; [exact Htr | ].
           exists ctx. split; assumption.
    + unfold acquireJob. cbn. rewrite Hmu. cbn. rewrite Hrun. cbn. rewrite Er. cbn.
      eexists. split; [reflexivity | ]. cbn. repeat split.
      destruct p; cbn in *; subst; reflexivity.
Qed.

(** ** Jobs from acquire to cleanup *)

Section Progress.

Variable Quote : string -> string.
Variable opts : Options.

Lemma parseLoop_returns (env : Env) (ctx : nat) (job : AcquiredJob)
  (p : provisionerDaemon) (recvErr : error) (sp : list Task) :
  Running p ctx job ->
  forall (msgs : list Parse_Response) (n : nat) (tr : list Event),
    forallb parseTyped msgs = true ->
    exists w', exec env (parseLoop Quote ctx msgs recvErr) (mkWorld p n tr sp)
               = Done tt w'.
Proof.
  intros R.
  assert (Hc : forall msg n tr, exists w',
             exec env (cancelActiveJob msg) (mkWorld p n tr sp) = Done tt w').
  { intros msg n tr. eexists.
    apply (exec_cancelActiveJob_running env msg p n tr sp ctx job
             (running_flag R) (running_cancelled R) (running_cancel R)
             (running_job R)). }
  induction msgs as [ | msg rest IH]; intros n tr Hty; cbn.
  - apply Hc.
  - cbn in Hty. apply andb_true_iff in Hty as [Hm Hrest].
    destruct msg as [log | schemas | typeName | ]; cbn; try discriminate.
    + rewrite (running_job R). cbn.
      match goal with |- context [env ?a ?b (UpdateJob_Send ?u)] =>
        destruct (env a b (UpdateJob_Send u)) as [err | ] end;
        [apply Hc | apply IH; exact Hrest].
    + rewrite (running_job R). cbn.
      match goal with |- context [env ?a ?b (CompleteJob ?c ?j)] =>
        destruct (env a b (CompleteJob c j)) as [err | ] end;
        [apply Hc | eexists; reflexivity].
    + apply Hc.
Qed.

Lemma provisionLoop_returns (env : Env) (ctx : nat) (job : AcquiredJob)
  (p : provisionerDaemon) (recvErr : error) (sp : list Task) :
  Running p ctx job ->
  forall (msgs : list Provision_Response) (n : nat) (tr : list Event),
    forallb provisionTyped msgs = true ->
    exists w', exec env (provisionLoop Quote ctx msgs recvErr) (mkWorld p n tr sp)
               = Done tt w'.
Proof.
  intros R.
  assert (Hc : forall msg n tr, exists w',
             exec env (cancelActiveJob msg) (mkWorld p n tr sp) = Done tt w').
  { intros msg n tr. eexists.
    apply (exec_cancelActiveJob_running env msg p n tr sp ctx job
             (running_flag R) (running_cancelled R) (running_cancel R)
             (running_job R)). }
  induction msgs as [ | msg rest IH]; intros n tr Hty; cbn.
  - apply Hc.
  - cbn in Hty. apply andb_true_iff in Hty as [Hm Hrest].
    destruct msg as [log | state resources | typeName | ]; cbn; try discriminate.
    + rewrite (running_job R). cbn.
      match goal with |- context [env ?a ?b (UpdateJob_Send ?u)] =>
        destruct (env a b (UpdateJob_Send u)) as [err | ] end;
        [apply Hc | apply IH; exact Hrest].
    + rewrite (running_job R). cbn.
      match goal with |- context [env ?a ?b (CompleteJob ?c ?j)] =>
        destruct (env a b (CompleteJob c j)) as [err | ] end;
        [apply Hc | eexists; reflexivity].
    + apply Hc.
Qed.

(** The runner of a job whose oneofs are set returns. *)
Lemma runJob_returns (env : Env) (ctx : nat) (job : AcquiredJob)
  (p : provisionerDaemon) (n : nat) (tr : list Event) (sp : list Task) :
  Running p ctx job ->
  jobTyped job = true ->
  typedStreams env ->
  exists w', exec env (runJob Quote opts ctx) (mkWorld p n tr sp) = Done tt w'.
Proof.
  intros R Hjob [Hparse Hprov].
  assert (Hc : forall msg n tr sp, exists w',
             exec env (cancelActiveJob msg) (mkWorld p n tr sp) = Done tt w').
  { intros msg n0 tr0 sp0. eexists.
    apply (exec_cancelActiveJob_running env msg p n0 tr0 sp0 ctx job
             (running_flag R) (running_cancelled R) (running_cancel R)
             (running_job R)). }
  unfold runJob. cbn. rewrite (running_job R). cbn.
  destruct (Provisioners opts !! Provisioner job) as [provisioner | ]; [ | apply Hc].
  cbn. destruct (env n _ (MkdirAll (WorkDirectory opts) 384)) as [err | ];
    [apply Hc | ].
  cbn. rewrite (running_job R). cbn. rewrite exec_mbind.
  destruct (unpack_runs Quote opts env (Entries (ProjectSourceArchive job))
              (NextErr (ProjectSourceArchive job)) p (sp ++ [Task_cleanup ctx])
              (S n) (tr ++ [Called (MkdirAll (WorkDirectory opts) 384) None]))
    as (r & evs0 & Hex & Hevs).
  rewrite Hex. clear Hex. apply unpackEvents_terminals in Hevs.
  destruct r as [msg | ]; [apply Hc | ].
  cbn. rewrite (running_job R). cbn. unfold jobTyped in Hjob.
  assert (Hpre : terminals ([Called (MkdirAll (WorkDirectory opts) 384) None]
                            ++ evs0) = []).
  { rewrite terminals_app, Hevs. reflexivity. }
  rewrite <- app_assoc.
  destruct (Type_ job) as [hid | hid values state | typeName | ];
    [ | | apply Hc | discriminate].
  - rewrite exec_mbind.
    assert (Hrun : exists w1, exec env (runProjectImport Quote opts ctx provisioner)
               (mkWorld p (length evs0 + S n)
                  (tr ++ [Called (MkdirAll (WorkDirectory opts) 384) None] ++ evs0)
                  (sp ++ [Task_cleanup ctx])) = Done tt w1).
    { unfold runProjectImport. cbn.
      match goal with |- context [env ?a ?b (Parse ?c ?d ?e)] =>
        destruct (env a b (Parse c d e)) as [stream | err] eqn:Es end;
        [ | apply Hc].
      rewrite exec_mbind.
      match goal with |- context [exec env (parseLoop _ _ _ _) (mkWorld p ?n0 ?tr0 ?sp0)] =>
        destruct (parseLoop_returns env ctx job p (RecvErr stream) sp0 R (Msgs stream)
                    n0 tr0 (Hparse _ _ _ _ _ Es)) as (w1 & ->) end.
      eexists. reflexivity. }
    destruct Hrun as (w1 & Hrun). rewrite Hrun.
    destruct (runProjectImport_ends Quote opts env ctx job provisioner p R _ tr _ _ w1
                Hpre Hrun) as (evs & T & Htr & Hsp & HT & HE).
    destruct w1 as [p1 n1 tr1 sp1].
    rewrite (exec_callAcquiredJobCancel env p1 n1 tr1 sp1 ctx)
      by (eapply JobEnd_cancel; [exact HE | exact (running_cancel R)]).
    eexists. reflexivity.
  - rewrite exec_mbind.
    assert (Hrun : exists w1,
               exec env (runWorkspaceProvision Quote opts ctx provisioner values state)
               (mkWorld p (length evs0 + S n)
                  (tr ++ [Called (MkdirAll (WorkDirectory opts) 384) None] ++ evs0)
                  (sp ++ [Task_cleanup ctx])) = Done tt w1).
    { unfold runWorkspaceProvision. cbn.
      match goal with |- context [env ?a ?b (Provision ?c ?d ?e ?f ?g)] =>
        destruct (env a b (Provision c d e f g)) as [stream | err] eqn:Es end;
        [ | apply Hc].
      rewrite exec_mbind.
      match goal with |- context [exec env (provisionLoop _ _ _ _) (mkWorld p ?n0 ?tr0 ?sp0)] =>
        destruct (provisionLoop_returns env ctx job p (RecvErr stream) sp0 R
                    (Msgs stream) n0 tr0 (Hprov _ _ _ _ _ _ _ Es)) as (w1 & ->) end.
      eexists. reflexivity. }
    destruct Hrun as (w1 & Hrun). rewrite Hrun.
    destruct (runWorkspaceProvision_ends Quote opts env ctx job provisioner values
                state p R _ tr _ _ w1 Hpre Hrun) as (evs & T & Htr & Hsp & HT & HE).
    destruct w1 as [p1 n1 tr1 sp1].
    rewrite (exec_callAcquiredJobCancel env p1 n1 tr1 sp1 ctx)
      by (eapply JobEnd_cancel; [exact HE | exact (running_cancel R)]).
    eexists. reflexivity.
Qed.

(** A job served from acquire to cleanup: the worlds in between. *)
Lemma serve_runs (env : Env) (w : World) (job : AcquiredJob) :
  Idle (daemon w) ->
  spawned w = [] ->
  env (clock w) _ (AcquireJob closeContext) = inl job ->
  JobId job <> EmptyString ->
  jobTyped job = true ->
  typedStreams env ->
  exists w1 w2 w3 ctx evs T d,
    exec env acquireJob w = Done tt w1 /\
    Running (daemon w1) ctx job /\
    closed (daemon w1) = false /\
    trace w1 = trace w ++ [Called (AcquireJob closeContext) (inl job)] /\
    exec env (runJob Quote opts ctx)
      (mkWorld (daemon w1) (clock w1) (trace w1) []) = Done tt w2 /\
    trace w2 = trace w1 ++ evs /\
    terminals evs = T /\
    JobEnd (JobId job) ctx (daemon w1) T d /\
    Ended (daemon w1) ctx job (cancelSent T) (daemon w2) /\
    exec env (cleanup Quote opts ctx)
      (mkWorld (daemon w2) (clock w2) (trace w2) []) = Done tt w3 /\
    serve Quote opts env w = Some w3.
Proof.
  intros HI Hsp Henv Hid Hjob Hty.
  destruct (exec_acquireJob_job env w job HI Henv Hid)
    as (w1 & ctx & Hex & R & Hcl & Hclock & Htr1 & Hsp1).
  rewrite Hsp in Hsp1. cbn in Hsp1.
  destruct w1 as [p1 n1 tr1 sp1]; cbn in *. subst sp1.
  destruct (runJob_returns env ctx job p1 n1 tr1 [] R Hjob Hty) as (w2 & E2).
  destruct (runJob_Ended Quote opts env ctx job p1 n1 tr1 [] w2 R E2)
    as (evs2 & T & d & Htr2 & Hsp2 & HT & HE & HEnd).
  destruct w2 as [p2 n2 tr2 sp2]; cbn in *. subst sp2.
  destruct (cleanup_ends Quote opts env ctx job p1 p2 (cancelSent T) n2 tr2 [] R HEnd)
    as (w3 & r & resp & E3 & Htr3 & Hsp3 & _).
  exists (mkWorld p1 n1 tr1 [Task_runJob ctx]), (mkWorld p2 n2 tr2 [Task_cleanup ctx]),
    w3, ctx, evs2, T, d.
  cbn. split; [exact Hex | ]. split; [exact R | ]. split; [exact Hcl | ].
  split; [exact Htr1 | ]. split; [exact E2 | ]. split; [exact Htr2 | ].
  split; [exact HT | ]. split; [exact HE | ].
  split; [exact HEnd | ]. split; [exact E3 | ].
  unfold serve. rewrite Hex. cbn. rewrite E2. cbn. rewrite E3.
  destruct w3; cbn in *. subst. reflexivity.
Qed.

(** X2.  A job whose [Type] is set, with provisioners whose messages all
    have their oneof set, and served in turn ([serve]: [acquireJob] on an
    idle daemon, then the runner, then the cleanup goroutine, each run to its
    end with no other goroutine of the daemon in between): each of the three
    returns, none blocks or panics, and no goroutine is left over.  Nothing is
    said of a run in which a poll or [Close] takes a turn in between. *)
Theorem job_is_served (env : Env) (w : World) (job : AcquiredJob) :
  Idle (daemon w) ->
  spawned w = [] ->
  env (clock w) _ (AcquireJob closeContext) = inl job ->
  JobId job <> EmptyString ->
  jobTyped job = true ->
  typedStreams env ->
  exists w', serve Quote opts env w = Some w' /\ spawned w' = [].
Proof.
  intros HI Hsp Henv Hid Hjob Hty.
  destruct (serve_runs env w job HI Hsp Henv Hid Hjob Hty)
    as (w1 & w2 & w3 & ctx & evs & T & d & _ & R & _ & _ & _ & _ & _ & _ & HEnd
        & E3 & Hserve).
  exists w3. split; [exact Hserve | ].
  destruct (cleanup_ends Quote opts env ctx job (daemon w1) (daemon w2) (cancelSent T)
              (clock w2) (trace w2) [] R HEnd) as (w3' & r & resp & E3' & _ & Hsp3 & _).
  congruence.
Qed.

Lemma JobEnd_length (jobId : string) (ctx : nat) (p p' : provisionerDaemon)
  (T : list Terminal) :
  JobEnd jobId ctx p T p' -> (1 <= length T <= 2)%nat.
Proof. intros [msg | | err]; cbn; lia. Qed.

(** X3.  When the control plane always has a job, every message has its
    oneof set and the work directory can always be removed, the daemon
    serves any number of jobs one after the other: after each it is idle
    again, and per job it sends at least one and at most two terminal
    calls. *)
Theorem jobs_served_in_turn (env : Env) (k : nat) :
  (forall n, exists job,
      env n _ (AcquireJob closeContext) = inl job /\
      JobId job <> EmptyString /\ jobTyped job = true) ->
  typedStreams env ->
  (forall n, env n _ (RemoveAll (WorkDirectory opts)) = None) ->
  forall w : World,
    Idle (daemon w) ->
    spawned w = [] ->
    exists w' evs,
      serveAll Quote opts k env w = Some w' /\
      Idle (daemon w') /\
      spawned w' = [] /\
      trace w' = trace w ++ evs /\
      (k <= length (terminals evs) <= 2 * k)%nat.
Proof.
  intros Hjobs Hty Hrm. induction k as [ | k IH]; intros w HI Hsp.
  - exists w, []. cbn. rewrite app_nil_r. repeat split; try apply HI; auto.
  - destruct (Hjobs (clock w)) as (job & Henv & Hid & Hjob).
    destruct (serve_runs env w job HI Hsp Henv Hid Hjob Hty)
      as (w1 & w2 & w3 & ctx & evs & T & d & _ & R & Hcl & Htr1 & _ & Htr2 & HT & HE
          & HEnd & E3 & Hserve).
    destruct (cleanup_releases_slot Quote opts env ctx job (daemon w1) (daemon w2)
                (cancelSent T) (clock w2) (trace w2) [] R HEnd (Hrm _))
      as (ch & Hch & Hopen & E3').
    rewrite E3' in E3. injection E3 as <-.
    match type of Hserve with _ = Some ?w3 => destruct (IH w3) as (w' & evs' & Hall & HI' & Hsp' & Htr' & Hlen) end.
    { destruct HEnd as [_ _ _ _ _ _ _ Hclosed _].
      destruct (daemon w2); cbn in *. split; cbn; congruence. }
    { reflexivity. }
    exists w', ((Called (AcquireJob closeContext) (inl job) :: evs)
                ++ Called (RemoveAll (WorkDirectory opts)) None :: evs').
    cbn [serveAll]. rewrite Hserve. split; [exact Hall | ].
    split; [exact HI' | ]. split; [exact Hsp' | ].
    split.
    + rewrite Htr'. cbn. rewrite Htr2, Htr1. rewrite <- !app_assoc. reflexivity.
    + pose proof (JobEnd_length _ _ _ _ _ HE) as HlenT.
      rewrite terminals_app.
      change (terminals (Called (AcquireJob closeContext) (inl job) :: evs))
        with (terminals evs).
      change (terminals (Called (RemoveAll (WorkDirectory opts)) None :: evs'))
        with (terminals evs').
      rewrite length_app, HT. lia.
Qed.

End Progress.

(** ** The streams of a provisioner *)

Section Streams.

Variable Quote : string -> string.
Variable opts : Options.

Lemma parseLoop_logs (env : Env) (ctx : nat) (job : AcquiredJob)
  (p : provisionerDaemon) (tail : list Parse_Response) (recvErr : error)
  (sp : list Task) :
  Running p ctx job ->
  (forall n u, env n _ (UpdateJob_Send u) = None) ->
  forall (logs : list sdkLog) (n : nat) (tr : list Event),
  exists evs n',
    exec env (parseLoop Quote ctx (map Parse_Response_Log logs ++ tail) recvErr)
      (mkWorld p n tr sp)
    = exec env (parseLoop Quote ctx tail recvErr) (mkWorld p n' (tr ++ evs) sp) /\
    Forall2 (importLogOf (JobId job)) logs (omap updateSent evs) /\
    omap completedWith evs = [] /\
    terminals evs = [].
Proof.
  intros R Hsend. induction logs as [ | log logs IH]; intros n tr.
  - exists [], n. rewrite app_nil_r. repeat split. constructor.
  - cbn. rewrite (running_job R). cbn. rewrite Hsend.
    match goal with |- context [exec env _ (mkWorld p ?n1 ?tr1 sp)] =>
      destruct (IH n1 tr1) as (evs & n' & Hex & Hlogs & Hdone & HT) end.
    eexists (_ :: _ :: evs), n'. rewrite Hex. rewrite <- !app_assoc. cbn.
    split; [reflexivity | ]. split; [ | split; assumption].
    constructor; [ | exact Hlogs]. repeat split. eexists. reflexivity.
Qed.

(** X4.  [runProjectImport] forwards the log lines of the provisioner in
    order, one [UpdateJob] message per line, each with the id of the job and
    the level and output of the line as its only project import log; at the
    first [Complete] it calls [CompleteJob] once, with the id of the job and
    the parameter schemas of the message, and reads no message after it. *)
Theorem import_forwards_logs (env : Env) (w : World) (ctx : nat)
  (job : AcquiredJob) (provisioner : ProvisionerClient) (logs : list sdkLog)
  (schemas : list ParameterSchema) (rest : list Parse_Response)
  (recvErr : error) :
  Running (daemon w) ctx job ->
  (forall n u, env n _ (UpdateJob_Send u) = None) ->
  env (clock w) _ (Parse provisioner (jobContext ctx) (WorkDirectory opts))
  = inl (mkStream (map Parse_Response_Log logs
                   ++ Parse_Response_Complete schemas :: rest) recvErr) ->
  exists w' evs,
    exec env (runProjectImport Quote opts ctx provisioner) w = Done tt w' /\
    trace w' = trace w ++ evs /\
    Forall2 (importLogOf (JobId job)) logs (omap updateSent evs) /\
    omap completedWith evs
    = [mkCompletedJob (JobId job) (CompletedJob_ProjectImport_ schemas)].
Proof.
  intros R Hsend Hparse. destruct w as [p n tr sp]; cbn in *.
  unfold runProjectImport. cbn. rewrite Hparse. cbn. rewrite exec_mbind.
  match goal with |- context [exec env _ (mkWorld p ?n1 ?tr1 sp)] =>
    destruct (parseLoop_logs env ctx job p (Parse_Response_Complete schemas :: rest)
                recvErr sp R Hsend logs n1 tr1)
      as (evs & n' & Hex & Hlogs & Hdone & HT) end.
  rewrite Hex. cbn. rewrite (running_job R). cbn.
  match goal with |- context [env ?a ?b (CompleteJob ?c ?j)] =>
    destruct (env a b (CompleteJob c j)) as [err | ] eqn:Ec end.
  - rewrite (exec_cancelActiveJob_running env _ p _ _ sp ctx job
               (running_flag R) (running_cancelled R) (running_cancel R)
               (running_job R)).
    cbn. eexists _, _. split; [reflexivity | ]. cbn.
    rewrite <- !app_assoc. split; [reflexivity | ].
    rewrite !omap_app. cbn. rewrite Hdone, app_nil_r. split; [exact Hlogs | reflexivity].
  - cbn. eexists _, _. split; [reflexivity | ]. cbn.
    rewrite <- !app_assoc. split; [reflexivity | ].
    rewrite !omap_app. cbn. rewrite Hdone, app_nil_r. split; [exact Hlogs | reflexivity].
Qed.

Lemma provisionLoop_logs (env : Env) (ctx : nat) (job : AcquiredJob)
  (p : provisionerDaemon) (tail : list Provision_Response) (recvErr : error)
  (sp : list Task) :
  Running p ctx job ->
  (forall n u, env n _ (UpdateJob_Send u) = None) ->
  forall (logs : list sdkLog) (n : nat) (tr : list Event),
  exists evs n',
    exec env (provisionLoop Quote ctx (map Provision_Response_Log logs ++ tail) recvErr)
      (mkWorld p n tr sp)
    = exec env (provisionLoop Quote ctx tail recvErr) (mkWorld p n' (tr ++ evs) sp) /\
    Forall2 (provisionLogOf (JobId job)) logs (omap updateSent evs) /\
    omap completedWith evs = [] /\
    terminals evs = [].
Proof.
  intros R Hsend. induction logs as [ | log logs IH]; intros n tr.
  - exists [], n. rewrite app_nil_r. repeat split. constructor.
  - cbn. rewrite (running_job R). cbn. rewrite Hsend.
    match goal with |- context [exec env _ (mkWorld p ?n1 ?tr1 sp)] =>
      destruct (IH n1 tr1) as (evs & n' & Hex & Hlogs & Hdone & HT) end.
    eexists (_ :: _ :: evs), n'. rewrite Hex. rewrite <- !app_assoc. cbn.
    split; [reflexivity | ]. split; [ | split; assumption].
    constructor; [ | exact Hlogs]. repeat split. eexists. reflexivity.
Qed.

(** X5.  [runWorkspaceProvision] forwards the log lines of the provisioner
    in order, one [UpdateJob] message per line, each with the id of the job
    and the line as its only workspace provision log; at the first
    [Complete] it calls [CompleteJob] once, with the id of the job and the
    state and resources of the message, and reads no message after it. *)
Theorem provision_forwards_logs (env : Env) (w : World) (ctx : nat)
  (job : AcquiredJob) (provisioner : ProvisionerClient)
  (values : list ParameterValue) (state : bytes) (logs : list sdkLog)
  (state' : bytes) (resources : list Resource) (rest : list Provision_Response)
  (recvErr : error) :
  Running (daemon w) ctx job ->
  (forall n u, env n _ (UpdateJob_Send u) = None) ->
  env (clock w) _ (Provision provisioner (jobContext ctx) (WorkDirectory opts)
                     values state)
  = inl (mkStream (map Provision_Response_Log logs
                   ++ Provision_Response_Complete state' resources :: rest)
           recvErr) ->
  exists w' evs,
    exec env (runWorkspaceProvision Quote opts ctx provisioner values state) w
    = Done tt w' /\
    trace w' = trace w ++ evs /\
    Forall2 (provisionLogOf (JobId job)) logs (omap updateSent evs) /\
    omap completedWith evs
    = [mkCompletedJob (JobId job)
         (CompletedJob_WorkspaceProvision_ state' resources)].
Proof.
  intros R Hsend Hprov. destruct w as [p n tr sp]; cbn in *.
  unfold runWorkspaceProvision. cbn. rewrite Hprov. cbn. rewrite exec_mbind.
  match goal with |- context [exec env _ (mkWorld p ?n1 ?tr1 sp)] =>
    destruct (provisionLoop_logs env ctx job p
                (Provision_Response_Complete state' resources :: rest)
                recvErr sp R Hsend logs n1 tr1)
      as (evs & n' & Hex & Hlogs & Hdone & HT) end.
  rewrite Hex. cbn. rewrite (running_job R). cbn.
  match goal with |- context [env ?a ?b (CompleteJob ?c ?j)] =>
    destruct (env a b (CompleteJob c j)) as [err | ] eqn:Ec end.
  - rewrite (exec_cancelActiveJob_running env _ p _ _ sp ctx job
               (running_flag R) (running_cancelled R) (running_cancel R)
               (running_job R)).
    cbn. eexists _, _. split; [reflexivity | ]. cbn.
    rewrite <- !app_assoc. split; [reflexivity | ].
    rewrite !omap_app. cbn. rewrite Hdone, app_nil_r. split; [exact Hlogs | reflexivity].
  - cbn. eexists _, _. split; [reflexivity | ]. cbn.
    rewrite <- !app_assoc. split; [reflexivity | ].
    rewrite !omap_app. cbn. rewrite Hdone, app_nil_r. split; [exact Hlogs | reflexivity].
Qed.

(** X6.  One call of [runProjectImport], run to its end with no other
    goroutine in between ([exec]), for the running job in [p.acquiredJob]:
    when the stream of [Parse] ends before a [Complete] message (at once, or
    after log lines, which are forwarded), the call sends one [CancelJob],
    with the id of that job and the message "recv parse source: %s", and does
    not call [CompleteJob]. *)
Theorem import_stream_end_cancels_job (env : Env) (w : World) (ctx : nat)
  (job : AcquiredJob) (provisioner : ProvisionerClient) (logs : list sdkLog)
  (recvErr : error) :
  Running (daemon w) ctx job ->
  (forall n u, env n _ (UpdateJob_Send u) = None) ->
  env (clock w) _ (Parse provisioner (jobContext ctx) (WorkDirectory opts))
  = inl (mkStream (map Parse_Response_Log logs) recvErr) ->
  exists w' evs,
    exec env (runProjectImport Quote opts ctx provisioner) w = Done tt w' /\
    trace w' = trace w ++ evs /\
    Forall2 (importLogOf (JobId job)) logs (omap updateSent evs) /\
    terminals evs
    = [T_Cancel (JobId job)
         ("provisioner daemon: " +:+ ("recv parse source: " +:+ Error recvErr))].
Proof.
  intros R Hsend Hparse. destruct w as [p n tr sp]; cbn in *.
  unfold runProjectImport. cbn. rewrite Hparse. cbn. rewrite exec_mbind.
  rewrite <- (app_nil_r (map Parse_Response_Log logs)).
  match goal with |- context [exec env _ (mkWorld p ?n1 ?tr1 sp)] =>
    destruct (parseLoop_logs env ctx job p [] recvErr sp R Hsend logs n1 tr1)
      as (evs & n' & Hex & Hlogs & Hdone & HT) end.
  rewrite Hex. cbn.
  rewrite (exec_cancelActiveJob_running env _ p _ _ sp ctx job
             (running_flag R) (running_cancelled R) (running_cancel R)
             (running_job R)).
  cbn. eexists _, _. split; [reflexivity | ]. cbn.
  rewrite <- !app_assoc. split; [reflexivity | ].
  rewrite !omap_app, !terminals_app. cbn. rewrite HT, app_nil_r.
  split; [exact Hlogs | reflexivity].
Qed.

(** X7.  One call of [runWorkspaceProvision], run to its end with no other
    goroutine in between ([exec]), for the running job in [p.acquiredJob]:
    when the stream of [Provision] ends before a [Complete] message (at once,
    or after log lines, which are forwarded), the call sends one [CancelJob],
    with the id of that job and the message "recv workspace provision: %s",
    and does not call [CompleteJob]. *)
Theorem provision_stream_end_cancels_job (env : Env) (w : World) (ctx : nat)
  (job : AcquiredJob) (provisioner : ProvisionerClient)
  (values : list ParameterValue) (state : bytes) (logs : list sdkLog)
  (recvErr : error) :
  Running (daemon w) ctx job ->
  (forall n u, env n _ (UpdateJob_Send u) = None) ->
  env (clock w) _ (Provision provisioner (jobContext ctx) (WorkDirectory opts)
                     values state)
  = inl (mkStream (map Provision_Response_Log logs) recvErr) ->
  exists w' evs,
    exec env (runWorkspaceProvision Quote opts ctx provisioner values state) w
    = Done tt w' /\
    trace w' = trace w ++ evs /\
    Forall2 (provisionLogOf (JobId job)) logs (omap updateSent evs) /\
    terminals evs
    = [T_Cancel (JobId job)
         ("provisioner daemon: "
          +:+ ("recv workspace provision: " +:+ Error recvErr))].
Proof.
  intros R Hsend Hprov. destruct w as [p n tr sp]; cbn in *.
  unfold runWorkspaceProvision. cbn. rewrite Hprov. cbn. rewrite exec_mbind.
  rewrite <- (app_nil_r (map Provision_Response_Log logs)).
  match goal with |- context [exec env _ (mkWorld p ?n1 ?tr1 sp)] =>
    destruct (provisionLoop_logs env ctx job p [] recvErr sp R Hsend logs n1 tr1)
      as (evs & n' & Hex & Hlogs & Hdone & HT) end.
  rewrite Hex. cbn.
  rewrite (exec_cancelActiveJob_running env _ p _ _ sp ctx job
             (running_flag R) (running_cancelled R) (running_cancel R)
             (running_job R)).
  cbn. eexists _, _. split; [reflexivity | ]. cbn.
  rewrite <- !app_assoc. split; [reflexivity | ].
  rewrite !omap_app, !terminals_app. cbn. rewrite HT, app_nil_r.
  split; [exact Hlogs | reflexivity].
Qed.

End Streams.

(** ** The path of an entry *)

Lemma Split_nonempty (s : string) : Split s <> [].
Proof.
  induction s as [ | c s IH]; cbn; [discriminate | ].
  destruct (Ascii.eqb c "/"); [discriminate | ].
  destruct (Split s); [contradiction | discriminate].
Qed.

Lemma Split_app (a b : string) : Split (a +:+ "/" +:+ b) = Split a ++ Split b.
Proof.
  induction a as [ | c a IH]; [reflexivity | ].
  change (String c a +:+ "/" +:+ b) with (String c (a +:+ "/" +:+ b)).
  cbn [Split]. rewrite IH.
  destruct (Ascii.eqb c "/"); [reflexivity | ].
  pose proof (Split_nonempty a) as Hne.
  destruct (Split a) as [ | e es]; [contradiction | reflexivity].
Qed.

Lemma Split_elements (s : string) : Forall (fun e => Split e = [e]) (Split s).
Proof.
  induction s as [ | c s IH]; cbn [Split].
  - repeat constructor.
  - destruct (Ascii.eqb c "/") eqn:Hc; [constructor; [reflexivity | exact IH] | ].
    pose proof (Split_nonempty s) as Hne.
    destruct (Split s) as [ | e es]; [contradiction | ].
    inversion IH as [ | ? ? He Hes]; subst. constructor; [ | exact Hes].
    cbn [Split]. rewrite Hc, He. reflexivity.
Qed.

Lemma Split_concat (l : list string) :
  Forall (fun e => Split e = [e]) l ->
  Split (String.concat "/" l) = match l with [] => [EmptyString] | _ => l end.
Proof.
  induction 1 as [ | x l Hx Hl IH]; [reflexivity | ].
  destruct l as [ | y l]; [exact Hx | ].
  change (String.concat "/" (x :: y :: l))
    with (x +:+ "/" +:+ String.concat "/" (y :: l)).
  rewrite Split_app, Hx, IH. reflexivity.
Qed.

Lemma cleanElems_app (rooted : bool) (xs ys : list string) :
  forall out : list string,
    cleanElems rooted out (xs ++ ys)
    = cleanElems rooted (rev (cleanElems rooted out xs)) ys.
Proof.
  induction xs as [ | e xs IH]; intros out; cbn [app cleanElems].
  - rewrite rev_involutive. reflexivity.
  - destruct (String.eqb e EmptyString || String.eqb e "."); [apply IH | ].
    destruct (String.eqb e ".."); [ | apply IH].
    destruct out as [ | top out]; [destruct rooted; apply IH | ].
    destruct (String.eqb top ".."); apply IH.
Qed.

Lemma cleanElems_kept (rooted : bool) (ys : list string) :
  forallb (fun e => negb (String.eqb e "..")) ys = true ->
  forall out : list string,
    cleanElems rooted out ys = rev out ++ List.filter kept ys.
Proof.
  induction ys as [ | e ys IH]; intros H out; cbn [cleanElems List.filter].
  - symmetry. apply app_nil_r.
  - cbn in H. apply andb_true_iff in H as [He Hys]. unfold kept at 1.
    destruct (String.eqb e EmptyString || String.eqb e "."); cbn [negb]; [apply IH; exact Hys | ].
    apply negb_true_iff in He. rewrite He.
    rewrite (IH Hys). cbn [rev]. rewrite <- app_assoc. reflexivity.
Qed.

Lemma cleanElems_rooted_plain (xs : list string) :
  forall out : list string,
    forallb plain out = true ->
    forallb plain (cleanElems true out xs) = true.
Proof.
  induction xs as [ | e xs IH]; intros out Hout; cbn [cleanElems].
  - rewrite forallb_forall in *. intros x Hx. apply Hout. apply in_rev. exact Hx.
  - destruct (String.eqb e EmptyString || String.eqb e ".") eqn:Hk; [apply IH; exact Hout | ].
    destruct (String.eqb e "..") eqn:Hd.
    + destruct out as [ | top out]; [apply IH; reflexivity | ].
      cbn in Hout. apply andb_true_iff in Hout as [Htop Hout].
      destruct (String.eqb top "..") eqn:Ht.
      * unfold plain in Htop. rewrite Ht, andb_false_r in Htop. discriminate.
      * apply IH. exact Hout.
    + apply IH. cbn. unfold plain at 1, kept. rewrite Hk, Hd. exact Hout.
Qed.

Lemma cleanElems_Forall (P : string -> Prop) (rooted : bool) (xs : list string) :
  Forall P xs ->
  forall out : list string, Forall P out -> Forall P (cleanElems rooted out xs).
Proof.
  induction 1 as [ | e xs He Hxs IH]; intros out Hout; cbn [cleanElems].
  - apply Forall_rev. exact Hout.
  - destruct (String.eqb e EmptyString || String.eqb e "."); [apply IH; exact Hout | ].
    destruct (String.eqb e "..").
    + destruct out as [ | top out].
      * destruct rooted; apply IH; repeat constructor; assumption.
      * inversion Hout; subst.
        destruct (String.eqb top ".."); apply IH; repeat constructor; assumption.
    + apply IH. constructor; assumption.
Qed.

Lemma filter_plain (l : list string) :
  forallb plain l = true -> List.filter kept l = l.
Proof.
  induction l as [ | e l IH]; [reflexivity | ]. cbn. intros H.
  apply andb_true_iff in H as [He Hl]. unfold plain in He.
  apply andb_true_iff in He as [He _]. rewrite He, (IH Hl). reflexivity.
Qed.

Lemma plain_noDotDot (l : list string) :
  forallb plain l = true ->
  forallb (fun e => negb (String.eqb e "..")) l = true.
Proof.
  rewrite !forallb_forall. intros H x Hx. specialize (H x Hx).
  unfold plain in H. apply andb_true_iff in H as [_ H]. exact H.
Qed.

Lemma prefix_app (s t : string) : String.prefix s (s +:+ t) = true.
Proof.
  induction s as [ | c s IH]; [destruct t; reflexivity | ].
  change (String.prefix (String c s) (String c s +:+ t))
    with (match ascii_dec c c with
          | left _ => String.prefix s (s +:+ t)
          | right _ => false
          end).
  destruct (ascii_dec c c); [exact IH | contradiction].
Qed.

Lemma prefix_cancel (s t1 t2 : string) :
  String.prefix (s +:+ t1) (s +:+ t2) = String.prefix t1 t2.
Proof.
  induction s as [ | c s IH]; [reflexivity | ].
  change (String.prefix (String c s +:+ t1) (String c s +:+ t2))
    with (match ascii_dec c c with
          | left _ => String.prefix (s +:+ t1) (s +:+ t2)
          | right _ => false
          end).
  destruct (ascii_dec c c); [exact IH | contradiction].
Qed.

Lemma append_nil_r (s : string) : s +:+ EmptyString = s.
Proof.
  induction s as [ | c s IH]; [reflexivity | ].
  change (String c s +:+ EmptyString) with (String c (s +:+ EmptyString)). rewrite IH. reflexivity.
Qed.

Lemma concat_prefix (l1 l2 : list string) :
  String.prefix (String.concat "/" l1) (String.concat "/" (l1 ++ l2)) = true.
Proof.
  induction l1 as [ | x l1 IH]; [destruct (String.concat "/" ([] ++ l2)); reflexivity | ].
  destruct l1 as [ | y l1].
  - cbn [app]. destruct l2 as [ | z l2].
    + cbn. rewrite <- (append_nil_r x) at 2. apply prefix_app.
    + change (String.concat "/" (x :: z :: l2))
        with (x +:+ "/" +:+ String.concat "/" (z :: l2)).
      apply prefix_app.
  - change (String.concat "/" (x :: y :: l1))
      with (x +:+ "/" +:+ String.concat "/" (y :: l1)).
    change (String.concat "/" ((x :: y :: l1) ++ l2))
      with (x +:+ "/" +:+ String.concat "/" ((y :: l1) ++ l2)).
    rewrite !prefix_cancel. exact IH.
Qed.

Lemma dropPrefix_app (l1 l2 : list string) : dropPrefix l1 (l1 ++ l2) = Some l2.
Proof.
  induction l1 as [ | x l1 IH]; cbn; [reflexivity | ].
  rewrite String.eqb_refl. exact IH.
Qed.

Lemma IsAbs_app (a b : string) : IsAbs a = true -> IsAbs (a +:+ b) = true.
Proof. destruct a; [discriminate | intros H; exact H]. Qed.

(** The elements of the path of an entry whose name has no [".."]: those of
    the work directory, then those of the name. *)
Lemma elements_join (wd name : string) :
  wd <> EmptyString ->
  noDotDot name = true ->
  elements (wd +:+ "/" +:+ name) = elements wd ++ List.filter kept (Split name).
Proof.
  intros Hwd Hname. unfold elements.
  assert (Habs : IsAbs (wd +:+ "/" +:+ name) = IsAbs wd).
  { destruct wd; [contradiction | reflexivity]. }
  rewrite Habs, Split_app, cleanElems_app, (cleanElems_kept _ _ Hname).
  rewrite rev_involutive. reflexivity.
Qed.

(** A rooted path cleaned once more has the same elements. *)
Lemma elements_rooted (l : list string) :
  Forall (fun e => Split e = [e]) l ->
  forallb plain l = true ->
  elements ("/" +:+ String.concat "/" l) = l.
Proof.
  intros Hsplit Hplain. unfold elements.
  change (Split ("/" +:+ String.concat "/" l))
    with (EmptyString :: Split (String.concat "/" l)).
  change (IsAbs ("/" +:+ String.concat "/" l)) with true.
  rewrite (Split_concat l Hsplit). destruct l as [ | x l]; [reflexivity | ].
  change (cleanElems true [] (EmptyString :: x :: l))
    with (cleanElems true [] (x :: l)).
  rewrite (cleanElems_kept true (x :: l) (plain_noDotDot _ Hplain)).
  cbn [rev app]. apply filter_plain. exact Hplain.
Qed.

Section Check.

Variable opts : Options.

(** The path of an entry with a plain name, below an absolute work
    directory. *)
Lemma entryPath_plain (e : Entry) :
  IsAbs (WorkDirectory opts) = true ->
  noDotDot (Name (Hdr e)) = true ->
  entryPath opts e
  = "/" +:+ String.concat "/" (elements (WorkDirectory opts)
                               ++ List.filter kept (Split (Name (Hdr e)))).
Proof.
  intros Habs Hname.
  set (wd := WorkDirectory opts) in *. set (name := Name (Hdr e)) in *.
  assert (Hwd : wd <> EmptyString) by (destruct wd; discriminate).
  unfold entryPath, Join. fold wd name.
  destruct (String.eqb_spec wd EmptyString); [contradiction | ]. cbn [negb].
  unfold Clean. rewrite (IsAbs_app _ _ Habs), (elements_join wd name Hwd Hname).
  reflexivity.
Qed.

Lemma inWorkDirectory_plain (e : Entry) :
  IsAbs (WorkDirectory opts) = true ->
  noDotDot (Name (Hdr e)) = true ->
  inWorkDirectory opts e = true.
Proof.
  intros Habs Hname. unfold inWorkDirectory, HasPrefix.
  rewrite (entryPath_plain e Habs Hname). unfold Clean. rewrite Habs.
  change (String.eqb ("/" +:+ _) EmptyString) with false. cbn iota.
  rewrite prefix_cancel. apply concat_prefix.
Qed.

(** X8.  With an absolute work directory, an entry whose name has no [".."]
    element always passes the check of its path, and its path lies under the
    work directory: the check rejects no such entry. *)
Theorem plain_name_passes_check (e : Entry) :
  IsAbs (WorkDirectory opts) = true ->
  noDotDot (Name (Hdr e)) = true ->
  inWorkDirectory opts e = true /\
  liesUnder (WorkDirectory opts) (entryPath opts e) = true.
Proof.
  intros Habs Hname. split; [apply inWorkDirectory_plain; assumption | ].
  rewrite (entryPath_plain e Habs Hname).
  set (wd := WorkDirectory opts) in *. set (name := Name (Hdr e)) in *.
  unfold liesUnder.
  change (IsAbs ("/" +:+ _)) with true. rewrite Habs. cbn [Bool.eqb andb].
  assert (Hplain_wd : forallb plain (elements wd) = true).
  { unfold elements. rewrite Habs. apply cleanElems_rooted_plain. reflexivity. }
  assert (Hplain_name : forallb plain (List.filter kept (Split name)) = true).
  { unfold noDotDot in Hname. rewrite forallb_forall in *. intros x Hx.
    apply List.filter_In in Hx as [Hin Hk]. unfold plain. rewrite Hk.
    apply (Hname x Hin). }
  rewrite elements_rooted.
  - rewrite dropPrefix_app. apply negb_true_iff.
    apply not_true_iff_false. intros Hex. apply existsb_exists in Hex as (x & Hx & Hd).
    rewrite forallb_forall in Hplain_name. specialize (Hplain_name x Hx).
    unfold plain in Hplain_name. apply andb_true_iff in Hplain_name as [_ Hn].
    apply String.eqb_eq in Hd. subst x. discriminate.
  - apply Forall_app. split.
    + unfold elements. apply cleanElems_Forall; [apply Split_elements | constructor].
    + pose proof (Split_elements name) as Hs. rewrite List.Forall_forall in *.
      intros x Hx. apply List.filter_In in Hx as [Hin _]. apply Hs. exact Hin.
  - rewrite forallb_app, Hplain_wd, Hplain_name. reflexivity.
Qed.

End Check.

(** ** The terminal calls of a job *)

Section Terminals.

Variable Quote : string -> string.
Variable opts : Options.

Lemma JobEnd_namesJob (jobId : string) (ctx : nat) (p p' : provisionerDaemon)
  (T : list Terminal) :
  JobEnd jobId ctx p T p' -> forallb (namesJob jobId) T = true.
Proof.
  intros [msg | | err]; cbn; rewrite ?String.eqb_refl; unfold HasPrefix;
    rewrite ?prefix_app; reflexivity.
Qed.

(** X9.  A job served in turn ([serve]: [acquireJob] on an idle daemon,
    then the runner, then the cleanup goroutine, each run to its end with no
    other goroutine of the daemon in between): every terminal call of the
    run carries the id of the job that was acquired, at least one is sent,
    and the message of every [CancelJob] starts with "provisioner daemon: ",
    also when [CompleteJob] or the removal of the work directory fails.
    Nothing is said of a run in which a poll or [Close] takes a turn in
    between. *)
Theorem terminal_calls_name_the_job (env : Env) (w : World) (job : AcquiredJob) :
  Idle (daemon w) ->
  spawned w = [] ->
  env (clock w) _ (AcquireJob closeContext) = inl job ->
  JobId job <> EmptyString ->
  jobTyped job = true ->
  typedStreams env ->
  exists w' evs,
    serve Quote opts env w = Some w' /\
    trace w' = trace w ++ evs /\
    terminals evs <> [] /\
    forallb (namesJob (JobId job)) (terminals evs) = true.
Proof.
  intros HI Hsp Henv Hid Hjob Hty.
  destruct (serve_runs Quote opts env w job HI Hsp Henv Hid Hjob Hty)
    as (w1 & w2 & w3 & ctx & evs & T & d & _ & R & _ & Htr1 & _ & Htr2 & HT & HE
        & HEnd & E3 & Hserve).
  destruct (cleanup_ends Quote opts env ctx job (daemon w1) (daemon w2) (cancelSent T)
              (clock w2) (trace w2) [] R HEnd)
    as (w3' & r & resp & E3' & Htr3 & _).
  rewrite E3 in E3'. injection E3' as <-.
  eexists w3, _. split; [exact Hserve | ].
  split; [rewrite Htr3, Htr2, Htr1, <- !app_assoc; reflexivity | ].
  cbn [app]. change (terminals (Called (AcquireJob closeContext) (inl job) :: ?l))
    with (terminals l).
  rewrite terminals_app, HT. split.
  - destruct HE; discriminate.
  - rewrite forallb_app, (JobEnd_namesJob _ _ _ _ _ HE). cbn [andb].
    destruct r as [err | ]; [ | reflexivity].
    destruct (cancelSent T); [reflexivity | ].
    cbn. rewrite String.eqb_refl. unfold HasPrefix. rewrite prefix_app. reflexivity.
Qed.

End Terminals.

(** ** Unpacking an archive *)

Section Archive.

Variable Quote : string -> string.
Variable opts : Options.

Lemma copyFile_succeeds (env : Env) (e : Entry) (p : provisionerDaemon)
  (n : nat) (tr : list Event) (sp : list Task) :
  fsWorks env ->
  DataErr e = EOF ->
  exists evs n',
    exec env (copyFile Quote (entryPath opts e) e) (mkWorld p n tr sp)
    = Done None (mkWorld p n' (tr ++ evs) sp) /\
    omap createdWith evs = [].
Proof.
  intros Hfs Hdata. unfold copyFile.
  assert (Hres : forall written,
             written = None ->
             (let '(size, err) := CopyN_result e maxFileSize written in
              match err with
              | Some err => if isEOF err then None else Some err
              | None => None
              end) = None).
  { intros written ->. unfold CopyN_result.
    destruct (Z.leb maxFileSize (Size (Hdr e))); [reflexivity | ].
    rewrite Hdata. reflexivity. }
  destruct (Z.leb (offered e maxFileSize) 0); cbn.
  - specialize (Hres None eq_refl).
    destruct (CopyN_result e maxFileSize None) as [size err]. rewrite Hres. cbn.
    destruct (Hfs n) as (_ & _ & _ & Hclose). rewrite Hclose.
    eexists [_], _. split; reflexivity.
  - destruct (Hfs n) as (_ & _ & Hwrite & _). rewrite Hwrite.
    specialize (Hres None eq_refl).
    destruct (CopyN_result e maxFileSize None) as [size err]. rewrite Hres. cbn.
    destruct (Hfs (S n)) as (_ & _ & _ & Hclose). rewrite Hclose.
    eexists [_; _], _. rewrite <- app_assoc. split; reflexivity.
Qed.

(** X10.  With an absolute work directory and a file system whose calls
    succeed, an archive whose names have no [".."] element and whose data
    streams end with [io.EOF] is unpacked completely: [unpack] reaches the
    end of the archive, and creates exactly the directories and regular files
    of the archive, in order, each at its path and with its mode; entries of
    any other type (links, devices) create nothing. *)
Theorem plain_archive_unpacks (env : Env) (entries : list Entry) :
  IsAbs (WorkDirectory opts) = true ->
  fsWorks env ->
  Forall (fun e => noDotDot (Name (Hdr e)) = true /\ DataErr e = EOF) entries ->
  forall w : World,
  exists w' evs,
    exec env (unpack Quote opts entries EOF) w = Done None w' /\
    trace w' = trace w ++ evs /\
    omap createdWith evs
    = map (fun e => (entryPath opts e, entryMode e)) (List.filter isCreated entries).
Proof.
  intros Habs Hfs Hall.
  induction Hall as [ | e entries [Hname Hdata] Hall IH]; intros w.
  - exists w, []. cbn. rewrite app_nil_r. repeat split.
  - rewrite unpack_cons. rewrite (inWorkDirectory_plain opts e Habs Hname).
    cbn [negb List.filter]. unfold isCreated at 1.
    destruct w as [p n tr sp].
    destruct (Z.eqb (Typeflag (Hdr e)) TypeDir); cbn [orb].
    + cbn. destruct (Hfs n) as (Hmk & _). rewrite Hmk.
      match goal with |- context [exec env _ ?w1] =>
        destruct (IH w1) as (w' & evs & Hex & Htr & Hcr) end.
      exists w', (Called (MkdirAll (entryPath opts e) (entryMode e)) None :: evs).
      split; [exact Hex | ]. cbn in *. rewrite Htr, <- app_assoc.
      split; [reflexivity | ]. rewrite Hcr. reflexivity.
    + destruct (Z.eqb (Typeflag (Hdr e)) TypeReg).
      * cbn. destruct (Hfs n) as (_ & Hopen & _). rewrite Hopen.
        rewrite exec_bind.
        match goal with |- context [exec env (copyFile _ _ _) (mkWorld p ?n1 ?tr1 sp)] =>
          destruct (copyFile_succeeds env e p n1 tr1 sp Hfs Hdata)
            as (evs1 & n' & Hex1 & Hcr1) end.
        rewrite Hex1.
        match goal with |- context [exec env (unpack _ _ _ _) ?w1] =>
          destruct (IH w1) as (w' & evs & Hex & Htr & Hcr) end.
        exists w', (Called (OpenFile (entryPath opts e) (Z.lor O_CREATE O_RDWR)
                             (entryMode e)) None :: evs1 ++ evs).
        split; [exact Hex | ]. cbn in *. rewrite Htr, <- !app_assoc.
        split; [reflexivity | ]. rewrite omap_app, Hcr1, Hcr. reflexivity.
      * apply IH.
Qed.

End Archive.

Section Unpacking.

Variable Quote : string -> string.
Variable opts : Options.

Local Abbreviation entryPath := (entryPath opts).
Local Abbreviation inWorkDirectory := (inWorkDirectory opts).
Local Abbreviation unpackEvent := (unpackEvent opts).
Local Abbreviation unpackEvents := (unpackEvents opts).

(** X11.  Unpacking goes entry by entry: when the first entries of an archive
    unpack without failure, the rest is unpacked in the world they left; when
    one of them fails, [unpack] stops there with its message and no later
    entry is touched. *)
Theorem unpack_in_sequence (env : Env) (pre rest : list Entry) (nextErr : error) :
  forall (w w1 : World) (r : option string),
    exec env (unpack Quote opts pre EOF) w = Done r w1 ->
    exec env (unpack Quote opts (pre ++ rest) nextErr) w =
    match r with
    | Some msg => Done (Some msg) w1
    | None => exec env (unpack Quote opts rest nextErr) w1
    end.
Proof.
  induction pre as [ | e pre IH]; intros w w1 r H.
  - cbn in H. injection H as <- <-. reflexivity.
  - cbn [app]. rewrite unpack_cons in *.
    destruct (negb (inWorkDirectory e)).
    { cbn in *. injection H as <- <-. reflexivity. }
    destruct (Z.eqb (Typeflag (Hdr e)) TypeDir).
    { cbn in *. destruct (env (clock w) _ (MkdirAll _ _)).
      - cbn in *. injection H as <- <-. reflexivity.
      - apply IH. exact H. }
    destruct (Z.eqb (Typeflag (Hdr e)) TypeReg); [ | apply IH; exact H].
    cbn in *. destruct (env (clock w) _ (OpenFile _ _ _)).
    { cbn in *. injection H as <- <-. reflexivity. }
    rewrite exec_bind in *.
    destruct (exec env (copyFile Quote (entryPath e) e) _) as [[msg | ] w2 | | ];
      try discriminate.
    + cbn in *. injection H as <- <-. reflexivity.
    + apply IH. exact H.
Qed.

Lemma unpackEvent_fsPath (e : Entry) (ev : Event) :
  unpackEvent e ev -> fsPath ev = Some (entryPath e).
Proof. intros []; reflexivity. Qed.

(** X12.  Whatever the archive and whatever the file system answers, [unpack]
    returns; it leaves the fields of the daemon alone and starts no
    goroutine; every call it makes is a call to the file system at a path that
    starts with the cleaned work directory; every write is of at most 10 MiB;
    it sends neither [CompleteJob] nor [CancelJob]. *)
Theorem unpack_is_confined (env : Env) (entries : list Entry) (nextErr : error)
  (w : World) :
  exists r evs,
    exec env (unpack Quote opts entries nextErr) w
    = Done r (mkWorld (daemon w) (length evs + clock w) (trace w ++ evs) (spawned w)) /\
    Forall (fun ev => exists path,
                fsPath ev = Some path /\
                HasPrefix path (Clean (WorkDirectory opts)) = true) evs /\
    Forall (fun n => 0 < n <= maxFileSize) (omap bytesWritten evs) /\
    terminals evs = [].
Proof.
  destruct w as [p n tr sp].
  destruct (unpack_runs Quote opts env entries nextErr p sp n tr)
    as (r & evs & Hex & Hevs).
  exists r, evs. split; [exact Hex | ]. split; [ | split].
  - revert Hevs. apply List.Forall_impl. intros ev (e & _ & Hok & Hev).
    exists (entryPath e). split; [apply unpackEvent_fsPath; exact Hev | exact Hok].
  - apply (unpackEvents_writes opts entries). exact Hevs.
  - apply (unpackEvents_terminals opts entries). exact Hevs.
Qed.

(** X13.  A job for which [os.MkdirAll] fails on the work directory, served
    in turn ([serve]: [acquireJob] on an idle daemon, then the runner, then
    the cleanup goroutine, with no other goroutine of the daemon in between):
    from acquire to cleanup the daemon calls [AcquireJob], [os.MkdirAll],
    [CancelJob] with the id of the job and the message "create work
    directory %q: %s", and [os.RemoveAll], and nothing else; nothing is
    unpacked and no provisioner is contacted. *)
Theorem work_directory_failure_cancels_job (env : Env) (w : World)
  (job : AcquiredJob) (provisioner : ProvisionerClient) (err : error) :
  Idle (daemon w) ->
  spawned w = [] ->
  env (clock w) _ (AcquireJob closeContext) = inl job ->
  JobId job <> EmptyString ->
  Provisioners opts !! Provisioner job = Some provisioner ->
  env (S (clock w)) _ (MkdirAll (WorkDirectory opts) 384) = Some err ->
  exists w' r r',
    serve Quote opts env w = Some w' /\
    trace w' =
      trace w ++
      [Called (AcquireJob closeContext) (inl job);
       Called (MkdirAll (WorkDirectory opts) 384) (Some err);
       Called (CancelJob closeContext
                 (mkCancelledJob (JobId job)
                    ("provisioner daemon: "
                     +:+ ("create work directory " +:+ Quote (WorkDirectory opts)
                          +:+ ": " +:+ Error err))))
         r;
       Called (RemoveAll (WorkDirectory opts)) r'].
Proof.
  intros HI Hsp Henv Hid Hprov Hmk.
  destruct (exec_acquireJob_job env w job HI Henv Hid)
    as (w1 & ctx & Hex & R & Hcl & Hclock & Htr1 & Hsp1).
  rewrite Hsp in Hsp1. cbn in Hsp1.
  destruct w1 as [p1 n1 tr1 sp1]; cbn in *. subst sp1 tr1 n1.
  pose proof (exec_cancelActiveJob_running env
                ("create work directory " +:+ Quote (WorkDirectory opts)
                 +:+ ": " +:+ Error err)
                p1 (S (S (clock w)))
                ((trace w ++ [Called (AcquireJob closeContext) (inl job)])
                 ++ [Called (MkdirAll (WorkDirectory opts) 384) (Some err)])
                [Task_cleanup ctx] ctx job
                (running_flag R) (running_cancelled R) (running_cancel R)
                (running_job R)) as E2.
  match type of E2 with _ = Done tt (mkWorld ?p2 ?n2 ?tr2 _) =>
    destruct (cleanup_ends Quote opts env ctx job p1 p2 true n2 tr2 [] R
                (Ended_cancelled _ _ _ R))
      as (w3 & r' & resp & E3 & Htr3 & Hsp3 & _)
  end.
  eexists w3, _, r'.
  split.
  - unfold serve. rewrite Hex. cbn. unfold runJob. cbn.
    rewrite (running_job R). cbn. rewrite Hprov. cbn. rewrite Hmk, E2. cbn.
    rewrite E3, Hsp3. reflexivity.
  - rewrite Htr3. destruct r'; cbn; rewrite <- !app_assoc; reflexivity.
Qed.

(** X14.  A job whose [Type] is not set makes the runner panic once the archive
    is unpacked: [reflect.TypeOf(nil)] is [nil] and its [String] method is
    called.  No [CancelJob] and no [CompleteJob] has been sent by then, and
    the fields of the daemon are as the acquire left them: the job is still
    marked running. *)
Theorem untyped_job_panics (env : Env) (w w1 : World) (ctx : nat)
  (job : AcquiredJob) (provisioner : ProvisionerClient) :
  Running (daemon w) ctx job ->
  Provisioners opts !! Provisioner job = Some provisioner ->
  Type_ job = AcquiredJob_nil ->
  env (clock w) _ (MkdirAll (WorkDirectory opts) 384) = None ->
  exec env (unpack Quote opts (Entries (ProjectSourceArchive job))
              (NextErr (ProjectSourceArchive job)))
    (mkWorld (daemon w) (S (clock w))
       (trace w ++ [Called (MkdirAll (WorkDirectory opts) 384) None])
       (spawned w ++ [Task_cleanup ctx])) = Done None w1 ->
  exec env (runJob Quote opts ctx) w
  = Panicked "invalid memory address or nil pointer dereference" w1 /\
  daemon w1 = daemon w /\
  exists evs, trace w1 = trace w ++ evs /\ terminals evs = [].
Proof.
  intros R Hprov Hty Hmk Hun. destruct w as [p n tr sp]; cbn in *.
  split.
  - unfold runJob. cbn. rewrite (running_job R). cbn. rewrite Hprov. cbn.
    rewrite Hmk. cbn. rewrite (running_job R). cbn. rewrite exec_mbind, Hun.
    cbn. destruct w1 as [p1 n1 tr1 sp1]. cbn.
    destruct (unpack_runs Quote opts env (Entries (ProjectSourceArchive job))
                (NextErr (ProjectSourceArchive job)) p (sp ++ [Task_cleanup ctx])
                (S n) (tr ++ [Called (MkdirAll (WorkDirectory opts) 384) None]))
      as (r & evs & Hex & Hevs).
    rewrite Hex in Hun. injection Hun as _ <- _ _ _.
    rewrite (running_job R). cbn. rewrite Hty. reflexivity.
  - destruct (unpack_runs Quote opts env (Entries (ProjectSourceArchive job))
                (NextErr (ProjectSourceArchive job)) p (sp ++ [Task_cleanup ctx])
                (S n) (tr ++ [Called (MkdirAll (WorkDirectory opts) 384) None]))
      as (r & evs & Hex & Hevs).
    rewrite Hex in Hun. injection Hun as _ <-. cbn. split; [reflexivity | ].
    eexists. rewrite <- app_assoc. split; [reflexivity | ].
    rewrite terminals_app, (unpackEvents_terminals opts _ _ Hevs). reflexivity.
Qed.

End Unpacking.

(** ** Cancelling and closing *)

(** X15.  [cancelActiveJob] cancels a job once: a second call right after a
    first one sends nothing and changes nothing, whatever the state of the
    daemon and whatever the two messages. *)
Theorem cancelActiveJob_once (env : Env) (msg msg' : string) (w : World) :
  exec env (cancelActiveJob msg;; cancelActiveJob msg') w
  = exec env (cancelActiveJob msg) w.
Proof.
  rewrite exec_mbind. destruct w as [p n tr sp].
  destruct (acquiredJobRunning p) eqn:Hr.
  2:{ rewrite !exec_cancelActiveJob_skip by (left; exact Hr). reflexivity. }
  destruct (acquiredJobCancelled p) eqn:Hc.
  { rewrite !exec_cancelActiveJob_skip by (right; exact Hc). reflexivity. }
  destruct (acquiredJobCancel p) as [ctx | ] eqn:Hk.
  2:{ unfold cancelActiveJob, callAcquiredJobCancel. cbn. rewrite Hr. cbn.
      rewrite Hc. cbn. rewrite Hk. reflexivity. }
  destruct (acquiredJob p) as [job | ] eqn:Hj.
  2:{ unfold cancelActiveJob, callAcquiredJobCancel. cbn. rewrite Hr. cbn.
      rewrite Hc. cbn. rewrite Hk. cbn. rewrite Hj. reflexivity. }
  rewrite (exec_cancelActiveJob_running env msg p n tr sp ctx job Hr Hc Hk Hj).
  apply exec_cancelActiveJob_skip. right. destruct p; reflexivity.
Qed.

(** X16.  [closeWithError err] on a daemon that is not closed and runs no job
    returns [err]: it records [err], closes [p.closed], cancels the context of
    the daemon and, when the update stream exists, closes the connection and
    the stream; what these two calls return is ignored.  It sends no
    [CancelJob] and starts no goroutine. *)
Theorem close_idle_daemon (env : Env) (err : option error) (w : World) :
  closed (daemon w) = false ->
  closeMutex (daemon w) = false ->
  acquiredJobRunning (daemon w) = false ->
  exists w',
    exec env (closeWithError err) w = Done err w' /\
    daemon w' =
      set_closeCancelled true (set_closed true (set_closeError err (daemon w))) /\
    spawned w' = spawned w /\
    trace w' =
      trace w ++
      if updateStream (daemon w)
      then [Called ConnClose (env (clock w) _ ConnClose);
            Called UpdateStreamClose (env (S (clock w)) _ UpdateStreamClose)]
      else [].
Proof.
  intros Hcl Hmu Hrun.
  destruct w as [[us cc cl cm ce aj am ak ac ar ad cs chs] n tr sp]; cbn in *.
  subst. unfold closeWithError. cbn.
  destruct us; cbn; eexists; (split; [reflexivity | ]); cbn.
  - rewrite <- app_assoc. repeat split.
  - rewrite app_nil_r. repeat split.
Qed.

Section Closing.

Variable Quote : string -> string.
Variable opts : Options.



End Closing.

(** ** Interleavings *)

Section Interleaving.

Variable Quote : string -> string.
Variable opts : Options.

Lemma poolRun_keeps (I : provisionerDaemon -> provisionerDaemon -> Prop)
  (env : Env) :
  (forall p, I p p) ->
  (forall p1 p2 p3, I p1 p2 -> I p2 p3 -> I p1 p3) ->
  (forall t, Keeps I (goroutine Quote opts t)) ->
  forall (schedule : list nat) (pool pool' : list (Go unit)) (w w' : World),
    Forall (Keeps I) pool ->
    poolRun Quote opts env schedule pool w = Some (pool', w') ->
    I (daemon w) (daemon w') /\ Forall (Keeps I) pool'.
Proof.
  intros Hrefl Htrans Hgo.
  induction schedule as [ | i schedule IH]; intros pool pool' w w' Hpool H.
  - cbn in H. injection H as <- <-. split; [apply Hrefl | exact Hpool].
  - cbn in H. unfold poolStep in H.
    destruct (pool !! i) as [m | ] eqn:Hi; [ | discriminate].
    destruct (step1 env m w) as [[m1 w1] | ] eqn:Hs; [ | discriminate].
    assert (Hm : Keeps I m).
    { eapply Forall_lookup_1; [exact Hpool | exact Hi]. }
    destruct (Keeps_step1 I env m m1 w w1 Hrefl Hm Hs) as [HI Hm1].
    apply IH in H.
    + destruct H as [HI' Hpool']. split; [ | exact Hpool'].
      eapply Htrans; [exact HI | exact HI'].
    + apply Forall_app. split.
      * apply Forall_insert; assumption.
      * apply Forall_map. apply Forall_forall. intros t _. apply Hgo.
Qed.

Lemma Keeps_enter_staysClosed (c : EntryPoint) : Keeps staysClosed (enter c).
Proof.
  destruct c; cbn.
  - apply (Keeps_weaken sameClosing staysClosed _ sameClosing_staysClosed).
    apply Keeps_acquireJob.
  - apply Keeps_bind; [apply Keeps_closeWithError | intros; constructor].
Qed.

(** X18.  Once [p.closed] is closed it stays closed, however the polls, the
    calls of [Close] and the goroutines of jobs interleave, operation by
    operation. *)
Theorem closed_under_every_interleaving (env : Env) (schedule : list nat)
  (pool pool' : list (Go unit)) (w w' : World) :
  Forall (daemonCode Quote opts) pool ->
  poolRun Quote opts env schedule pool w = Some (pool', w') ->
  closed (daemon w) = true ->
  closed (daemon w') = true.
Proof.
  intros Hpool H.
  assert (Hgo : forall t, Keeps staysClosed (goroutine Quote opts t)).
  { intros t. apply (Keeps_weaken sameClosing staysClosed _ sameClosing_staysClosed).
    apply Keeps_goroutine. }
  refine (proj1 (poolRun_keeps staysClosed env _ _ Hgo schedule pool pool' w w' _ H)).
  - intros p Hp. exact Hp.
  - intros p1 p2 p3 H12 H23 Hp. auto.
  - revert Hpool. apply List.Forall_impl. intros m [[c ->] | [t ->]];
      [apply Keeps_enter_staysClosed | apply Hgo].
Qed.

(** X19.  The poller and the goroutines of jobs, however they interleave,
    never write [p.closed], [p.closeError] or [p.closeMutex]: only [Close]
    does. *)
Theorem only_Close_writes_its_fields (env : Env) (schedule : list nat)
  (pool pool' : list (Go unit)) (w w' : World) :
  Forall (jobCode Quote opts) pool ->
  poolRun Quote opts env schedule pool w = Some (pool', w') ->
  closed (daemon w') = closed (daemon w) /\
  closeError (daemon w') = closeError (daemon w) /\
  closeMutex (daemon w') = closeMutex (daemon w).
Proof.
  intros Hpool H.
  refine (proj1 (poolRun_keeps sameClosing env _ _ (Keeps_goroutine Quote opts)
                   schedule pool pool' w w' _ H)).
  - intros p. repeat split.
  - intros p1 p2 p3 (? & ? & ?) (? & ? & ?). repeat split; congruence.
  - revert Hpool. apply List.Forall_impl. intros m [-> | [t ->]];
      [apply Keeps_acquireJob | apply Keeps_goroutine].
Qed.

End Interleaving.

(* ===================================================================== *)
(** * The code on concrete jobs                                           *)
(* ===================================================================== *)

Module Runs.

Import Scenario.

(** C1.  The check of an entry's path compares strings, not path elements:
    with the work directory [/tmp/work], the entry [../work-evil] has the
    path [/tmp/work-evil], which starts with [/tmp/work] and lies outside it.
    The file is created there and the job completes.  With the work directory
    [/e], the entry [../../../etc/passwd] is created at [/etc/passwd]. *)
Theorem extraction_escapes_work_directory :
  (exists w,
     serve goQuote opts (calm (importJob [file "../work-evil" 7])) fresh = Some w /\
     createdPaths (trace w) = ["/tmp/work"; "/tmp/work-evil"] /\
     liesUnder "/tmp/work" "/tmp/work-evil" = false /\
     terminals (trace w) = [T_Complete "test" true]) /\
  (exists w,
     serve goQuote (optsAt "/e") (calm (importJob [file "../../../etc/passwd" 7]))
       fresh = Some w /\
     createdPaths (trace w) = ["/e"; "/etc/passwd"] /\
     liesUnder "/e" "/etc/passwd" = false /\
     terminals (trace w) = [T_Complete "test" true]).
Proof. split; eexists; vm_compute; repeat split. Qed.

(** The test [MaliciousTar]: with the work directory [/tmp/work] the entry
    [../../../etc/passwd] is refused and the job cancelled. *)
Example malicious_tar :
  exists w,
    serve goQuote opts (calm (importJob [file "../../../etc/passwd" 7])) fresh
    = Some w /\
    createdPaths (trace w) = ["/tmp/work"] /\
    terminals (trace w) =
      [T_Cancel "test"
         "provisioner daemon: tar attempts to target relative upper directory"].
Proof. eexists; vm_compute; repeat split. Qed.

(** When [CompleteJob] returns an error the daemon sends [CancelJob] as
    well, for the same job. *)
Lemma complete_failure_sends_both :
  exists w,
    serve goQuote opts
      (scripted (importJob [file "test.txt" 7]) (Some (errorString "unavailable")) None)
      fresh = Some w /\
    terminals (trace w) =
      [T_Complete "test" false;
       T_Cancel "test" "provisioner daemon: complete job: unavailable"].
Proof. eexists; vm_compute; repeat split. Qed.

(** [Close] between the runner's successful [CompleteJob] and the cleanup
    goroutine finds the job still marked running and not cancelled: it sends
    [CancelJob] for the completed job, then waits for the done channel. *)
Example close_after_complete_sends_both :
  let env := calm (importJob [file "test.txt" 7]) in
  let ran := worldOf (exec env (runJob goQuote opts 0) (acquiredBy env)) in
  isBlocked (exec env Close ran) = true /\
  terminals (trace (worldOf (exec env Close ran))) =
    [T_Complete "test" true;
     T_Cancel "test" "provisioner daemon: provisioner daemon was shutdown gracefully"].
Proof. vm_compute. split; reflexivity. Qed.

(** C3.  When [os.RemoveAll] fails after a completed job, the cleanup
    goroutine cancels the job and returns: the running flag stays true and
    the done channel open.  From then on [acquireJob] skips every acquire and
    [Close] blocks on the done channel. *)
Theorem cleanup_failure_wedges_daemon :
  let env := scripted (importJob [file "test.txt" 7]) None
               (Some (errorString "permission denied")) in
  exists w ch,
    serve goQuote opts env fresh = Some w /\
    acquiredJobRunning (daemon w) = true /\
    acquiredJobDone (daemon w) = Some ch /\
    channelClosed (daemon w) ch = false /\
    terminals (trace w) =
      [T_Complete "test" true;
       T_Cancel "test"
         ("provisioner daemon: "
          +:+ removeFailed goQuote opts (errorString "permission denied"))] /\
    exec env acquireJob w = Done tt w /\
    isBlocked (exec env Close w) = true.
Proof. eexists _, _; vm_compute; repeat split. Qed.



(** C8, as stated, fails: after a job has been served, an acquire that
    finds no job replaces the job in the slot by the empty response. *)
Lemma empty_acquire_overwrites_job :
  let job := importJob [file "test.txt" 7] in
  let w := served opts (calm job) fresh in
  exists w',
    acquiredJob (daemon w) = Some job /\
    exec (calm emptyJob) acquireJob w = Done tt w' /\
    acquiredJob (daemon w') = Some emptyJob /\
    slot (daemon w') <> slot (daemon w).
Proof. eexists; vm_compute; repeat split; discriminate. Qed.

(** ** The theorems at concrete jobs *)

Lemma job_terminal_calls_witness :
  let job := importJob [file "test.txt" 7] in
  exists evs,
    trace (served opts (calm job) fresh) = trace fresh ++ evs /\
    JobOutcome goQuote opts (JobId job) (terminals evs).
Proof.
  apply (job_terminal_calls goQuote opts (calm (importJob [file "test.txt" 7]))
           fresh (served opts (calm (importJob [file "test.txt" 7])) fresh)
           (importJob [file "test.txt" 7])).
  - split; reflexivity.
  - reflexivity.
  - reflexivity.
  - discriminate.
  - vm_compute. reflexivity.
Defined.

Lemma tar_escape_cancels_job_witness :
  let pre := [file "a.txt" 3] in
  let e := file "../../../etc/passwd" 7 in
  let post := [file "b.txt" 5] in
  let job := importJob (pre ++ e :: post) in
  let w := acquiredBy (calm job) in
  let w1 := unpackedIn (calm job) pre
              (mkWorld (daemon w) (S (clock w))
                 (trace w ++ [Called (MkdirAll "/tmp/work" 384) None])
                 (spawned w ++ [Task_cleanup 0])) in
  exists r,
    exec (calm job) (runJob goQuote opts 0) w =
    Done tt
      (mkWorld (cancelContext 0 (set_acquiredJobCancelled true (daemon w)))
         (S (clock w1))
         (trace w1 ++
          [Called (CancelJob closeContext
                     (mkCancelledJob (JobId job)
                        "provisioner daemon: tar attempts to target relative upper directory"))
             r])
         (spawned w ++ [Task_cleanup 0])).
Proof.
  apply (tar_escape_cancels_job goQuote opts
           (calm (importJob ([file "a.txt" 3] ++ file "../../../etc/passwd" 7
                             :: [file "b.txt" 5])))
           _ _ 0%nat _ 0%nat [file "a.txt" 3] [file "b.txt" 5]
           (file "../../../etc/passwd" 7)).
  - constructor; try reflexivity.
    + exists 0%nat. split; [reflexivity | split; [reflexivity | vm_compute; lia]].
    + vm_compute. lia.
  - vm_compute. reflexivity.
  - reflexivity.
  - vm_compute. reflexivity.
  - reflexivity.
  - vm_compute. reflexivity.
Defined.

Lemma unregistered_provisioner_cancels_job_witness :
  let job := mkAcquiredJob "test" "terraform" (mkArchive [] EOF)
               (AcquiredJob_ProjectImport_ EmptyString) in
  exists w' r r',
    serve goQuote opts (calm job) fresh = Some w' /\
    trace w' =
      trace fresh ++
      [Called (AcquireJob closeContext) (inl job);
       Called (CancelJob closeContext
                 (mkCancelledJob (JobId job)
                    ("provisioner daemon: "
                     +:+ ("provisioner " +:+ goQuote (Provisioner job)
                          +:+ " not registered"))))
         r;
       Called (RemoveAll (WorkDirectory opts)) r'].
Proof.
  apply (unregistered_provisioner_cancels_job goQuote opts
           (calm (mkAcquiredJob "test" "terraform" (mkArchive [] EOF)
                    (AcquiredJob_ProjectImport_ EmptyString)))
           fresh).
  - split; reflexivity.
  - reflexivity.
  - reflexivity.
  - discriminate.
  - vm_compute. reflexivity.
Defined.



Lemma empty_acquire_keeps_slot_witness :
  exists w' evs,
    execAll (calm emptyJob) (repeat Tick 3) fresh = Some w' /\
    daemon w' = set_acquiredJob (acquiredJob (daemon w')) (daemon fresh) /\
    (3%nat = 0%nat \/
     exists job, acquiredJob (daemon w') = Some job /\ JobId job = EmptyString) /\
    spawned w' = spawned fresh /\
    trace w' = trace fresh ++ evs /\
    length evs = 3%nat /\ forallb isAcquireJob evs = true.
Proof.
  apply (empty_acquire_keeps_slot (calm emptyJob) 3).
  - intros n. exists emptyJob. split; reflexivity.
  - reflexivity.
  - reflexivity.
Defined.

Lemma close_twice_witness :
  let later := worldOf (exec (calm (importJob [file "test.txt" 7])) acquireJob
                          closedWorld) in
  exec (calm emptyJob) (closeWithError (Some (errorString "again"))) later
  = Done None later.
Proof.
  apply (close_twice (calm emptyJob) (calm emptyJob) None
           (Some (errorString "again")) None fresh closedWorld).
  - vm_compute. reflexivity.
  - repeat split.
Defined.

Lemma closed_daemon_discards_job_witness :
  let job := importJob [file "test.txt" 7] in
  exists w1 w2 evs,
    exec (calm job) acquireJob closedWorld = Done tt w1 /\
    daemon w1 = set_acquiredJob (Some job) (daemon closedWorld) /\
    spawned w1 = spawned closedWorld /\
    trace w1 = trace closedWorld ++ [Called (AcquireJob closeContext) (inl job)] /\
    execAll (calm job) [Tick; Closing; Tick] w1 = Some w2 /\
    acquiredJobRunning (daemon w2) = false /\
    spawned w2 = spawned closedWorld /\
    trace w2 = trace w1 ++ evs /\ terminals evs = [].
Proof.
  apply (closed_daemon_discards_job (calm (importJob [file "test.txt" 7]))
           closedWorld (importJob [file "test.txt" 7]) [Tick; Closing; Tick]).
  - reflexivity.
  - reflexivity.
  - reflexivity.
  - reflexivity.
  - reflexivity.
  - discriminate.
Defined.

End Runs.

(** ** More theorems at concrete jobs *)

Module MoreRuns.

Import Scenario Cases.

(** The fields right after the first acquire of a job. *)
Ltac running :=
  constructor; try reflexivity;
  [ exists 0%nat; split; [reflexivity | split; [reflexivity | vm_compute; lia]]
  | vm_compute; lia ].

Lemma plain_name_passes_check_witness :
  inWorkDirectory opts (file "modules/./main.tf" 120) = true /\
  liesUnder (WorkDirectory opts) (entryPath opts (file "modules/./main.tf" 120))
  = true.
Proof.
  apply (plain_name_passes_check opts (file "modules/./main.tf" 120));
    reflexivity.
Defined.

Lemma plain_archive_unpacks_witness :
  exists w' evs,
    exec (calm emptyJob) (unpack goQuote opts sources EOF) fresh = Done None w' /\
    trace w' = trace fresh ++ evs /\
    omap createdWith evs
    = map (fun e => (entryPath opts e, entryMode e)) (List.filter isCreated sources).
Proof.
  apply (plain_archive_unpacks goQuote opts (calm emptyJob) sources).
  - reflexivity.
  - intros n. repeat split.
  - repeat constructor.
Defined.

Lemma unpack_in_sequence_witness :
  let pre := [file "a.txt" 3] in
  let rest := [dir "sub" 493; file "sub/b.txt" 5] in
  exec (calm emptyJob) (unpack goQuote opts (pre ++ rest) EOF) fresh
  = exec (calm emptyJob) (unpack goQuote opts rest EOF)
      (unpackedIn (calm emptyJob) pre fresh).
Proof.
  apply (unpack_in_sequence goQuote opts (calm emptyJob) [file "a.txt" 3]
           [dir "sub" 493; file "sub/b.txt" 5] EOF fresh
           (unpackedIn (calm emptyJob) [file "a.txt" 3] fresh) None).
  vm_compute. reflexivity.
Defined.

Lemma work_directory_failure_cancels_job_witness :
  let job := importJob [file "test.txt" 7] in
  let err := errorString "read-only file system" in
  let env := answering job (Some err) (inl parseStream) (inl provisionStream) in
  exists w' r r',
    serve goQuote opts env fresh = Some w' /\
    trace w' =
      trace fresh ++
      [Called (AcquireJob closeContext) (inl job);
       Called (MkdirAll (WorkDirectory opts) 384) (Some err);
       Called (CancelJob closeContext
                 (mkCancelledJob (JobId job)
                    ("provisioner daemon: "
                     +:+ ("create work directory " +:+ goQuote (WorkDirectory opts)
                          +:+ ": " +:+ Error err))))
         r;
       Called (RemoveAll (WorkDirectory opts)) r'].
Proof.
  apply (work_directory_failure_cancels_job goQuote opts
           (answering (importJob [file "test.txt" 7])
              (Some (errorString "read-only file system"))
              (inl parseStream) (inl provisionStream))
           fresh (importJob [file "test.txt" 7]) 0%nat
           (errorString "read-only file system")).
  - split; reflexivity.
  - reflexivity.
  - reflexivity.
  - discriminate.
  - vm_compute. reflexivity.
  - reflexivity.
Defined.

Lemma untyped_job_panics_witness :
  let job := untypedJob [file "test.txt" 7] in
  let w := acquiredBy (calm job) in
  let w1 := unpackedIn (calm job) [file "test.txt" 7]
              (mkWorld (daemon w) (S (clock w))
                 (trace w ++ [Called (MkdirAll "/tmp/work" 384) None])
                 (spawned w ++ [Task_cleanup 0])) in
  exec (calm job) (runJob goQuote opts 0) w
  = Panicked "invalid memory address or nil pointer dereference" w1 /\
  daemon w1 = daemon w /\
  exists evs, trace w1 = trace w ++ evs /\ terminals evs = [].
Proof.
  apply (untyped_job_panics goQuote opts (calm (untypedJob [file "test.txt" 7]))
           _ _ 0%nat (untypedJob [file "test.txt" 7]) 0%nat).
  - running.
  - vm_compute. reflexivity.
  - reflexivity.
  - reflexivity.
  - vm_compute. reflexivity.
Defined.

Lemma import_forwards_logs_witness :
  let job := importJob [file "test.txt" 7] in
  let w := acquiredBy (calm job) in
  exists w' evs,
    exec (calm job) (runProjectImport goQuote opts 0 0%nat) w = Done tt w' /\
    trace w' = trace w ++ evs /\
    Forall2 (importLogOf (JobId job)) [mkSdkLog 2 "hello"] (omap updateSent evs) /\
    omap completedWith evs
    = [mkCompletedJob (JobId job) (CompletedJob_ProjectImport_ [])].
Proof.
  apply (import_forwards_logs goQuote opts (calm (importJob [file "test.txt" 7]))
           (acquiredBy (calm (importJob [file "test.txt" 7]))) 0%nat
           (importJob [file "test.txt" 7]) 0%nat [mkSdkLog 2 "hello"] [] [] EOF).
  - running.
  - reflexivity.
  - reflexivity.
Defined.

Lemma import_stream_end_cancels_job_witness :
  let job := importJob [file "test.txt" 7] in
  let logs := [mkSdkLog 2 "init"; mkSdkLog 3 "plan"] in
  let env := answering job None
               (inl (mkStream (map Parse_Response_Log logs) EOF))
               (inl provisionStream) in
  let w := acquiredBy (calm job) in
  exists w' evs,
    exec env (runProjectImport goQuote opts 0 0%nat) w = Done tt w' /\
    trace w' = trace w ++ evs /\
    Forall2 (importLogOf (JobId job)) logs (omap updateSent evs) /\
    terminals evs
    = [T_Cancel (JobId job)
         ("provisioner daemon: " +:+ ("recv parse source: " +:+ Error EOF))].
Proof.
  apply (import_stream_end_cancels_job goQuote opts
           (answering (importJob [file "test.txt" 7]) None
              (inl (mkStream (map Parse_Response_Log
                                [mkSdkLog 2 "init"; mkSdkLog 3 "plan"]) EOF))
              (inl provisionStream))
           (acquiredBy (calm (importJob [file "test.txt" 7]))) 0%nat
           (importJob [file "test.txt" 7]) 0%nat
           [mkSdkLog 2 "init"; mkSdkLog 3 "plan"] EOF).
  - running.
  - reflexivity.
  - reflexivity.
Defined.

Lemma provision_forwards_logs_witness :
  let job := provisionJob [file "test.txt" 7] in
  let env := answering job None (inl parseStream) (inl provisionStream) in
  let w := acquiredBy (calm job) in
  exists w' evs,
    exec env (runWorkspaceProvision goQuote opts 0 0%nat ["region=eu"] []) w
    = Done tt w' /\
    trace w' = trace w ++ evs /\
    Forall2 (provisionLogOf (JobId job)) [mkSdkLog 1 "wow"] (omap updateSent evs) /\
    omap completedWith evs
    = [mkCompletedJob (JobId job)
         (CompletedJob_WorkspaceProvision_ [] ["instance"])].
Proof.
  apply (provision_forwards_logs goQuote opts
           (answering (provisionJob [file "test.txt" 7]) None (inl parseStream)
              (inl provisionStream))
           (acquiredBy (calm (provisionJob [file "test.txt" 7]))) 0%nat
           (provisionJob [file "test.txt" 7]) 0%nat ["region=eu"] []
           [mkSdkLog 1 "wow"] [] ["instance"] [] EOF).
  - running.
  - reflexivity.
  - reflexivity.
Defined.

Lemma provision_stream_end_cancels_job_witness :
  let job := provisionJob [file "test.txt" 7] in
  let w := acquiredBy (calm job) in
  exists w' evs,
    exec (calm job) (runWorkspaceProvision goQuote opts 0 0%nat ["region=eu"] []) w
    = Done tt w' /\
    trace w' = trace w ++ evs /\
    Forall2 (provisionLogOf (JobId job)) [] (omap updateSent evs) /\
    terminals evs
    = [T_Cancel (JobId job)
         ("provisioner daemon: "
          +:+ ("recv workspace provision: " +:+ Error EOF))].
Proof.
  apply (provision_stream_end_cancels_job goQuote opts
           (calm (provisionJob [file "test.txt" 7]))
           (acquiredBy (calm (provisionJob [file "test.txt" 7]))) 0%nat
           (provisionJob [file "test.txt" 7]) 0%nat ["region=eu"] [] [] EOF).
  - running.
  - reflexivity.
  - reflexivity.
Defined.

Lemma acquireJob_starts_witness :
  let job := importJob [file "test.txt" 7] in
  exists w',
    exec (calm job) acquireJob fresh = Done tt w' /\
    trace w' = trace fresh ++ [Called (AcquireJob closeContext) (inl job)] /\
    exists ctx,
      Running (daemon w') ctx job /\
      spawned w' = spawned fresh ++ [Task_runJob ctx].
Proof.
  apply (acquireJob_starts (calm (importJob [file "test.txt" 7])) fresh).
  reflexivity.
Defined.

Lemma close_idle_daemon_witness :
  exists w',
    exec (calm emptyJob) (closeWithError (Some (errorString "stopped"))) fresh
    = Done (Some (errorString "stopped")) w' /\
    daemon w' =
      set_closeCancelled true
        (set_closed true
           (set_closeError (Some (errorString "stopped")) (daemon fresh))) /\
    spawned w' = spawned fresh /\
    trace w' = trace fresh ++ [Called ConnClose None; Called UpdateStreamClose None].
Proof.
  apply (close_idle_daemon (calm emptyJob) (Some (errorString "stopped")) fresh);
    reflexivity.
Defined.


Lemma job_is_served_witness :
  exists w',
    serve goQuote opts (calm (provisionJob sources)) fresh = Some w' /\
    spawned w' = [].
Proof.
  apply (job_is_served goQuote opts (calm (provisionJob sources)) fresh
           (provisionJob sources)).
  - split; reflexivity.
  - reflexivity.
  - reflexivity.
  - discriminate.
  - reflexivity.
  - split; intros; match goal with H : _ = inl _ |- _ => injection H as <- end;
      reflexivity.
Defined.

Lemma terminal_calls_name_the_job_witness :
  let job := importJob sources in
  let env := scripted job (Some (errorString "unavailable"))
               (Some (errorString "permission denied")) in
  exists w' evs,
    serve goQuote opts env fresh = Some w' /\
    trace w' = trace fresh ++ evs /\
    terminals evs <> [] /\
    forallb (namesJob (JobId job)) (terminals evs) = true.
Proof.
  apply (terminal_calls_name_the_job goQuote opts
           (scripted (importJob sources) (Some (errorString "unavailable"))
              (Some (errorString "permission denied")))
           fresh (importJob sources)).
  - split; reflexivity.
  - reflexivity.
  - reflexivity.
  - discriminate.
  - reflexivity.
  - split; intros; match goal with H : _ = inl _ |- _ => injection H as <- end;
      reflexivity.
Defined.

Lemma jobs_served_in_turn_witness :
  exists w' evs,
    serveAll goQuote opts 3 (calm (importJob sources)) fresh = Some w' /\
    Idle (daemon w') /\
    spawned w' = [] /\
    trace w' = trace fresh ++ evs /\
    (3 <= length (terminals evs) <= 2 * 3)%nat.
Proof.
  apply (jobs_served_in_turn goQuote opts (calm (importJob sources)) 3).
  - intros n. exists (importJob sources). repeat split. discriminate.
  - split; intros; match goal with H : _ = inl _ |- _ => injection H as <- end;
      reflexivity.
  - reflexivity.
  - split; reflexivity.
  - reflexivity.
Defined.

Lemma closed_under_every_interleaving_witness :
  let env := calm (importJob [file "test.txt" 7]) in
  exists pool' w',
    poolRun goQuote opts env [0; 1; 0; 1; 0; 1; 0; 1; 0; 0]%nat pollerAndClose
      closedWorld = Some (pool', w') /\
    closed (daemon w') = true.
Proof.
  intros env.
  destruct (poolRun goQuote opts env [0; 1; 0; 1; 0; 1; 0; 1; 0; 0]%nat pollerAndClose
              closedWorld) as [[pool' w'] | ] eqn:E.
  - exists pool', w'. split; [reflexivity | ].
    apply (closed_under_every_interleaving goQuote opts env
             [0; 1; 0; 1; 0; 1; 0; 1; 0; 0]%nat pollerAndClose pool' closedWorld w').
    + apply List.Forall_cons; [left; exists Tick; reflexivity | ].
      apply List.Forall_cons; [left; exists Closing; reflexivity | ].
      apply List.Forall_nil.
    + exact E.
    + reflexivity.
  - vm_compute in E. discriminate.
Defined.

Lemma only_Close_writes_its_fields_witness :
  let env := calm (importJob [file "test.txt" 7]) in
  let schedule := (repeat 0 10 ++ [1; 0] ++ repeat 1 16 ++ repeat 2 6)%nat in
  exists pool' w',
    poolRun goQuote opts env schedule [enter Tick] fresh = Some (pool', w') /\
    closed (daemon w') = closed (daemon fresh) /\
    closeError (daemon w') = closeError (daemon fresh) /\
    closeMutex (daemon w') = closeMutex (daemon fresh).
Proof.
  intros env schedule.
  destruct (poolRun goQuote opts env schedule [enter Tick] fresh)
    as [[pool' w'] | ] eqn:E.
  - exists pool', w'. split; [reflexivity | ].
    apply (only_Close_writes_its_fields goQuote opts env schedule [enter Tick] pool'
             fresh w').
    + apply List.Forall_cons; [left; reflexivity | apply List.Forall_nil].
    + exact E.
  - vm_compute in E. discriminate.
Defined.

End MoreRuns.

(* ===================================================================== *)
(** * A poll or [Close] in between                                        *)
(* ===================================================================== *)

(** A run that ends well, with what holds of the goroutines and of the world
    it leaves. *)
Lemma run_result {A B : Type} (o : option (A * B)) (P : A -> B -> Prop) :
  match o with Some (a, b) => P a b | None => False end ->
  exists a b, o = Some (a, b) /\ P a b.
Proof.
  destruct o as [[a b] | ]; [ | intros []].
  intros H. exists a, b. split; [reflexivity | exact H].
Qed.

(** The goroutines of the daemon take turns under a schedule ([poolRun]): the
    schedule names, operation by operation, the goroutine that moves.  The
    goroutines a run starts join the pool behind the ones it began with, the
    runner of a job before its cleanup goroutine. *)

Module Races.

Import Scenario Cases Interleaved.

Ltac interleaved := apply run_result; vm_compute; repeat split.

(** C2.  The terminal calls of one job are not always [CompleteJob] alone or
    [CancelJob] alone, each once.  Two runs of a poll (goroutine 0) and a
    caller of [Close] (1), with the runner (2) and the cleanup goroutine (3)
    of the job "first" that the poll acquires.

    In the first run the provisioner of the job is not registered.  The
    runner enters [cancelActiveJob] and loads the cancelled flag, which is
    false; [Close] finds the job running and not cancelled, sets the flag,
    cancels the context and sends [CancelJob]; the runner goes on, sets the
    flag again and sends [CancelJob] too: two [CancelJob] for one job, since
    the flag is loaded and then stored, not swapped.

    In the second run the job is served and the runner sends [CompleteJob],
    which succeeds, and returns.  [Close] runs before the cleanup goroutine
    has cleared the running flag: it finds the job running and not cancelled
    and sends [CancelJob] for the job that is complete.

    In both runs every goroutine returns and the daemon ends closed. *)
Theorem job_cancelled_twice_or_after_completion :
  (let env := handing unregistered second (inl parseStream) in
   let schedule :=
     (repeat 0 11 ++ repeat 2 4 ++ repeat 1 11 ++ repeat 2 5 ++ repeat 3 6
      ++ repeat 1 8)%nat in
   exists pool w,
     poolRun goQuote opts env schedule pollerAndClose fresh = Some (pool, w) /\
     forallb returned pool = true /\
     closed (daemon w) = true /\
     terminals (trace w) =
       [T_Cancel "first"
          "provisioner daemon: provisioner daemon was shutdown gracefully";
        T_Cancel "first"
          ("provisioner daemon: provisioner " +:+ goQuote "terraform"
           +:+ " not registered")]) /\
  (let env := handing completing second (inl parseStream) in
   let schedule :=
     (repeat 0 11 ++ repeat 2 17 ++ repeat 1 11 ++ repeat 3 6 ++ repeat 1 8)%nat in
   exists pool w,
     poolRun goQuote opts env schedule pollerAndClose fresh = Some (pool, w) /\
     forallb returned pool = true /\
     closed (daemon w) = true /\
     terminals (trace w) =
       [T_Complete "first" true;
        T_Cancel "first"
          "provisioner daemon: provisioner daemon was shutdown gracefully"]).
Proof. split; intros env schedule; interleaved. Qed.

(** C4.  A job whose archive has an entry that leaves the work directory is
    not always cancelled.  Two polls (goroutines 0 and 1) side by side.  The
    first acquires the job "first", whose second entry is
    "../../../etc/passwd".  Its runner (2) creates a.txt, stops at the entry
    and, in [cancelActiveJob], sets the cancelled flag and cancels the
    context of the job.  The cleanup goroutine (3) removes the work directory
    and clears the running flag.  The second poll acquires the job "second"
    and stores it in [p.acquiredJob].  The runner of "first" now reads
    [p.acquiredJob.JobId] and sends its [CancelJob], with the message about
    the entry, for "second".  The job "second" is served by its own runner
    (4) and cleanup goroutine (5) and completes.  Every goroutine returns.
    No terminal call names "first": the job with the entry is never
    cancelled, and the job that is cancelled is completed afterwards.
    Neither the entry nor b.txt behind it is created. *)
Theorem escaping_job_is_not_cancelled :
  let env := handing escaping second (inl parseStream) in
  let schedule :=
    (repeat 0 11 ++ repeat 2 12 ++ repeat 3 6 ++ repeat 1 11 ++ repeat 2 2
     ++ repeat 4 17 ++ repeat 5 6)%nat in
  exists pool w,
    poolRun goQuote opts env schedule twoPolls fresh = Some (pool, w) /\
    forallb returned pool = true /\
    acquiredJobRunning (daemon w) = false /\
    createdPaths (trace w)
    = ["/tmp/work"; "/tmp/work/a.txt"; "/tmp/work"; "/tmp/work/test.txt"] /\
    terminals (trace w) =
      [T_Cancel "second"
         "provisioner daemon: tar attempts to target relative upper directory";
       T_Complete "second" true].
Proof. intros env schedule. interleaved. Qed.

(** C7.  A job whose provisioner is not registered is not always cancelled.
    Two polls (goroutines 0 and 1) side by side.  The first acquires the job
    "first" for the provisioner "terraform", which is not in the registry.
    Its runner (2) enters [cancelActiveJob], sets the cancelled flag and
    cancels the context of the job.  The cleanup goroutine (3) clears the
    running flag.  The second poll acquires the job "second", for a
    registered provisioner, and stores it in [p.acquiredJob].  The runner of
    "first" now reads [p.acquiredJob.JobId] and sends its [CancelJob], with
    the message that "terraform" is not registered, for "second".  The job
    "second" is served (4, 5): a provisioner stream is opened for it and it
    completes.  Every goroutine returns, and no terminal call names
    "first". *)
Theorem unregistered_job_is_not_cancelled :
  let env := handing unregistered second (inl parseStream) in
  let schedule :=
    (repeat 0 11 ++ repeat 2 7 ++ repeat 3 6 ++ repeat 1 11 ++ repeat 2 2
     ++ repeat 4 17 ++ repeat 5 6)%nat in
  exists pool w,
    poolRun goQuote opts env schedule twoPolls fresh = Some (pool, w) /\
    forallb returned pool = true /\
    acquiredJobRunning (daemon w) = false /\
    terminals (trace w) =
      [T_Cancel "second"
         ("provisioner daemon: provisioner " +:+ goQuote "terraform"
          +:+ " not registered");
       T_Complete "second" true].
Proof. intros env schedule. interleaved. Qed.

(** C10.  A job that is discarded because the daemon closed while it was
    acquired can still be sent a [CancelJob].  Two polls (goroutines 0 and 1)
    and a caller of [Close] (2).  The first poll acquires the job "first",
    whose provisioner is not registered; its runner (3) sets the cancelled
    flag and cancels the context in [cancelActiveJob], and its cleanup
    goroutine (4) clears the running flag.

    - [received]: the second poll calls [AcquireJob], which returns the job
      "second"; the daemon is open and no terminal call has been sent.
    - [closing]: [Close] runs, from start to end: no job is running, so it
      sends nothing and closes the daemon.
    - [discarded]: the second poll goes on: it stores "second" in
      [p.acquiredJob], finds the daemon closed and returns.  The running
      flag is false and no goroutine has been started: the pool still has
      its five goroutines.
    - [resumed]: the runner of "first" goes on: it reads
      [p.acquiredJob.JobId] and sends [CancelJob] for "second".  Every
      goroutine has returned. *)
Theorem discarded_job_is_cancelled :
  let env := handing unregistered second (inl parseStream) in
  let received :=
    (repeat 0 11 ++ repeat 3 7 ++ repeat 4 6 ++ repeat 1 3)%nat in
  let closing := (received ++ repeat 2 10)%nat in
  let discarded := (closing ++ repeat 1 3)%nat in
  let resumed := (discarded ++ repeat 3 2)%nat in
  (exists pool w,
     poolRun goQuote opts env received twoPollsAndClose fresh = Some (pool, w) /\
     closed (daemon w) = false /\
     acquiredJobRunning (daemon w) = false /\
     List.filter isAcquireJob (trace w)
     = [Called (AcquireJob closeContext) (inl unregistered);
        Called (AcquireJob closeContext) (inl second)] /\
     terminals (trace w) = []) /\
  (exists pool w,
     poolRun goQuote opts env closing twoPollsAndClose fresh = Some (pool, w) /\
     pool !! 2%nat = Some (Ret tt) /\
     closed (daemon w) = true /\
     terminals (trace w) = []) /\
  (exists pool w,
     poolRun goQuote opts env discarded twoPollsAndClose fresh = Some (pool, w) /\
     pool !! 1%nat = Some (Ret tt) /\
     acquiredJob (daemon w) = Some second /\
     acquiredJobRunning (daemon w) = false /\
     length pool = 5%nat /\
     spawned w = [] /\
     terminals (trace w) = []) /\
  (exists pool w,
     poolRun goQuote opts env resumed twoPollsAndClose fresh = Some (pool, w) /\
     forallb returned pool = true /\
     length pool = 5%nat /\
     acquiredJobRunning (daemon w) = false /\
     terminals (trace w) =
       [T_Cancel "second"
          ("provisioner daemon: provisioner " +:+ goQuote "terraform"
           +:+ " not registered")]).
Proof.
  intros env received closing discarded resumed.
  split; [ | split; [ | split]]; interleaved.
Qed.

End Races.
